(** * djxl: decode orchestration of tools/djxl_main.cc

    A shallow embedding of the command-line decoder front end: the output
    file-name deriver [Filename], the pixel-format negotiation
    [AddFormatsWithAlphaChannel], the background parser
    [ParseBackgroundColor] and the control flow of [main] from the point
    where the compressed input has been read.

    Conventions of the embedding:
    - C++ [int], [size_t] and [uint32_t] values are integers of [Z]; where
      the source converts between them the wrap-around is written out.
    - [std::string] is [string]; byte buffers are [list byte].
    - [float] values are IEEE 754 binary32 numbers ([spec_float] at
      precision 24), with the round-to-nearest-even arithmetic of the
      Standard Library's [SpecFloat]; the [double] of [--display_nits] is
      only copied and is kept as a rational of [Q].
    - [static_cast<int>(std::log10(n))] is the exact integer logarithm.
    - the decode engine, the encoders and the file system are collaborators
      of [main]: they are the fields of a record, and [main] records every
      call it makes to them in a trace. *)

From Stdlib Require Import ZArith List Bool Ascii String Lia.
From Stdlib Require Import QArith Qround SpecFloat.
Import ListNotations.

Local Open Scope string_scope.
Local Open Scope Z_scope.

(** ** The C and C++ library functions the source calls *)

Module CStd.

(** [static_cast<int>(std::log10(n))] for [n >= 1]: the number of times [n]
    can be divided by ten before it drops below ten. *)
Fixpoint log10_fuel (fuel : nat) (n : Z) : Z :=
  match fuel with
  | O => 0
  | S fuel' => if n <? 10 then 0 else 1 + log10_fuel fuel' (n / 10)
  end.

Definition log10_floor (n : Z) : Z :=
  log10_fuel (S (Z.to_nat (Z.log2 n))) n.

Definition digit_char (d : Z) : ascii :=
  ascii_of_nat (48 + Z.to_nat d).

(** The [w] least significant decimal digits of [v], most significant first. *)
Fixpoint fixed_digits (w : nat) (v : Z) : string :=
  match w with
  | O => ""
  | S w' => fixed_digits w' (v / 10) ++ String (digit_char (v mod 10)) ""
  end.

(** Number of characters of the decimal rendering of [v >= 0]. *)
Definition dec_len (v : Z) : Z := 1 + log10_floor v.

(** [%d] of a non-negative value. *)
Definition decimal (v : Z) : string :=
  fixed_digits (Z.to_nat (dec_len v)) v.

Fixpoint zeros (n : nat) : string :=
  match n with
  | O => ""
  | S n' => String "0" (zeros n')
  end.

(** A non-negative value padded on the left with ['0'] to at least [w]
    characters. *)
Definition zero_pad (w v : Z) : string :=
  zeros (Z.to_nat (w - dec_len v)) ++ decimal v.

(** The conversion [%0*d] of printf with a positive width [w]: the sign, if
    any, comes first and counts in the width. *)
Definition fmt_0d (w v : Z) : string :=
  if v <? 0 then String "-" (zero_pad (w - 1) (- v)) else zero_pad w v.

Fixpoint string_take (n : nat) (s : string) : string :=
  match n, s with
  | S n', String c s' => String c (string_take n' s')
  | _, _ => ""
  end.

(** [snprintf(buf, size, ...)] followed by reading [buf] back as a C string:
    at most [size - 1] characters of the formatted text are kept. *)
Definition snprintf (size : Z) (formatted : string) : string :=
  string_take (Z.to_nat (size - 1)) formatted.

End CStd.

(** ** Filename (djxl_main.cc, lines 286-309) *)

Definition digits (n : Z) : Z := 1 + CStd.log10_floor n.

Definition Filename (filename extension : string)
    (layer_index frame_index num_layers num_frames : Z) : string :=
  if (filename =? "-")%string then "-" else
  let out := filename in
  let out :=
    if 1 <? num_frames then
      out ++ CStd.snprintf (2 + digits num_frames)
               ("-" ++ CStd.fmt_0d (digits num_frames) frame_index)
    else out in
  let out :=
    if (1 <? num_layers) && (0 <? layer_index) then
      out ++ CStd.snprintf (4 + digits num_layers)
               ("-ec" ++ CStd.fmt_0d (digits num_layers) layer_index)
    else out in
  if (extension =? ".ppm")%string && (0 <? layer_index) then out ++ ".pgm"
  else if (1 <? num_frames) || ((1 <? num_layers) && (0 <? layer_index))
       then out ++ extension
       else out.

(** ** Pixel formats (djxl_main.cc, lines 311-331) *)

(** Modelled from the spec: the declarations of jxl/types.h, which the
    source includes; a pixel format is the 4-tuple of channel count, sample
    type, endianness and row alignment. *)
Inductive JxlDataType : Type :=
| JXL_TYPE_FLOAT
| JXL_TYPE_UINT8
| JXL_TYPE_UINT16
| JXL_TYPE_FLOAT16.

Inductive JxlEndianness : Type :=
| JXL_NATIVE_ENDIAN
| JXL_LITTLE_ENDIAN
| JXL_BIG_ENDIAN.

Record JxlPixelFormat : Type := mkFormat {
  num_channels : Z;          (* uint32_t *)
  data_type : JxlDataType;
  endianness : JxlEndianness;
  align : Z                  (* size_t *)
}.

Definition data_type_eqb (a b : JxlDataType) : bool :=
  match a, b with
  | JXL_TYPE_FLOAT, JXL_TYPE_FLOAT
  | JXL_TYPE_UINT8, JXL_TYPE_UINT8
  | JXL_TYPE_UINT16, JXL_TYPE_UINT16
  | JXL_TYPE_FLOAT16, JXL_TYPE_FLOAT16 => true
  | _, _ => false
  end.

Definition endianness_eqb (a b : JxlEndianness) : bool :=
  match a, b with
  | JXL_NATIVE_ENDIAN, JXL_NATIVE_ENDIAN
  | JXL_LITTLE_ENDIAN, JXL_LITTLE_ENDIAN
  | JXL_BIG_ENDIAN, JXL_BIG_ENDIAN => true
  | _, _ => false
  end.

(** The comparison of lines 315-317. *)
Definition same_format (f format : JxlPixelFormat) : bool :=
  (num_channels f =? num_channels format)
  && data_type_eqb (data_type f) (data_type format)
  && endianness_eqb (endianness f) (endianness format)
  && (align f =? align format).

Definition uint32 (z : Z) : Z := z mod 2 ^ 32.

(** The lambda [add_format]: the early [return] on the first structurally
    equal entry, [push_back] otherwise. *)
Definition add_format (formats : list JxlPixelFormat) (format : JxlPixelFormat)
  : list JxlPixelFormat :=
  if existsb (fun f => same_format f format) formats then formats
  else (formats ++ [format])%list.

(** [++format.num_channels] *)
Definition incr_channels (format : JxlPixelFormat) : JxlPixelFormat :=
  mkFormat (uint32 (num_channels format + 1)) (data_type format)
           (endianness format) (align format).

Definition gray_or_rgb (format : JxlPixelFormat) : bool :=
  (num_channels format =? 1) || (num_channels format =? 3).

(** The loop of lines 324-330 with [n] iterations left, at index [i]; the
    vector is read at [i] in its current state.  [i] stays below the
    original size, so the read is always in range. *)
Fixpoint add_alpha_loop (n i : nat) (formats : list JxlPixelFormat)
  : list JxlPixelFormat :=
  match n with
  | O => formats
  | S n' =>
      let formats' :=
        match nth_error formats i with
        | Some format =>
            if gray_or_rgb format then add_format formats (incr_channels format)
            else formats
        | None => formats
        end in
      add_alpha_loop n' (S i) formats'
  end.

Definition AddFormatsWithAlphaChannel (formats : list JxlPixelFormat)
  : list JxlPixelFormat :=
  add_alpha_loop (List.length formats) 0%nat formats.

(** ** std::stoi in base 16 *)

Module Stoi.

Inductive result : Type :=
| Value (v : Z)
| InvalidArgument      (* std::invalid_argument: no conversion *)
| OutOfRange.          (* std::out_of_range *)

(** [isspace] in the C locale. *)
Definition is_space (c : ascii) : bool :=
  let n := nat_of_ascii c in
  (n =? 32)%nat || ((9 <=? n)%nat && (n <=? 13)%nat).

Definition hex_value (c : ascii) : option Z :=
  let n := Z.of_nat (nat_of_ascii c) in
  if (48 <=? n) && (n <=? 57) then Some (n - 48)
  else if (97 <=? n) && (n <=? 102) then Some (n - 87)
  else if (65 <=? n) && (n <=? 70) then Some (n - 55)
  else None.

Definition is_hex (c : ascii) : bool :=
  match hex_value c with Some _ => true | None => false end.

Fixpoint skip_spaces (s : string) : string :=
  match s with
  | String c s' => if is_space c then skip_spaces s' else s
  | EmptyString => s
  end.

(** Value of the longest run of hexadecimal digits at the start of [s],
    continuing from the accumulated value [acc]. *)
Fixpoint hex_run (acc : Z) (s : string) : Z :=
  match s with
  | String c s' =>
      match hex_value c with
      | Some d => hex_run (16 * acc + d) s'
      | None => acc
      end
  | EmptyString => acc
  end.

Definition starts_with_hex (s : string) : bool :=
  match s with
  | String c _ => is_hex c
  | EmptyString => false
  end.

(** The optional [0x] or [0X] of base 16: consumed only when a hexadecimal
    digit follows it. *)
Definition strip_0x (s : string) : string :=
  match s with
  | String "0" (String x (String d rest)) =>
      if ((x =? "x")%char || (x =? "X")%char) && is_hex d then String d rest
      else s
  | _ => s
  end.

Definition INT_MIN : Z := - 2 ^ 31.
Definition INT_MAX : Z := 2 ^ 31 - 1.

(** [std::stoi(s, nullptr, 16)], that is [strtol] in base 16 with the
    checks of [stoi]: leading white space, an optional sign, an optional
    [0x], then the longest run of hexadecimal digits. *)
Definition stoi16 (s : string) : result :=
  let s1 := skip_spaces s in
  let '(negative, s2) :=
    match s1 with
    | String "-" r => (true, r)
    | String "+" r => (false, r)
    | _ => (false, s1)
    end in
  let s3 := strip_0x s2 in
  if starts_with_hex s3 then
    let magnitude := hex_run 0 s3 in
    let v := if negative then - magnitude else magnitude in
    if (v <? INT_MIN) || (INT_MAX <? v) then OutOfRange else Value v
  else InvalidArgument.

End Stoi.

(** ** ParseBackgroundColor (djxl_main.cc, lines 333-351) *)

(** [float] arithmetic: binary32 has 24 bits of precision and exponents
    below 128; every operation rounds to nearest, ties to even. *)
Module Float32.

Definition prec : Z := 24.
Definition emax : Z := 128.

(** The conversion of an integer to [float]. *)
Definition of_Z (n : Z) : spec_float := binary_normalize prec emax n 0 false.

Definition mul : spec_float -> spec_float -> spec_float := SFmul prec emax.
Definition div : spec_float -> spec_float -> spec_float := SFdiv prec emax.

(** [0.0f] and [1.0f]. *)
Definition zero : spec_float := S754_zero false.
Definition one : spec_float := S754_finite false 8388608 (-23).

Definition leb : spec_float -> spec_float -> bool := SFleb.

(** The real number a finite [float] stands for. *)
Definition to_Q (f : spec_float) : Q :=
  match f with
  | S754_finite s m e =>
      let v := if s then Z.neg m else Z.pos m in
      if 0 <=? e then inject_Z (v * 2 ^ e)
      else Qmake v (Z.to_pos (2 ^ (- e)))
  | _ => 0%Q
  end.

End Float32.

Definition Background : Type := (spec_float * spec_float * spec_float)%type.

(** What a call of [ParseBackgroundColor] does: it returns [true] and has
    filled the three floats, it returns [false] and has written nothing, or
    it leaves through the exception of [std::stoi]. *)
Inductive ParseResult : Type :=
| ParseTrue (background : Background)
| ParseFalse
| ParseThrows.

(** [c * (1.0f / 255)] for an unsigned [c]: the quotient is rounded to
    [float], [c] is converted to [float], and the product is rounded. *)
Definition scale_255 (c : Z) : spec_float :=
  Float32.mul (Float32.of_Z c)
              (Float32.div (Float32.of_Z 1) (Float32.of_Z 255)).

Definition string_tail (s : string) : string :=
  match s with
  | String _ s' => s'
  | EmptyString => s
  end.

Definition first_char_is (c : ascii) (s : string) : bool :=
  match s with
  | String c' _ => (c' =? c)%char
  | EmptyString => false
  end.

Definition color_channels (color : Z) : Background :=
  (scale_255 (Z.land (Z.shiftr color 16) 255),
   scale_255 (Z.land (Z.shiftr color 8) 255),
   scale_255 (Z.land color 255)).

Definition ParseBackgroundColor (background_desc : string) : ParseResult :=
  if (background_desc =? "black")%string then
    ParseTrue (Float32.zero, Float32.zero, Float32.zero)
  else if (background_desc =? "white")%string then
    ParseTrue (Float32.one, Float32.one, Float32.one)
  else if negb (String.length background_desc =? 7)%nat
          || negb (first_char_is "#" background_desc) then ParseFalse
  else
    match Stoi.stoi16 (string_tail background_desc) with
    | Stoi.Value v => ParseTrue (color_channels (uint32 v))
    | Stoi.InvalidArgument | Stoi.OutOfRange => ParseThrows
    end.

(** ** The collaborators of main *)

Definition bytes : Type := list Byte.byte.

(** Modelled from the spec: the codec enumeration of lib/extras, of which
    [main] names [kUnknown], [kJPG], [kEXR] and [kPNM]. *)
Inductive Codec : Type :=
| kUnknown | kPNG | kPNM | kPGX | kJPG | kGIF | kEXR | kJXL.

Definition codec_eqb (a b : Codec) : bool :=
  match a, b with
  | kUnknown, kUnknown | kPNG, kPNG | kPNM, kPNM | kPGX, kPGX
  | kJPG, kJPG | kGIF, kGIF | kEXR, kEXR | kJXL, kJXL => true
  | _, _ => false
  end.

(** Modelled from the spec: the decoded image of lib/extras/packed_image.h,
    with its dimensions, its frames (a colour image and the extra channels
    of each) and the two ICC profiles. *)
Record PackedImage : Type := {
  image_xsize : Z;
  image_ysize : Z;
  image_format : JxlPixelFormat;
  image_pixels : bytes
}.

Record PackedFrame : Type := {
  frame_color : PackedImage;
  frame_extra_channels : list PackedImage
}.

Record PackedPixelFile : Type := {
  info_xsize : Z;
  info_ysize : Z;
  icc : bytes;
  orig_icc : bytes;
  frames : list PackedFrame
}.

Definition empty_ppf : PackedPixelFile :=
  {| info_xsize := 0; info_ysize := 0; icc := []; orig_icc := [];
     frames := [] |}.

(** Modelled from the spec: the encoder's result of lib/extras/enc/encode.h,
    one bitstream per frame, and per extra channel one bitstream per frame. *)
Record EncodedImage : Type := {
  bitstreams : list bytes;
  extra_channel_bitstreams : list (list bytes);
  preview_bitstream : bytes;
  metadata : bytes
}.

Inductive JxlBitDepth : Type :=
| BitDepthDefault                 (* left as constructed *)
| JXL_BIT_DEPTH_FROM_CODESTREAM
| JXL_BIT_DEPTH_CUSTOM (bits_per_sample : Z).

(** The fields of [JXLDecompressParams] that the source sets. *)
Record JXLDecompressParams : Type := {
  max_downsampling : Z;
  accepted_formats : list JxlPixelFormat;
  dp_display_nits : Q;
  dp_color_space : string;
  dp_render_spotcolors : bool;
  dp_coalescing : bool;
  allow_partial_input : bool;
  color_space_for_cmyk : option string;   (* None: left as constructed *)
  output_bitdepth : JxlBitDepth
}.

(** The array [float background[3]] handed to [AlphaBlend]: filled by a
    successful parse, and otherwise still holding whatever the stack held. *)
Inductive BackgroundArg : Type :=
| Filled (background : Background)
| Uninitialized.

Record Encoder : Type := {
  AcceptedFormats : list JxlPixelFormat;
  AcceptsCmyk : bool;
  (** [Encode] under the options set so far; [None] is a failed encode. *)
  Encode : list (string * string) -> PackedPixelFile -> option EncodedImage
}.

(** The functions of the repository that [main] calls and that are not in
    this file.  The two decode calls take the number of the iteration that
    makes the call, so that a collaborator may answer differently from one
    call to the next. *)
Record Collaborators : Type := {
  (** [CodecFromPath(path, nullptr, &extension)]: the codec and the
      extension it leaves in [extension]. *)
  CodecFromPath : string -> string -> Codec * string;
  (** [DecodeImageJXL] with a [jpeg_bytes] buffer: success, the buffer
      after the call, and the image size of [ppf.info]. *)
  DecodeImageJXL_jpeg :
    nat -> bool -> bytes -> bytes -> bool * bytes * (Z * Z);
  (** [DecodeImageJXL] to pixels: success, [ppf] and [decoded_bytes] after
      the call. *)
  DecodeImageJXL :
    nat -> JXLDecompressParams -> bytes -> PackedPixelFile -> Z ->
    bool * PackedPixelFile * Z;
  Encoder_FromExtension : string -> option Encoder;
  AlphaBlend : PackedPixelFile -> BackgroundArg -> bool * PackedPixelFile;
  WriteFile : string -> bytes -> bool
}.

(** The fields of [DecompressArgs] that [main] reads after parsing. *)
Record DecompressArgs : Type := {
  file_out : option string;        (* nullptr is None *)
  output_format : string;
  num_reps : nat;
  disable_output : bool;
  bits_per_sample : Z;
  display_nits : Q;
  color_space : string;
  downsampling : Z;
  allow_partial_files : bool;
  pixels_to_jpeg : bool;
  jpeg_quality : Z;
  use_sjpeg : bool;
  render_spotcolors : bool;
  coalescing : bool;
  output_extra_channels : bool;
  output_frames : bool;
  preview_out : string;
  icc_out : string;
  orig_icc_out : string;
  metadata_out : string;
  background_spec : string;
  alpha_blend : bool;
  print_read_bytes : bool;
  quiet : bool;
  opt_jpeg_quality_id : Z
}.

(** The parsed command line: [GetOption(id)->matched()]. *)
Record CommandLineParser : Type := {
  option_matched : Z -> bool
}.

(** ** Traces and outcomes *)

Inductive Path : Type :=
| ReconstructPath      (* the block of lines 510-534 *)
| PixelPath.           (* the block of lines 535-635 *)

Inductive Message : Type :=
| MsgNoOutputFile
| MsgResultDiscarded
| MsgColorspaceIgnored
| MsgRetryWithPixels
| MsgReconstructed
| MsgNoOutputFormat
| MsgCannotDecodeTo (extension : string)
| MsgDecodeFailed
| MsgDecodedToPixels
| MsgDecodedBytes (n : Z)
| MsgInvalidBackground (spec : string)
| MsgAlphaBlendFailed
| MsgEncoding
| MsgEncodeFailed
| MsgWroteOutput (fn : string).

(** The three places that call [WriteFile]. *)
Inductive WriteSite : Type :=
| ReconstructedJpeg    (* line 530 *)
| MainOutput           (* line 620 *)
| OptionalOutput.      (* line 283 *)

Inductive Event : Type :=
| Enter (p : Path)                          (* control enters a block *)
| Stderr (m : Message)
| VerbosePrintf (level : Z) (m : Message)
| CallReconstruct (i : nat) (jpeg_bytes : bytes)
| CallDecode (i : nat) (dparams : JXLDecompressParams)
| StatsNotifyElapsed
| StatsSetImageSize (xsize ysize : Z)
| StatsSetFileSize (size : Z)
| CallFromExtension (extension : string)
| CallAlphaBlend (background : BackgroundArg)
| CallSetOption (key value : string)
| CallEncode (ppf : PackedPixelFile)
| CallWriteFile (site : WriteSite) (fn : string) (contents : bytes)
| StatsPrint.

Inductive Outcome : Type :=
| EXIT_SUCCESS
| EXIT_FAILURE
| UncaughtException       (* std::terminate *)
| UndefinedBehaviour.     (* a vector read out of range *)

(** A computation emits events and then either goes on with a value or
    leaves [main] with an outcome. *)
Definition M (A : Type) : Type := (list Event * (A + Outcome))%type.

Definition ret {A : Type} (a : A) : M A := ([], inl a).

Definition bind {A B : Type} (m : M A) (k : A -> M B) : M B :=
  match m with
  | (t, inl a) => let '(t', r) := k a in ((t ++ t')%list, r)
  | (t, inr o) => (t, inr o)
  end.

Definition emit (e : Event) : M unit := ([e], inl tt).

Definition leave {A : Type} (o : Outcome) : M A := ([], inr o).

Definition when (b : bool) (m : M unit) : M unit :=
  if b then m else ret tt.

Declare Scope djxl_scope.
Delimit Scope djxl_scope with djxl.
Notation "x <- m ;; k" := (bind m (fun x => k))
  (at level 61, m at next level, right associativity) : djxl_scope.
Notation "' p <- m ;; k" := (bind m (fun x => match x with p => k end))
  (at level 61, p pattern, m at next level, right associativity) : djxl_scope.
Notation "m ;; k" := (bind m (fun _ => k))
  (at level 61, right associativity) : djxl_scope.
Local Open Scope djxl_scope.

Definition string_empty (s : string) : bool :=
  match s with EmptyString => true | _ => false end.

Definition bytes_empty (b : bytes) : bool :=
  match b with [] => true | _ => false end.

(** Conversion of a [size_t] to [int]. *)
Definition to_int (z : Z) : Z := (z + 2 ^ 31) mod 2 ^ 32 - 2 ^ 31.

Definition size_of {A : Type} (l : list A) : Z := Z.of_nat (List.length l).

(** ** The two decode calls (djxl_main.cc, lines 353-411) *)

(** [DecompressJxlReconstructJPEG], called by iteration [i] with the buffer
    [jpeg_bytes]: the flag it returns and the buffer after the call. *)
Definition DecompressJxlReconstructJPEG (env : Collaborators)
    (args : DecompressArgs) (compressed : bytes) (i : nat)
    (jpeg_bytes : bytes) : M (bool * bytes) :=
  emit (CallReconstruct i jpeg_bytes) ;;
  let '(ok, jpeg_bytes', (xsize, ysize)) :=
    DecodeImageJXL_jpeg env i (allow_partial_files args) compressed
                        jpeg_bytes in
  if negb ok then ret (false, jpeg_bytes')
  else
    emit StatsNotifyElapsed ;;
    emit (StatsSetImageSize xsize ysize) ;;
    emit (StatsSetFileSize (size_of jpeg_bytes')) ;;
    ret (true, jpeg_bytes').

Definition pixel_dparams (args : DecompressArgs) (color_space' : string)
    (bits_per_sample' : Z) (formats : list JxlPixelFormat)
    (accepts_cmyk : bool) : JXLDecompressParams :=
  {| max_downsampling := downsampling args;
     accepted_formats := formats;
     dp_display_nits := display_nits args;
     dp_color_space := color_space';
     dp_render_spotcolors := render_spotcolors args;
     dp_coalescing := coalescing args;
     allow_partial_input := allow_partial_files args;
     color_space_for_cmyk := if accepts_cmyk then None else Some "sRGB";
     output_bitdepth :=
       if bits_per_sample' =? 0 then JXL_BIT_DEPTH_FROM_CODESTREAM
       else if 0 <? bits_per_sample' then JXL_BIT_DEPTH_CUSTOM bits_per_sample'
       else BitDepthDefault |}.

(** [DecompressJxlToPackedPixelFile], called by iteration [i]. *)
Definition DecompressJxlToPackedPixelFile (env : Collaborators)
    (args : DecompressArgs) (color_space' : string) (bits_per_sample' : Z)
    (compressed : bytes) (formats : list JxlPixelFormat) (accepts_cmyk : bool)
    (i : nat) (ppf : PackedPixelFile) (decoded_bytes : Z)
  : M (bool * PackedPixelFile * Z) :=
  let dparams :=
    pixel_dparams args color_space' bits_per_sample' formats accepts_cmyk in
  emit (CallDecode i dparams) ;;
  let '(ok, ppf', decoded_bytes') :=
    DecodeImageJXL env i dparams compressed ppf decoded_bytes in
  if negb ok then ret (false, ppf', decoded_bytes')
  else
    emit StatsNotifyElapsed ;;
    emit (StatsSetImageSize (info_xsize ppf') (info_ysize ppf')) ;;
    ret (true, ppf', decoded_bytes').

(** ** main (djxl_main.cc, lines 458-640) *)

(** [--jpeg_quality] was registered and given on the command line. *)
Definition jpeg_quality_matched (args : DecompressArgs)
    (cmdline : CommandLineParser) : bool :=
  (0 <=? opt_jpeg_quality_id args)
  && option_matched cmdline (opt_jpeg_quality_id args).

(** Lines 469-477: the output file name, the extension and the codec. *)
Definition initial_extension (args : DecompressArgs) : string :=
  if string_empty (output_format args) then ""
  else "." ++ output_format args.

Definition output_target (env : Collaborators) (args : DecompressArgs)
  : string * string * Codec :=
  let extension := initial_extension args in
  match file_out args with
  | Some path =>
      if negb (disable_output args) then
        let '(codec, extension') := CodecFromPath env path extension in
        (path, extension', codec)
      else ("", extension, kUnknown)
  | None => ("", extension, kUnknown)
  end.

Definition force_colorspace : string := "RGB_D65_SRG_Rel_Lin".

(** Lines 502-507. *)
Definition initial_decode_to_pixels (args : DecompressArgs)
    (cmdline : CommandLineParser) (codec : Codec) : bool :=
  let decode_to_pixels := negb (codec_eqb codec kJPG) in
  if (0 <=? opt_jpeg_quality_id args)
     && (pixels_to_jpeg args
         || option_matched cmdline (opt_jpeg_quality_id args))
  then true else decode_to_pixels.

(** The loop of lines 512-526 with [n] iterations left, at iteration [i]:
    it yields [decode_to_pixels] and the buffer [bytes]. *)
Fixpoint reconstruct_loop (env : Collaborators) (args : DecompressArgs)
    (compressed : bytes) (n i : nat) (jpeg_bytes : bytes)
  : M (bool * bytes) :=
  match n with
  | O => ret (false, jpeg_bytes)
  | S n' =>
      '(ok, jpeg_bytes') <-
        DecompressJxlReconstructJPEG env args compressed i jpeg_bytes ;;
      if negb ok then
        if bytes_empty jpeg_bytes' then
          when (negb (quiet args)) (emit (Stderr MsgRetryWithPixels)) ;;
          ret (true, jpeg_bytes')
        else leave EXIT_FAILURE
      else reconstruct_loop env args compressed n' (S i) jpeg_bytes'
  end.

(** Lines 510-534: yields [decode_to_pixels]. *)
Definition reconstruct_block (env : Collaborators) (args : DecompressArgs)
    (compressed : bytes) (filename_out : string) : M bool :=
  emit (Enter ReconstructPath) ;;
  '(decode_to_pixels, jpeg_bytes) <-
    reconstruct_loop env args compressed (num_reps args) 0%nat [] ;;
  (if negb (bytes_empty jpeg_bytes) then
     when (negb (quiet args)) (emit (VerbosePrintf 0 MsgReconstructed)) ;;
     if negb (string_empty filename_out) then
       emit (CallWriteFile ReconstructedJpeg filename_out jpeg_bytes) ;;
       if negb (WriteFile env filename_out jpeg_bytes) then leave EXIT_FAILURE
       else ret tt
     else ret tt
   else ret tt) ;;
  ret decode_to_pixels.

(** Lines 560-565. *)
Definition float_formats : list JxlPixelFormat :=
  flat_map
    (fun channels =>
       map (fun e => mkFormat channels JXL_TYPE_FLOAT e 0)
           [JXL_BIG_ENDIAN; JXL_LITTLE_ENDIAN])
    [1; 2; 3; 4].

(** Lines 536-566: the formats offered to the decoder, the encoder if any,
    and whether it accepts CMYK. *)
Definition negotiate_formats (env : Collaborators) (args : DecompressArgs)
    (filename_out extension : string)
  : M (list JxlPixelFormat * option Encoder * bool) :=
  '(formats, encoder, accepts_cmyk) <-
    (if negb (string_empty filename_out) then
       emit (CallFromExtension extension) ;;
       match Encoder_FromExtension env extension with
       | None =>
           emit (Stderr (if string_empty extension then MsgNoOutputFormat
                         else MsgCannotDecodeTo extension)) ;;
           leave EXIT_FAILURE
       | Some encoder =>
           let formats := AcceptedFormats encoder in
           let formats :=
             if alpha_blend args then AddFormatsWithAlphaChannel formats
             else formats in
           ret (formats, Some encoder, AcceptsCmyk encoder)
       end
     else ret ([], None, false)) ;;
  let formats :=
    if string_empty filename_out then (formats ++ float_formats)%list
    else formats in
  ret (formats, encoder, accepts_cmyk).

(** The loop of lines 569-576. *)
Fixpoint pixel_loop (env : Collaborators) (args : DecompressArgs)
    (color_space' : string) (bits_per_sample' : Z) (compressed : bytes)
    (formats : list JxlPixelFormat) (accepts_cmyk : bool)
    (n i : nat) (ppf : PackedPixelFile) (decoded_bytes : Z)
  : M (PackedPixelFile * Z) :=
  match n with
  | O => ret (ppf, decoded_bytes)
  | S n' =>
      '(ok, ppf', decoded_bytes') <-
        DecompressJxlToPackedPixelFile env args color_space' bits_per_sample'
          compressed formats accepts_cmyk i ppf decoded_bytes ;;
      if negb ok then emit (Stderr MsgDecodeFailed) ;; leave EXIT_FAILURE
      else pixel_loop env args color_space' bits_per_sample' compressed
             formats accepts_cmyk n' (S i) ppf' decoded_bytes'
  end.

(** Lines 584-594. *)
Definition blend_stage (env : Collaborators) (args : DecompressArgs)
    (ppf : PackedPixelFile) : M PackedPixelFile :=
  if alpha_blend args then
    background <-
      match ParseBackgroundColor (background_spec args) with
      | ParseTrue background => ret (Filled background)
      | ParseFalse =>
          emit (Stderr (MsgInvalidBackground (background_spec args))) ;;
          ret Uninitialized
      | ParseThrows => leave UncaughtException
      end ;;
    emit (CallAlphaBlend background) ;;
    let '(ok, ppf') := AlphaBlend env ppf background in
    if negb ok then emit (Stderr MsgAlphaBlendFailed) ;; leave EXIT_FAILURE
    else ret ppf'
  else ret ppf.

(** Lines 615-617: the bitstream of layer [i] and frame [j]; [None] is a
    read past the end of a vector. *)
Definition select_bitstream (encoded_image : EncodedImage) (i j : nat)
  : option bytes :=
  match i with
  | O => nth_error (bitstreams encoded_image) j
  | S i' =>
      match nth_error (extra_channel_bitstreams encoded_image) i' with
      | Some channel => nth_error channel j
      | None => None
      end
  end.

(** The inner loop of lines 614-625, for layer [i]. *)
Fixpoint frames_loop (env : Collaborators) (args : DecompressArgs)
    (filename_out extension : string) (encoded_image : EncodedImage)
    (nlayers nframes : Z) (i : nat) (n j : nat) : M unit :=
  match n with
  | O => ret tt
  | S n' =>
      match select_bitstream encoded_image i j with
      | None => leave UndefinedBehaviour
      | Some bitstream =>
          let fn := Filename filename_out extension
                      (to_int (Z.of_nat i)) (to_int (Z.of_nat j))
                      (to_int nlayers) (to_int nframes) in
          emit (CallWriteFile MainOutput fn bitstream) ;;
          if negb (WriteFile env fn bitstream) then leave EXIT_FAILURE
          else
            when (negb (quiet args))
                 (emit (VerbosePrintf 1 (MsgWroteOutput fn))) ;;
            frames_loop env args filename_out extension encoded_image
                        nlayers nframes i n' (S j)
      end
  end.

(** The outer loop of lines 613-626. *)
Fixpoint layers_loop (env : Collaborators) (args : DecompressArgs)
    (filename_out extension : string) (encoded_image : EncodedImage)
    (nlayers nframes : Z) (n i : nat) : M unit :=
  match n with
  | O => ret tt
  | S n' =>
      frames_loop env args filename_out extension encoded_image
                  nlayers nframes i (Z.to_nat nframes) 0%nat ;;
      layers_loop env args filename_out extension encoded_image
                  nlayers nframes n' (S i)
  end.

(** Lines 278-284. *)
Definition WriteOptionalOutput (env : Collaborators) (filename : string)
    (contents : bytes) : M bool :=
  if string_empty filename || bytes_empty contents then ret true
  else
    emit (CallWriteFile OptionalOutput filename contents) ;;
    ret (WriteFile env filename contents).

(** Lines 627-633: the four optional outputs, stopping at the first that
    fails. *)
Fixpoint write_optional_outputs (env : Collaborators)
    (outputs : list (string * bytes)) : M unit :=
  match outputs with
  | [] => ret tt
  | (filename, contents) :: rest =>
      ok <- WriteOptionalOutput env filename contents ;;
      if negb ok then leave EXIT_FAILURE
      else write_optional_outputs env rest
  end.

(** Lines 595-600: the options set on the encoder. *)
Definition encode_options (args : DecompressArgs) : list (string * string) :=
  (("q", CStd.decimal (jpeg_quality args))
   :: (if use_sjpeg args then [("jpeg_encoder", "sjpeg")] else []))%list.

(** Lines 595-633. *)
Definition encode_stage (env : Collaborators) (args : DecompressArgs)
    (filename_out extension : string) (encoder : Encoder)
    (ppf : PackedPixelFile) : M unit :=
  let quality := CStd.decimal (jpeg_quality args) in
  emit (CallSetOption "q" quality) ;;
  when (use_sjpeg args) (emit (CallSetOption "jpeg_encoder" "sjpeg")) ;;
  let options := encode_options args in
  when (negb (quiet args)) (emit (VerbosePrintf 2 MsgEncoding)) ;;
  emit (CallEncode ppf) ;;
  match Encode encoder options ppf with
  | None => emit (Stderr MsgEncodeFailed) ;; leave EXIT_FAILURE
  | Some encoded_image =>
      let nlayers :=
        if output_extra_channels args
        then 1 + size_of (extra_channel_bitstreams encoded_image) else 1 in
      let nframes :=
        if output_frames args || negb (coalescing args)
        then size_of (bitstreams encoded_image) else 1 in
      layers_loop env args filename_out extension encoded_image
                  nlayers nframes (Z.to_nat nlayers) 0%nat ;;
      write_optional_outputs env
        [(preview_out args, preview_bitstream encoded_image);
         (icc_out args, icc ppf);
         (orig_icc_out args, orig_icc ppf);
         (metadata_out args, metadata encoded_image)]
  end.

(** Lines 577-634: what follows the decode loop. *)
Definition finish_pixels (env : Collaborators) (args : DecompressArgs)
    (filename_out extension : string) (encoder : option Encoder)
    (ppf : PackedPixelFile) (decoded_bytes : Z) : M unit :=
  when (negb (quiet args)) (emit (VerbosePrintf 0 MsgDecodedToPixels)) ;;
  when (print_read_bytes args) (emit (Stderr (MsgDecodedBytes decoded_bytes))) ;;
  match encoder with
  | Some encoder =>
      ppf' <- blend_stage env args ppf ;;
      encode_stage env args filename_out extension encoder ppf'
  | None => ret tt
  end.

(** Lines 535-635. *)
Definition pixel_block (env : Collaborators) (args : DecompressArgs)
    (color_space' : string) (bits_per_sample' : Z) (compressed : bytes)
    (filename_out extension : string) : M unit :=
  emit (Enter PixelPath) ;;
  '(formats, encoder, accepts_cmyk) <-
    negotiate_formats env args filename_out extension ;;
  '(ppf, decoded_bytes) <-
    pixel_loop env args color_space' bits_per_sample' compressed formats
               accepts_cmyk (num_reps args) 0%nat empty_ppf 0 ;;
  finish_pixels env args filename_out extension encoder ppf decoded_bytes.

(** Lines 478-484: the colour space asked of the decoder. *)
Definition effective_color_space (args : DecompressArgs) (codec : Codec)
  : string :=
  if codec_eqb codec kEXR then force_colorspace else color_space args.

(** Lines 485-489: the bit depth asked of the decoder. *)
Definition effective_bits_per_sample (args : DecompressArgs)
    (cmdline : CommandLineParser) (codec : Codec) (extension : string) : Z :=
  if codec_eqb codec kPNM && negb (extension =? ".pfm")%string
     && ((opt_jpeg_quality_id args <? 0)
         || negb (option_matched cmdline (opt_jpeg_quality_id args)))
  then 0 else bits_per_sample args.

(** Lines 464-484: the two messages that precede decoding. *)
Definition preamble (env : Collaborators) (args : DecompressArgs) : M unit :=
  when (match file_out args with Some _ => true | None => false end
        && disable_output args && negb (quiet args))
       (emit (Stderr MsgResultDiscarded)) ;;
  let '(_, _, codec) := output_target env args in
  when (codec_eqb codec kEXR
        && negb (string_empty (color_space args))
        && negb (color_space args =? force_colorspace)%string)
       (emit (Stderr MsgColorspaceIgnored)).

(** Lines 502-635: the choice of the path and the one or two blocks. *)
Definition decode_paths (env : Collaborators) (args : DecompressArgs)
    (cmdline : CommandLineParser) (compressed : bytes) : M unit :=
  let '(filename_out, extension, codec) := output_target env args in
  let decode_to_pixels := initial_decode_to_pixels args cmdline codec in
  decode_to_pixels <-
    (if negb decode_to_pixels
     then reconstruct_block env args compressed filename_out
     else ret decode_to_pixels) ;;
  if decode_to_pixels
  then pixel_block env args (effective_color_space args codec)
         (effective_bits_per_sample args cmdline codec extension)
         compressed filename_out extension
  else ret tt.

(** The pixel block as [decode_paths] runs it. *)
Definition main_pixel_block (env : Collaborators) (args : DecompressArgs)
    (cmdline : CommandLineParser) (compressed : bytes) : M unit :=
  let '(filename_out, extension, codec) := output_target env args in
  pixel_block env args (effective_color_space args codec)
    (effective_bits_per_sample args cmdline codec extension)
    compressed filename_out extension.

(** [main] once the command line is parsed and validated and the input is
    read; the thread pool handed to the decoder is not modelled. *)
Definition main_body (env : Collaborators) (args : DecompressArgs)
    (cmdline : CommandLineParser) (compressed : bytes) : M Outcome :=
  (if match file_out args with None => true | Some _ => false end
      && negb (disable_output args)
   then emit (Stderr MsgNoOutputFile) ;; leave EXIT_FAILURE
   else ret tt) ;;
  preamble env args ;;
  decode_paths env args cmdline compressed ;;
  when (negb (quiet args)) (emit StatsPrint) ;;
  ret EXIT_SUCCESS.

Definition main (env : Collaborators) (args : DecompressArgs)
    (cmdline : CommandLineParser) (compressed : bytes)
  : list Event * Outcome :=
  match main_body env args cmdline compressed with
  | (t, inl o) => (t, o)
  | (t, inr o) => (t, o)
  end.

(** ** Reading traces *)

Definition count (p : Event -> bool) (t : list Event) : nat :=
  List.length (filter p t).

(** The blocks entered, in order. *)
Fixpoint entered (t : list Event) : list Path :=
  match t with
  | [] => []
  | Enter p :: t' => p :: entered t'
  | _ :: t' => entered t'
  end.

Definition is_enter (e : Event) : bool :=
  match e with Enter _ => true | _ => false end.

Definition is_reconstruct_call (e : Event) : bool :=
  match e with CallReconstruct _ _ => true | _ => false end.

Definition is_decode_call (e : Event) : bool :=
  match e with CallDecode _ _ => true | _ => false end.

Definition is_elapsed_sample (e : Event) : bool :=
  match e with StatsNotifyElapsed => true | _ => false end.

Definition is_encode_call (e : Event) : bool :=
  match e with CallEncode _ => true | _ => false end.

Definition is_blend_call (e : Event) : bool :=
  match e with CallAlphaBlend _ => true | _ => false end.

Definition is_main_write (e : Event) : bool :=
  match e with CallWriteFile MainOutput _ _ => true | _ => false end.

Definition is_retry_warning (e : Event) : bool :=
  match e with Stderr MsgRetryWithPixels => true | _ => false end.

Definition is_background_warning (e : Event) : bool :=
  match e with Stderr (MsgInvalidBackground _) => true | _ => false end.

(** The events of the decode loop of lines 569-576. *)
Definition decode_loop_event (e : Event) : bool :=
  match e with
  | CallDecode _ _ | StatsNotifyElapsed | StatsSetImageSize _ _
  | Stderr MsgDecodeFailed => true
  | _ => false
  end.

(** The events of the optional outputs of lines 627-633. *)
Definition optional_output_event (e : Event) : bool :=
  match e with
  | CallWriteFile OptionalOutput _ _ => true
  | _ => false
  end.

(** The events the reconstruct block can emit after it is entered. *)
Definition reconstruct_event (e : Event) : bool :=
  match e with
  | CallReconstruct _ _ | StatsNotifyElapsed | StatsSetImageSize _ _
  | StatsSetFileSize _ | Stderr MsgRetryWithPixels
  | VerbosePrintf _ MsgReconstructed
  | CallWriteFile ReconstructedJpeg _ _ => true
  | _ => false
  end.

(** The events the pixel block can emit after it is entered. *)
Definition pixel_event (e : Event) : bool :=
  match e with
  | Enter _ | CallReconstruct _ _ | StatsSetFileSize _ | StatsPrint
  | Stderr MsgRetryWithPixels | Stderr MsgNoOutputFile
  | Stderr MsgResultDiscarded | Stderr MsgColorspaceIgnored
  | VerbosePrintf _ MsgReconstructed
  | CallWriteFile ReconstructedJpeg _ _ => false
  | _ => true
  end.

(** The events of the blend stage of lines 584-594. *)
Definition blend_event (e : Event) : bool :=
  match e with
  | Stderr (MsgInvalidBackground _) | Stderr MsgAlphaBlendFailed
  | CallAlphaBlend _ => true
  | _ => false
  end.

(** The events that follow the call of [Encode]. *)
Definition output_event (e : Event) : bool :=
  match e with
  | Stderr MsgEncodeFailed | VerbosePrintf _ (MsgWroteOutput _)
  | CallWriteFile MainOutput _ _ | CallWriteFile OptionalOutput _ _ => true
  | _ => false
  end.

(** The decode call offers exactly [formats] to the decoder. *)
Definition offers (formats : list JxlPixelFormat) (e : Event) : Prop :=
  match e with
  | CallDecode _ dparams => accepted_formats dparams = formats
  | _ => True
  end.

(** The eight formats of a decode without an output file. *)
Definition pixel_only_formats : list JxlPixelFormat :=
  [mkFormat 1 JXL_TYPE_FLOAT JXL_BIG_ENDIAN 0;
   mkFormat 1 JXL_TYPE_FLOAT JXL_LITTLE_ENDIAN 0;
   mkFormat 2 JXL_TYPE_FLOAT JXL_BIG_ENDIAN 0;
   mkFormat 2 JXL_TYPE_FLOAT JXL_LITTLE_ENDIAN 0;
   mkFormat 3 JXL_TYPE_FLOAT JXL_BIG_ENDIAN 0;
   mkFormat 3 JXL_TYPE_FLOAT JXL_LITTLE_ENDIAN 0;
   mkFormat 4 JXL_TYPE_FLOAT JXL_BIG_ENDIAN 0;
   mkFormat 4 JXL_TYPE_FLOAT JXL_LITTLE_ENDIAN 0].

(** The two messages of lines 577-580. *)
Definition decoded_messages (args : DecompressArgs) (decoded_bytes : Z)
  : list Event :=
  ((if quiet args then [] else [VerbosePrintf 0 MsgDecodedToPixels])
   ++ (if print_read_bytes args then [Stderr (MsgDecodedBytes decoded_bytes)]
       else []))%list.

(** The events of [main] outside the two blocks. *)
Definition bookkeeping_event (e : Event) : bool :=
  match e with
  | Stderr MsgResultDiscarded | Stderr MsgColorspaceIgnored
  | StatsPrint => true
  | _ => false
  end.

(** ** The reconstruct calls of a run *)

(** The buffer [bytes] when iteration [i] of the reconstruct loop starts,
    every earlier iteration having succeeded. *)
Fixpoint jpeg_bytes_before (env : Collaborators) (args : DecompressArgs)
    (compressed : bytes) (i : nat) : bytes :=
  match i with
  | O => []
  | S i' =>
      snd (fst (DecodeImageJXL_jpeg env i' (allow_partial_files args)
                  compressed (jpeg_bytes_before env args compressed i')))
  end.

(** Whether the reconstruct call of iteration [i] succeeds. *)
Definition reconstruct_succeeds (env : Collaborators) (args : DecompressArgs)
    (compressed : bytes) (i : nat) : bool :=
  fst (fst (DecodeImageJXL_jpeg env i (allow_partial_files args) compressed
              (jpeg_bytes_before env args compressed i))).

(** What [main] does once the reconstruct block has handed over: the pixel
    block, the statistics and the exit status. *)
Definition outcome_of {A : Type} (r : A + Outcome) : Outcome :=
  match r with
  | inl _ => EXIT_SUCCESS
  | inr o => o
  end.

(** ** Sample collaborators and command lines *)

Definition sample_image : EncodedImage :=
  {| bitstreams := [[Byte.x89; Byte.x50]];
     extra_channel_bitstreams := [];
     preview_bitstream := [];
     metadata := [] |}.

Definition sample_encoder : Encoder :=
  {| AcceptedFormats := [mkFormat 3 JXL_TYPE_UINT8 JXL_BIG_ENDIAN 0];
     AcceptsCmyk := false;
     Encode := fun _ _ => Some sample_image |}.

(** Collaborators that detect [codec] and [extension], decode to pixels
    and encode without fail, answer the reconstruct calls with
    [reconstruct], and blend with the result [blend_ok]. *)
Definition sample_env (codec : Codec) (extension : string)
    (reconstruct : nat -> bytes -> bool * bytes) (blend_ok : bool)
  : Collaborators :=
  {| CodecFromPath := fun _ _ => (codec, extension);
     DecodeImageJXL_jpeg :=
       fun i _ _ jpeg_bytes =>
         let '(ok, jpeg_bytes') := reconstruct i jpeg_bytes in
         (ok, jpeg_bytes', (8, 8));
     DecodeImageJXL :=
       fun _ _ _ ppf decoded_bytes => (true, ppf, decoded_bytes + 100);
     Encoder_FromExtension := fun _ => Some sample_encoder;
     AlphaBlend := fun ppf _ => (blend_ok, ppf);
     WriteFile := fun _ _ => true |}.

(** The defaults of [DecompressArgs], but for the given fields. *)
Definition sample_args (out : option string) (reps : nat)
    (no_output silent blend : bool) (background : string) : DecompressArgs :=
  {| file_out := out;
     output_format := "";
     num_reps := reps;
     disable_output := no_output;
     bits_per_sample := -1;
     display_nits := 0%Q;
     color_space := "";
     downsampling := 0;
     allow_partial_files := false;
     pixels_to_jpeg := false;
     jpeg_quality := 95;
     use_sjpeg := false;
     render_spotcolors := true;
     coalescing := true;
     output_extra_channels := false;
     output_frames := false;
     preview_out := "";
     icc_out := "";
     orig_icc_out := "";
     metadata_out := "";
     background_spec := background;
     alpha_blend := blend;
     print_read_bytes := false;
     quiet := silent;
     opt_jpeg_quality_id := 7 |}.

Definition sample_cmdline : CommandLineParser :=
  {| option_matched := fun _ => false |}.

(** A reconstruct call that fails and produces nothing. *)
Definition never_reconstructs (i : nat) (jpeg_bytes : bytes)
  : bool * bytes := (false, jpeg_bytes).

(** A reconstruct call that appends a byte and fails from the second
    iteration on. *)
Definition reconstructs_once (i : nat) (jpeg_bytes : bytes)
  : bool * bytes :=
  ((i =? 0)%nat, (jpeg_bytes ++ [Byte.xff])%list).

(** ** The file name in the words of the specification *)

(** The frame suffix: ['-'] and the frame index zero-padded to as many
    digits as the frame count has. *)
Definition frame_suffix (frame_index num_frames : Z) : string :=
  if 1 <? num_frames
  then "-" ++ CStd.zero_pad (digits num_frames) frame_index
  else "".

(** The extra-channel suffix of a layer other than the first. *)
Definition layer_suffix (layer_index num_layers : Z) : string :=
  if (1 <? num_layers) && (0 <? layer_index)
  then "-ec" ++ CStd.zero_pad (digits num_layers) layer_index
  else "".

(** The extension comes back exactly when a suffix was added, as [.pgm]
    for an extra channel of a [.ppm] output. *)
Definition extension_suffix (extension : string)
    (layer_index num_layers num_frames : Z) : string :=
  if (1 <? num_frames) || ((1 <? num_layers) && (0 <? layer_index)) then
    if (extension =? ".ppm")%string && (0 <? layer_index) then ".pgm"
    else extension
  else "".

Definition Filename_spec (filename extension : string)
    (layer_index frame_index num_layers num_frames : Z) : string :=
  filename ++ frame_suffix frame_index num_frames
           ++ layer_suffix layer_index num_layers
           ++ extension_suffix extension layer_index num_layers num_frames.

(** ** The alpha variants in the words of the specification *)

(** The format with one more channel and the same sample type, endianness
    and alignment. *)
Definition with_alpha (f : JxlPixelFormat) : JxlPixelFormat :=
  mkFormat (num_channels f + 1) (data_type f) (endianness f) (align f).

Definition present (format : JxlPixelFormat) (formats : list JxlPixelFormat)
  : bool :=
  existsb (fun f => same_format f format) formats.

(** Of the formats [candidates], those with one or three channels whose
    alpha variant is not among [formats], each turned into its variant. *)
Definition missing_variants (formats candidates : list JxlPixelFormat)
  : list JxlPixelFormat :=
  map with_alpha
      (filter (fun f => gray_or_rgb f && negb (present (with_alpha f) formats))
              candidates).

Definition alpha_variants (formats : list JxlPixelFormat)
  : list JxlPixelFormat :=
  missing_variants formats formats.

(** ** The hexadecimal background in the words of the specification *)

(** The text begins with [0x] or [0X] and a hexadecimal digit. *)
Definition has_0x_prefix (s : string) : bool :=
  match s with
  | String "0" (String x (String d _)) =>
      ((x =? "x")%char || (x =? "X")%char) && Stoi.is_hex d
  | _ => false
  end.

(** The colour read from the longest hexadecimal prefix of [s]. *)
Definition color_of_hex_prefix (s : string) : Background :=
  color_channels (Stoi.hex_run 0 s).

(** ** What a run can emit *)

(** The events that the source guards with [!args.quiet]. *)
Definition silenced_event (e : Event) : bool :=
  match e with
  | VerbosePrintf _ _ | StatsPrint | Stderr MsgRetryWithPixels
  | Stderr MsgResultDiscarded => true
  | _ => false
  end.

(** The calls that look up or drive the encoder, or write a file. *)
Definition output_call (e : Event) : bool :=
  match e with
  | CallFromExtension _ | CallAlphaBlend _ | CallSetOption _ _
  | CallEncode _ | CallWriteFile _ _ _ => true
  | _ => false
  end.

(** The decode call passes [dparams]. *)
Definition decodes_with (dparams : JXLDecompressParams) (e : Event) : Prop :=
  match e with
  | CallDecode _ dparams' => dparams' = dparams
  | _ => True
  end.

(** The parameters that the pixel block of a run passes to the decoder:
    those of lines 382-398 for the formats and the CMYK flag that the
    negotiation of lines 536-566 yields. *)
Definition run_dparams (env : Collaborators) (args : DecompressArgs)
    (cmdline : CommandLineParser) : JXLDecompressParams :=
  let '(filename_out, extension, codec) := output_target env args in
  let color_space' := effective_color_space args codec in
  let bits_per_sample' :=
    effective_bits_per_sample args cmdline codec extension in
  match snd (negotiate_formats env args filename_out extension) with
  | inl (formats, _, accepts_cmyk) =>
      pixel_dparams args color_space' bits_per_sample' formats accepts_cmyk
  | inr _ => pixel_dparams args color_space' bits_per_sample' [] false
  end.

(** What holds of every event of a run with the output file name
    [filename_out]. *)
Definition run_event (args : DecompressArgs) (filename_out : string)
    (dparams : JXLDecompressParams) (e : Event) : Prop :=
  (silenced_event e = true -> quiet args = false)
  /\ (output_call e = true -> string_empty filename_out = false)
  /\ (is_blend_call e = true \/ is_background_warning e = true ->
      alpha_blend args = true)
  /\ decodes_with dparams e.

(** ** How a run can end *)

(** Lines 607-612: the numbers of layers and of frames written. *)
Definition num_layers (args : DecompressArgs) (encoded_image : EncodedImage)
  : Z :=
  if output_extra_channels args
  then 1 + size_of (extra_channel_bitstreams encoded_image) else 1.

Definition num_frames (args : DecompressArgs) (encoded_image : EncodedImage)
  : Z :=
  if output_frames args || negb (coalescing args)
  then size_of (bitstreams encoded_image) else 1.

(** Some read of lines 615-617 is past the end of a vector. *)
Definition reads_out_of_range (args : DecompressArgs)
    (encoded_image : EncodedImage) : Prop :=
  exists i j : nat,
    Z.of_nat i < num_layers args encoded_image
    /\ Z.of_nat j < num_frames args encoded_image
    /\ select_bitstream encoded_image i j = None.

(** An encoded image with at least one frame and, for every extra channel,
    as many bitstreams as there are frames. *)
Definition rectangular (encoded_image : EncodedImage) : Prop :=
  bitstreams encoded_image <> []
  /\ Forall (fun channel : list bytes =>
               List.length channel
               = List.length (bitstreams encoded_image))
            (extra_channel_bitstreams encoded_image).

(** A computation leaves [main] only with an outcome that satisfies [P]. *)
Definition leaves_only {A : Type} (P : Outcome -> Prop) (m : M A) : Prop :=
  forall o, snd m = inr o -> P o.

(** The ways in which the blocks of [main] leave it: with the failure
    status, with the exception of [std::stoi] when a background is parsed
    for alpha blending, or with a read out of range, under [U]. *)
Definition early_exit (args : DecompressArgs) (U : Prop) (o : Outcome)
  : Prop :=
  o = EXIT_FAILURE
  \/ (o = UncaughtException
      /\ alpha_blend args = true
      /\ ParseBackgroundColor (background_spec args) = ParseThrows)
  \/ (o = UndefinedBehaviour /\ U).

(** An encoder that reports success and returns no bitstream at all. *)
Definition empty_handed_encoder : Encoder :=
  {| AcceptedFormats := [mkFormat 3 JXL_TYPE_UINT8 JXL_BIG_ENDIAN 0];
     AcceptsCmyk := false;
     Encode := fun _ _ =>
       Some {| bitstreams := []; extra_channel_bitstreams := [];
               preview_bitstream := []; metadata := [] |} |}.

Definition sample_env_with (encoder : Encoder) (write_ok : string -> bool)
  : Collaborators :=
  {| CodecFromPath := fun _ _ => (kPNG, ".png");
     DecodeImageJXL_jpeg := fun _ _ _ jpeg_bytes => (false, jpeg_bytes, (0, 0));
     DecodeImageJXL :=
       fun _ _ _ ppf decoded_bytes => (true, ppf, decoded_bytes + 100);
     Encoder_FromExtension := fun _ => Some encoder;
     AlphaBlend := fun ppf _ => (true, ppf);
     WriteFile := fun fn _ => write_ok fn |}.

(** ** Failed writes *)

(** A call of [WriteFile] that returns false. *)
Definition failed_write (env : Collaborators) (e : Event) : bool :=
  match e with
  | CallWriteFile _ fn contents => negb (WriteFile env fn contents)
  | _ => false
  end.

Definition no_failed_write (env : Collaborators) (t : list Event) : bool :=
  forallb (fun e => negb (failed_write env e)) t.

(** Either no write of the computation fails, or its last event is the one
    failed write and it leaves [main] with the failure status. *)
Definition stops_at_failed_write (env : Collaborators) {A : Type} (m : M A)
  : Prop :=
  no_failed_write env (fst m) = true
  \/ exists t e,
       fst m = (t ++ [e])%list
       /\ no_failed_write env t = true
       /\ failed_write env e = true
       /\ snd m = inr EXIT_FAILURE.

(** ** The calls of a run, by kind *)

Definition is_write (e : Event) : bool :=
  match e with CallWriteFile _ _ _ => true | _ => false end.

Definition is_decode_failure (e : Event) : bool :=
  match e with Stderr MsgDecodeFailed => true | _ => false end.

(** The image and the byte count when iteration [i] of the decode loop of
    lines 569-576 starts, every earlier iteration having succeeded. *)
Fixpoint decode_state_before (env : Collaborators)
    (dparams : JXLDecompressParams) (compressed : bytes) (i : nat)
  : PackedPixelFile * Z :=
  match i with
  | O => (empty_ppf, 0)
  | S i' =>
      let '(ppf, decoded_bytes) :=
        decode_state_before env dparams compressed i' in
      let '(_, ppf', decoded_bytes') :=
        DecodeImageJXL env i' dparams compressed ppf decoded_bytes in
      (ppf', decoded_bytes')
  end.

(** Whether the decode call of iteration [i] succeeds. *)
Definition decode_succeeds (env : Collaborators)
    (dparams : JXLDecompressParams) (compressed : bytes) (i : nat) : bool :=
  let '(ppf, decoded_bytes) := decode_state_before env dparams compressed i in
  fst (fst (DecodeImageJXL env i dparams compressed ppf decoded_bytes)).

(** A reconstruct call that appends a byte and succeeds. *)
Definition always_reconstructs (i : nat) (jpeg_bytes : bytes)
  : bool * bytes :=
  (true, (jpeg_bytes ++ [Byte.xff])%list).

(** Collaborators whose decode to pixels fails at iteration [k]. *)
Definition sample_env_failing_at (k : nat) : Collaborators :=
  {| CodecFromPath := fun _ _ => (kPNG, ".png");
     DecodeImageJXL_jpeg := fun _ _ _ jpeg_bytes => (false, jpeg_bytes, (0, 0));
     DecodeImageJXL :=
       fun i _ _ ppf decoded_bytes =>
         (negb (i =? k)%nat, ppf, decoded_bytes + 100);
     Encoder_FromExtension := fun _ => Some sample_encoder;
     AlphaBlend := fun ppf _ => (true, ppf);
     WriteFile := fun _ _ => true |}.

(** ** The files of the main output *)

(** The main output writes of a trace, in order: file name and contents. *)
Fixpoint main_writes (t : list Event) : list (string * bytes) :=
  match t with
  | [] => []
  | CallWriteFile MainOutput fn contents :: t' =>
      (fn, contents) :: main_writes t'
  | _ :: t' => main_writes t'
  end.

(** Lines 615-619: the file of layer [i] and frame [j]. *)
Definition output_file (filename_out extension : string)
    (encoded_image : EncodedImage) (nlayers nframes : Z) (ij : nat * nat)
  : string * bytes :=
  let '(i, j) := ij in
  (Filename filename_out extension (to_int (Z.of_nat i))
     (to_int (Z.of_nat j)) (to_int nlayers) (to_int nframes),
   match select_bitstream encoded_image i j with
   | Some bitstream => bitstream
   | None => []
   end).

(** The files of the loops of lines 613-626, layer by layer and, within a
    layer, frame by frame. *)
Definition output_files (args : DecompressArgs)
    (filename_out extension : string) (encoded_image : EncodedImage)
  : list (string * bytes) :=
  map (output_file filename_out extension encoded_image
         (num_layers args encoded_image) (num_frames args encoded_image))
      (list_prod (seq 0 (Z.to_nat (num_layers args encoded_image)))
                 (seq 0 (Z.to_nat (num_frames args encoded_image)))).

(** An encoder that returns two frames, each with one extra channel. *)
Definition two_frame_encoder : Encoder :=
  {| AcceptedFormats := [mkFormat 3 JXL_TYPE_UINT8 JXL_BIG_ENDIAN 0];
     AcceptsCmyk := false;
     Encode := fun _ _ =>
       Some {| bitstreams := [[Byte.x01]; [Byte.x02]];
               extra_channel_bitstreams := [[[Byte.x03]; [Byte.x04]]];
               preview_bitstream := []; metadata := [] |} |}.

(** Collaborators that know no encoder for the output file. *)
Definition sample_env_without_encoder : Collaborators :=
  {| CodecFromPath := fun _ _ => (kUnknown, ".xyz");
     DecodeImageJXL_jpeg := fun _ _ _ jpeg_bytes => (false, jpeg_bytes, (0, 0));
     DecodeImageJXL :=
       fun _ _ _ ppf decoded_bytes => (true, ppf, decoded_bytes + 100);
     Encoder_FromExtension := fun _ => None;
     AlphaBlend := fun ppf _ => (true, ppf);
     WriteFile := fun _ _ => true |}.

(** ** The optional outputs *)

(** An optional output that [WriteOptionalOutput] writes: it has a file
    name and contents. *)
Definition wanted_output (output : string * bytes) : bool :=
  negb (string_empty (fst output) || bytes_empty (snd output)).

Definition optional_write (output : string * bytes) : Event :=
  CallWriteFile OptionalOutput (fst output) (snd output).

(** ** Writing a colour in hexadecimal *)

(** The hexadecimal digit of value [d], in lower and in upper case. *)
Definition hex_digit (d : Z) : ascii :=
  ascii_of_nat (Z.to_nat (if d <? 10 then 48 + d else 87 + d)).

Definition hex_digit_upper (d : Z) : ascii :=
  ascii_of_nat (Z.to_nat (if d <? 10 then 48 + d else 55 + d)).

(** The two digits of a byte. *)
Definition hex_byte (digit : Z -> ascii) (v : Z) : string :=
  String (digit (v / 16)) (String (digit (v mod 16)) "").

(** The colour [#rrggbb]. *)
Definition hex_color (digit : Z -> ascii) (r g b : Z) : string :=
  "#" ++ hex_byte digit r ++ hex_byte digit g ++ hex_byte digit b.

(** ** The start of main (djxl_main.cc, lines 226-238 and 415-456) *)

(** The command line once [cmdline.Parse] has returned: its result, the
    help flag, and the fields of [DecompressArgs] that only the start of
    [main] reads, beside those of [DecompressArgs] above. *)
Record Invocation : Type := {
  parse_ok : bool;                 (* cmdline.Parse(argc, argv) *)
  help_flag_passed : bool;         (* cmdline.HelpFlagPassed() *)
  file_in : option string;         (* nullptr is None *)
  version : bool;
  num_threads : Z;                 (* int32_t *)
  parsed_args : DecompressArgs;
  parsed_cmdline : CommandLineParser
}.

Inductive StartEvent : Type :=
| StderrUsageHint                  (* "Use '%s -h' for more information" *)
| StdoutVersion                    (* the two lines of --version *)
| StderrBanner                     (* "JPEG XL decoder %s" *)
| PrintHelp
| StderrMissingInput               (* "Missing INPUT filename." *)
| StderrInvalidNumThreads
| CallReadFile (path : string)
| StderrCouldNotLoad (path : string)
| VerboseReadBytes (size : Z)
| Decoding (e : Event).            (* an event of lines 458-640 *)

(** [DecompressArgs::ValidateArgs]: what it prints and what it returns. *)
Definition ValidateArgs (inv : Invocation) : list StartEvent * bool :=
  match file_in inv with
  | None => ([StderrMissingInput], false)
  | Some _ =>
      if num_threads inv <? -1 then ([StderrInvalidNumThreads], false)
      else ([], true)
  end.

(** Lines 491-498: the number of worker threads, from the default of the
    thread runner and [--num_threads]. *)
Definition num_worker_threads (default : Z) (inv : Invocation) : Z :=
  if -1 <? num_threads inv then num_threads inv else default.

(** The whole of [main]: lines 421-456 and then the decoding of lines
    458-640.  [ReadFile] yields the contents of the input file, or [None]
    when it fails. *)
Definition djxl (ReadFile : string -> option bytes) (env : Collaborators)
    (inv : Invocation) : list StartEvent * Outcome :=
  if negb (parse_ok inv) then ([StderrUsageHint], EXIT_FAILURE)
  else if version inv then ([StdoutVersion], EXIT_SUCCESS)
  else
    let banner :=
      if quiet (parsed_args inv) then [] else [StderrBanner] in
    if help_flag_passed inv
       || match file_in inv with None => true | Some _ => false end
    then ((banner ++ [PrintHelp])%list, EXIT_SUCCESS)
    else
      let '(printed, valid) := ValidateArgs inv in
      if negb valid
      then ((banner ++ printed ++ [StderrUsageHint])%list, EXIT_FAILURE)
      else
        match file_in inv with
        | None => (banner, UndefinedBehaviour)   (* ReadFile(nullptr, ...) *)
        | Some path =>
            match ReadFile path with
            | None =>
                ((banner ++ [CallReadFile path; StderrCouldNotLoad path])%list,
                 EXIT_FAILURE)
            | Some compressed =>
                let '(t, o) :=
                  main env (parsed_args inv) (parsed_cmdline inv) compressed in
                ((banner ++ CallReadFile path
                  :: (if quiet (parsed_args inv) then []
                      else [VerboseReadBytes (size_of compressed)])
                  ++ map Decoding t)%list, o)
            end
        end.

Definition sample_invocation (input : option string) (threads : Z)
  : Invocation :=
  {| parse_ok := true; help_flag_passed := false; file_in := input;
     version := false; num_threads := threads;
     parsed_args := sample_args (Some "out.png") 1 false true false "white";
     parsed_cmdline := sample_cmdline |}.

(** The 256 values of a colour byte. *)
Definition byte_values : list Z := map Z.of_nat (seq 0 256).

(** The byte nearest to 255 times a channel value. *)
Definition byte_of_channel (f : spec_float) : Z :=
  Qfloor (Float32.to_Q f * 255 + (1 # 2)).

(** What a stored channel may be for byte [c]: at least [c / 255], and above
    it by at most [2^-23]. *)
Definition near_byte_over_255 (c : Z) (f : spec_float) : bool :=
  Qle_bool (inject_Z c / 255) (Float32.to_Q f)
  && Qle_bool (Float32.to_Q f) (inject_Z c / 255 + (1 # 8388608)).

(** Lines 585-590: the array handed to [AlphaBlend] after the call of
    [ParseBackgroundColor]; there is none when the call throws. *)
Definition blend_background (r : ParseResult) : option BackgroundArg :=
  match r with
  | ParseTrue background => Some (Filled background)
  | ParseFalse => Some Uninitialized
  | ParseThrows => None
  end.

(** An encoder that returns one frame, a preview and metadata. *)
Definition metadata_encoder : Encoder :=
  {| AcceptedFormats := [mkFormat 3 JXL_TYPE_UINT8 JXL_BIG_ENDIAN 0];
     AcceptsCmyk := false;
     Encode := fun _ _ =>
       Some {| bitstreams := [[Byte.x01]];
               extra_channel_bitstreams := [];
               preview_bitstream := [Byte.x05];
               metadata := [Byte.x06] |} |}.

(** * Properties *)

(** ** Strings *)

Section StringFacts.

Lemma str_length_app (a b : string) :
  String.length (a ++ b) = (String.length a + String.length b)%nat.
Proof. induction a as [|c a IH]; simpl; [reflexivity | now rewrite IH]. Qed.

Lemma app_assoc_s (a b c : string) : (a ++ b) ++ c = a ++ (b ++ c).
Proof. induction a as [|x a IH]; simpl; [reflexivity | now rewrite IH]. Qed.

Lemma app_empty_r (a : string) : a ++ "" = a.
Proof. induction a as [|x a IH]; simpl; [reflexivity | now rewrite IH]. Qed.

Lemma app_cancel_l (a b c : string) : a ++ b = a ++ c -> b = c.
Proof.
  induction a as [|x a IH]; simpl; intros H; [assumption|].
  injection H as H. auto.
Qed.

(** Two concatenations with heads of equal length agree part by part. *)
Lemma app_split_eq (a a' b b' : string) :
  String.length a = String.length a' ->
  a ++ b = a' ++ b' -> a = a' /\ b = b'.
Proof.
  revert a'. induction a as [|x a IH]; intros [|x' a'] Hlen H;
    simpl in *; try discriminate.
  - auto.
  - injection H as Hx H. injection Hlen as Hlen.
    destruct (IH _ Hlen H) as [-> ->]. subst. auto.
Qed.

Lemma app_last_inj (a a' : string) (c c' : ascii) :
  a ++ String c "" = a' ++ String c' "" -> a = a' /\ c = c'.
Proof.
  revert a'. induction a as [|x a IH]; intros [|x' a'] H; simpl in *.
  - injection H as ->. auto.
  - injection H as _ H. destruct a'; discriminate.
  - injection H as _ H. destruct a; discriminate.
  - injection H as -> H. destruct (IH _ H) as [-> ->]. auto.
Qed.

Lemma string_take_all (n : nat) (s : string) :
  (String.length s <= n)%nat -> CStd.string_take n s = s.
Proof.
  revert n. induction s as [|c s IH]; intros [|n] H; simpl in *;
    try reflexivity; try lia.
  rewrite IH by lia. reflexivity.
Qed.

Lemma length_neq (a b : string) :
  String.length a <> String.length b -> a <> b.
Proof. intros H ->. now apply H. Qed.

End StringFacts.

(** ** Decimal digits *)

Section Decimal.

Lemma log10_fuel_spec (fuel : nat) :
  forall n, 0 <= n < 2 ^ Z.of_nat fuel ->
  0 <= CStd.log10_fuel fuel n
  /\ n < 10 ^ (CStd.log10_fuel fuel n + 1)
  /\ (1 <= n -> 10 ^ CStd.log10_fuel fuel n <= n).
Proof.
  induction fuel as [|fuel IH]; intros n Hn.
  - simpl in *. repeat split; lia.
  - cbn [CStd.log10_fuel]. destruct (n <? 10) eqn:E.
    + apply Z.ltb_lt in E. repeat split; simpl; lia.
    + apply Z.ltb_ge in E.
      assert (Hdiv : 0 <= n / 10 < 2 ^ Z.of_nat fuel).
      { rewrite Nat2Z.inj_succ, Z.pow_succ_r in Hn by lia.
        split; [apply Z.div_pos; lia|].
        apply Z.div_lt_upper_bound; lia. }
      destruct (IH _ Hdiv) as (H0 & Hup & Hlo).
      assert (1 <= n / 10) by (apply Z.div_le_lower_bound; lia).
      specialize (Hlo ltac:(lia)).
      pose proof (Z.div_mod n 10 ltac:(lia)) as Hdm.
      pose proof (Z.mod_pos_bound n 10 ltac:(lia)) as Hm.
      repeat split; [lia| |].
      * replace (1 + CStd.log10_fuel fuel (n / 10) + 1)
          with (Z.succ (CStd.log10_fuel fuel (n / 10) + 1)) by lia.
        rewrite Z.pow_succ_r by lia. lia.
      * intros _.
        replace (1 + CStd.log10_fuel fuel (n / 10))
          with (Z.succ (CStd.log10_fuel fuel (n / 10))) by lia.
        rewrite Z.pow_succ_r by lia. lia.
Qed.

Lemma log10_floor_spec (n : Z) :
  0 <= n ->
  0 <= CStd.log10_floor n
  /\ n < 10 ^ (CStd.log10_floor n + 1)
  /\ (1 <= n -> 10 ^ CStd.log10_floor n <= n).
Proof.
  intros Hn. unfold CStd.log10_floor. apply log10_fuel_spec.
  split; [assumption|].
  destruct (Z.eq_dec n 0) as [->|Hne]; [simpl; lia|].
  rewrite Nat2Z.inj_succ, Z2Nat.id by apply Z.log2_nonneg.
  apply Z.log2_spec. lia.
Qed.

(** [digits n] is the number of decimal digits of [n]. *)
Lemma digits_spec (n : Z) :
  1 <= n -> 1 <= digits n /\ 10 ^ (digits n - 1) <= n < 10 ^ digits n.
Proof.
  intros Hn. unfold digits.
  destruct (log10_floor_spec n ltac:(lia)) as (H0 & Hup & Hlo).
  replace (1 + CStd.log10_floor n - 1) with (CStd.log10_floor n) by lia.
  replace (1 + CStd.log10_floor n) with (CStd.log10_floor n + 1) by lia.
  repeat split; [lia | auto | auto].
Qed.

Lemma dec_len_bound (v : Z) :
  0 <= v -> 1 <= CStd.dec_len v /\ v < 10 ^ CStd.dec_len v.
Proof.
  intros Hv. unfold CStd.dec_len.
  destruct (log10_floor_spec v Hv) as (H0 & Hup & _).
  replace (1 + CStd.log10_floor v) with (CStd.log10_floor v + 1) by lia.
  split; [lia | assumption].
Qed.

(** An index below a count has no more digits than the count. *)
Lemma dec_len_le_digits (v n : Z) :
  0 <= v < n -> CStd.dec_len v <= digits n.
Proof.
  intros Hv. unfold CStd.dec_len, digits.
  destruct (log10_floor_spec v ltac:(lia)) as (H0 & _ & Hlo).
  destruct (log10_floor_spec n ltac:(lia)) as (H0' & Hup & _).
  destruct (Z.eq_dec v 0) as [->|Hne].
  - change (CStd.log10_floor 0) with 0. lia.
  - specialize (Hlo ltac:(lia)).
    assert (10 ^ CStd.log10_floor v < 10 ^ (CStd.log10_floor n + 1)) as Hp
      by lia.
    apply Z.pow_lt_mono_r_iff in Hp; lia.
Qed.

Lemma length_fixed_digits (w : nat) (v : Z) :
  String.length (CStd.fixed_digits w v) = w.
Proof.
  revert v. induction w as [|w IH]; intros v; simpl; [reflexivity|].
  rewrite str_length_app, IH. simpl. lia.
Qed.

Lemma length_zeros (n : nat) : String.length (CStd.zeros n) = n.
Proof. induction n; simpl; congruence. Qed.

Lemma fixed_digits_lead (k : nat) :
  forall v, 0 <= v < 10 ^ Z.of_nat k ->
  CStd.fixed_digits (S k) v = String "0" (CStd.fixed_digits k v).
Proof.
  induction k as [|k IH]; intros v Hv.
  - assert (v = 0) by (simpl in Hv; lia). subst. reflexivity.
  - change (CStd.fixed_digits (S (S k)) v)
      with (CStd.fixed_digits (S k) (v / 10)
            ++ String (CStd.digit_char (v mod 10)) "").
    rewrite IH.
    + reflexivity.
    + rewrite Nat2Z.inj_succ, Z.pow_succ_r in Hv by lia.
      split; [apply Z.div_pos; lia | apply Z.div_lt_upper_bound; lia].
Qed.

Lemma zeros_fixed_digits (m k : nat) (v : Z) :
  0 <= v < 10 ^ Z.of_nat k ->
  CStd.zeros m ++ CStd.fixed_digits k v = CStd.fixed_digits (m + k) v.
Proof.
  intros Hv. induction m as [|m IH]; [reflexivity|].
  change (CStd.zeros (S m) ++ CStd.fixed_digits k v)
    with (String "0" (CStd.zeros m ++ CStd.fixed_digits k v)).
  rewrite IH. change (S m + k)%nat with (S (m + k)).
  rewrite fixed_digits_lead; [reflexivity|].
  split; [lia|]. destruct Hv as [_ Hv].
  eapply Z.lt_le_trans; [exact Hv|].
  apply Z.pow_le_mono_r; lia.
Qed.

(** Within the width, zero padding gives exactly [w] digits. *)
Lemma zero_pad_fixed (w v : Z) :
  0 <= v -> CStd.dec_len v <= w ->
  CStd.zero_pad w v = CStd.fixed_digits (Z.to_nat w) v.
Proof.
  intros Hv Hw. destruct (dec_len_bound v Hv) as [H1 Hlt].
  unfold CStd.zero_pad, CStd.decimal.
  rewrite zeros_fixed_digits by (rewrite Z2Nat.id by lia; lia).
  f_equal. lia.
Qed.

Lemma digit_char_inj (a b : Z) :
  0 <= a < 10 -> 0 <= b < 10 ->
  CStd.digit_char a = CStd.digit_char b -> a = b.
Proof.
  intros Ha Hb H. unfold CStd.digit_char in H.
  apply (f_equal nat_of_ascii) in H.
  rewrite !nat_ascii_embedding in H by lia. lia.
Qed.

Lemma fixed_digits_inj (w : nat) :
  forall v v', 0 <= v < 10 ^ Z.of_nat w -> 0 <= v' < 10 ^ Z.of_nat w ->
  CStd.fixed_digits w v = CStd.fixed_digits w v' -> v = v'.
Proof.
  induction w as [|w IH]; intros v v' Hv Hv' H.
  - simpl in *. lia.
  - simpl in H. apply app_last_inj in H as [Hhead Hlast].
    rewrite Nat2Z.inj_succ, Z.pow_succ_r in Hv, Hv' by lia.
    pose proof (Z.mod_pos_bound v 10 ltac:(lia)).
    pose proof (Z.mod_pos_bound v' 10 ltac:(lia)).
    apply digit_char_inj in Hlast; [|lia|lia].
    apply IH in Hhead.
    + pose proof (Z.div_mod v 10 ltac:(lia)).
      pose proof (Z.div_mod v' 10 ltac:(lia)). lia.
    + split; [apply Z.div_pos; lia | apply Z.div_lt_upper_bound; lia].
    + split; [apply Z.div_pos; lia | apply Z.div_lt_upper_bound; lia].
Qed.

End Decimal.

(** ** Filename *)

Section FilenameFacts.

Example Filename_single : Filename "out.png" ".png" 0 0 1 1 = "out.png".
Proof. reflexivity. Qed.

Example Filename_frame_3_of_12 :
  Filename "base" ".png" 0 3 1 12 = "base-03.png".
Proof. reflexivity. Qed.

Example Filename_layer_2_of_5 :
  Filename "base" ".png" 2 0 5 1 = "base-ec2.png".
Proof. reflexivity. Qed.

Example Filename_ppm_layer :
  Filename "base" ".ppm" 1 7 3 100 = "base-007-ec1.pgm".
Proof. reflexivity. Qed.

(** Inside the grid the formatted index fits the buffer of [snprintf]. *)
Lemma snprintf_index (prefix : string) (v n : Z) :
  0 <= v < n ->
  CStd.snprintf (Z.of_nat (String.length prefix) + 1 + digits n)
                (prefix ++ CStd.fmt_0d (digits n) v)
  = prefix ++ CStd.zero_pad (digits n) v.
Proof.
  intros Hv. unfold CStd.snprintf, CStd.fmt_0d.
  replace (v <? 0) with false by (symmetry; apply Z.ltb_ge; lia).
  apply string_take_all.
  pose proof (dec_len_le_digits v n Hv) as Hlen.
  rewrite str_length_app, zero_pad_fixed, length_fixed_digits by lia.
  destruct (digits_spec n ltac:(lia)) as [H1 _]. lia.
Qed.

Lemma Filename_grid (filename extension : string) (li fi nl nf : Z) :
  filename <> "-" -> 0 <= li < nl -> 0 <= fi < nf ->
  Filename filename extension li fi nl nf
  = Filename_spec filename extension li fi nl nf.
Proof.
  intros Hname Hli Hfi.
  unfold Filename, Filename_spec, frame_suffix, layer_suffix,
    extension_suffix.
  apply String.eqb_neq in Hname. rewrite Hname.
  replace (2 + digits nf)
    with (Z.of_nat (String.length "-") + 1 + digits nf) by (simpl; lia).
  replace (4 + digits nl)
    with (Z.of_nat (String.length "-ec") + 1 + digits nl) by (simpl; lia).
  rewrite (snprintf_index "-" fi nf Hfi), (snprintf_index "-ec" li nl Hli).
  destruct (1 <? nf) eqn:Enf.
  - cbn [orb].
    destruct ((1 <? nl) && (0 <? li)) eqn:El;
      destruct ((extension =? ".ppm")%string && (0 <? li)) eqn:Ee;
      rewrite ?app_assoc_s, ?app_empty_r; reflexivity.
  - cbn [orb].
    destruct ((1 <? nl) && (0 <? li)) eqn:El;
      destruct ((extension =? ".ppm")%string && (0 <? li)) eqn:Ee;
      cbn [append]; rewrite ?app_assoc_s, ?app_empty_r; try reflexivity.
    (* outside the grid: a later layer when there is a single layer *)
    apply andb_true_iff in Ee as [_ Ee]. apply Z.ltb_lt in Ee.
    apply andb_false_iff in El as [El|El];
      [apply Z.ltb_ge in El | apply Z.ltb_ge in El]; lia.
Qed.

Example Filename_truncates : Filename "base" ".png" 0 15 1 2 = "base-1.png".
Proof. reflexivity. Qed.

Example Filename_pgm_without_suffix :
  Filename "base" ".ppm" 1 0 1 1 = "base.pgm".
Proof. reflexivity. Qed.

Lemma index_below_pow (v n : Z) :
  0 <= v < n -> 0 <= v < 10 ^ Z.of_nat (Z.to_nat (digits n)).
Proof.
  intros Hv. destruct (digits_spec n ltac:(lia)) as [H1 [_ Hup]].
  rewrite Z2Nat.id by lia. lia.
Qed.

Lemma zero_pad_index (v n : Z) :
  0 <= v < n ->
  CStd.zero_pad (digits n) v = CStd.fixed_digits (Z.to_nat (digits n)) v.
Proof.
  intros Hv. apply zero_pad_fixed; [lia|]. now apply dec_len_le_digits.
Qed.

Lemma length_frame_suffix (fi nf : Z) :
  0 <= fi < nf ->
  String.length (frame_suffix fi nf)
  = if 1 <? nf then S (Z.to_nat (digits nf)) else 0%nat.
Proof.
  intros Hfi. unfold frame_suffix. destruct (1 <? nf); [|reflexivity].
  rewrite zero_pad_index by assumption.
  cbn [append String.length]. now rewrite length_fixed_digits.
Qed.

Lemma frame_suffix_inj (fi fi' nf : Z) :
  0 <= fi < nf -> 0 <= fi' < nf ->
  frame_suffix fi nf = frame_suffix fi' nf -> fi = fi'.
Proof.
  intros Hfi Hfi' H. unfold frame_suffix in H.
  destruct (1 <? nf) eqn:E.
  - rewrite !zero_pad_index in H by assumption.
    cbn [append] in H. injection H as H.
    eapply fixed_digits_inj; eauto using index_below_pow.
  - apply Z.ltb_ge in E. lia.
Qed.

Lemma length_extension_suffix_later (extension : string) (li nl nf : Z) :
  0 < li < nl ->
  String.length (extension_suffix extension li nl nf)
  = String.length extension.
Proof.
  intros Hli. unfold extension_suffix.
  replace (1 <? nl) with true by (symmetry; apply Z.ltb_lt; lia).
  replace (0 <? li) with true by (symmetry; apply Z.ltb_lt; lia).
  rewrite orb_true_r, andb_true_r.
  destruct (extension =? ".ppm")%string eqn:E; [|reflexivity].
  apply String.eqb_eq in E. subst. reflexivity.
Qed.

Lemma length_extension_suffix_first (extension : string) (nl nf : Z) :
  (String.length (extension_suffix extension 0 nl nf)
   <= String.length extension)%nat.
Proof.
  unfold extension_suffix. change (0 <? 0) with false.
  rewrite !andb_false_r, orb_false_r.
  destruct (1 <? nf); simpl; lia.
Qed.

Lemma layer_suffix_first (nl : Z) : layer_suffix 0 nl = "".
Proof.
  unfold layer_suffix. change (0 <? 0) with false.
  now rewrite andb_false_r.
Qed.

Lemma layer_suffix_later (li nl : Z) :
  0 < li < nl ->
  layer_suffix li nl
  = "-ec" ++ CStd.fixed_digits (Z.to_nat (digits nl)) li.
Proof.
  intros Hli. unfold layer_suffix.
  replace (1 <? nl) with true by (symmetry; apply Z.ltb_lt; lia).
  replace (0 <? li) with true by (symmetry; apply Z.ltb_lt; lia).
  cbn [andb]. now rewrite zero_pad_index by lia.
Qed.

(** What follows the frame suffix determines the layer. *)
Lemma layer_part_inj (extension : string) (li li' nl nf : Z) :
  0 <= li < nl -> 0 <= li' < nl ->
  layer_suffix li nl ++ extension_suffix extension li nl nf
  = layer_suffix li' nl ++ extension_suffix extension li' nl nf ->
  li = li'.
Proof.
  intros Hli Hli' H.
  destruct (Z.eq_dec li 0) as [->|Hpos], (Z.eq_dec li' 0) as [->|Hpos'];
    try reflexivity.
  - exfalso. revert H. apply length_neq.
    rewrite layer_suffix_first, layer_suffix_later by lia.
    rewrite !str_length_app.
    rewrite (length_extension_suffix_later extension li' nl nf) by lia.
    pose proof (length_extension_suffix_first extension nl nf).
    cbn [append String.length] in *. lia.
  - exfalso. revert H. apply length_neq.
    rewrite layer_suffix_first, layer_suffix_later by lia.
    rewrite !str_length_app.
    rewrite (length_extension_suffix_later extension li nl nf) by lia.
    pose proof (length_extension_suffix_first extension nl nf).
    cbn [append String.length] in *. lia.
  - rewrite !layer_suffix_later in H by lia.
    apply app_split_eq in H as [H _].
    + cbn [append] in H. injection H as H.
      eapply fixed_digits_inj; eauto using index_below_pow.
      all: apply index_below_pow; lia.
    + cbn [append String.length]. now rewrite !length_fixed_digits.
Qed.

Lemma Filename_spec_inj (filename extension : string)
    (li fi li' fi' nl nf : Z) :
  0 <= li < nl -> 0 <= fi < nf -> 0 <= li' < nl -> 0 <= fi' < nf ->
  Filename_spec filename extension li fi nl nf
  = Filename_spec filename extension li' fi' nl nf ->
  li = li' /\ fi = fi'.
Proof.
  intros Hli Hfi Hli' Hfi' H. unfold Filename_spec in H.
  apply app_cancel_l in H.
  apply app_split_eq in H as [Hframe Hrest].
  - split.
    + eapply layer_part_inj; eauto.
    + eapply frame_suffix_inj; eauto.
  - now rewrite !length_frame_suffix.
Qed.

(** C5, as amended: for a base path other than ["-"] and a pair of
    indices inside the grid, [Filename] is the base path followed by the
    frame suffix (['-'] and the frame index zero-padded to the number of
    digits of the frame count) when there are several frames, by the layer
    suffix (["-ec"] and the layer index zero-padded to the number of digits
    of the layer count) for a later layer, and by the extension exactly
    when one of the two was added, [.pgm] standing for [.ppm] on a later
    layer; with one frame and one layer it is the base path itself, and
    frame 3 of 12 of ["base"] is ["base-03"] followed by the extension.  For
    the base path ["-"] it is ["-"]. *)
Theorem Filename_derivation (filename extension : string) (li fi nl nf : Z) :
  filename <> "-" -> 0 <= li < nl -> 0 <= fi < nf ->
  Filename filename extension li fi nl nf
  = Filename_spec filename extension li fi nl nf
  /\ (nf = 1 -> nl = 1 -> Filename filename extension li fi nl nf = filename)
  /\ 10 ^ (digits nf - 1) <= nf < 10 ^ digits nf
  /\ 10 ^ (digits nl - 1) <= nl < 10 ^ digits nl
  /\ String.length (CStd.zero_pad (digits nf) fi) = Z.to_nat (digits nf)
  /\ String.length (CStd.zero_pad (digits nl) li) = Z.to_nat (digits nl)
  /\ Filename "base" extension 0 3 1 12 = "base-03" ++ extension
  /\ Filename "-" extension li fi nl nf = "-".
Proof.
  intros Hname Hli Hfi.
  pose proof (Filename_grid filename extension li fi nl nf Hname Hli Hfi)
    as Hgrid.
  split; [exact Hgrid|]. split.
  { intros -> ->. rewrite Hgrid.
    assert (li = 0) by lia. assert (fi = 0) by lia. subst.
    unfold Filename_spec, frame_suffix, layer_suffix, extension_suffix.
    cbn. now rewrite app_empty_r. }
  split; [apply digits_spec; lia|].
  split; [apply digits_spec; lia|].
  split; [rewrite zero_pad_index by lia; apply length_fixed_digits|].
  split; [rewrite zero_pad_index by lia; apply length_fixed_digits|].
  split; [|reflexivity].
  rewrite Filename_grid by (try discriminate; lia).
  unfold Filename_spec, frame_suffix, layer_suffix, extension_suffix.
  change (0 <? 0) with false. rewrite !andb_false_r. reflexivity.
Qed.

Lemma Filename_derivation_witness :
  "out" <> "-" /\ 0 <= 1 < 2 /\ 0 <= 3 < 12
  /\ Filename "out" ".ppm" 1 3 2 12 = "out-03-ec1.pgm".
Proof.
  assert (Hname : "out" <> "-") by discriminate.
  assert (Hli : 0 <= 1 < 2) by lia.
  assert (Hfi : 0 <= 3 < 12) by lia.
  split; [exact Hname|]. split; [exact Hli|]. split; [exact Hfi|].
  rewrite (proj1 (Filename_derivation "out" ".ppm" 1 3 2 12 Hname Hli Hfi)).
  reflexivity.
Defined.

(** C5 as stated fails on standard output: with twelve frames the claim
    appends the suffix of frame 3 to ["-"], and [Filename] returns ["-"]. *)
Lemma Filename_stdout_has_no_suffix :
  Filename "-" ".png" 0 3 1 12 = "-"
  /\ Filename_spec "-" ".png" 0 3 1 12 = "--03.png"
  /\ Filename "-" ".png" 0 3 1 12 <> Filename_spec "-" ".png" 0 3 1 12.
Proof. repeat split; try reflexivity. discriminate. Qed.

(** C6: for a base path other than ["-"], two pairs of the grid with the
    same file name are the same pair; for ["-"] the name is ["-"]. *)
Theorem Filename_unique (filename extension : string)
    (li fi li' fi' nl nf : Z) :
  filename <> "-" ->
  0 <= li < nl -> 0 <= fi < nf -> 0 <= li' < nl -> 0 <= fi' < nf ->
  (Filename filename extension li fi nl nf
   = Filename filename extension li' fi' nl nf -> li = li' /\ fi = fi')
  /\ Filename "-" extension li fi nl nf = "-".
Proof.
  intros Hname Hli Hfi Hli' Hfi'. split; [|reflexivity].
  rewrite !Filename_grid by assumption.
  now apply Filename_spec_inj.
Qed.

Lemma Filename_unique_witness :
  Filename "out" ".ppm" 0 1 2 3 <> Filename "out" ".ppm" 1 1 2 3
  /\ Filename "-" ".ppm" 0 1 2 3 = "-".
Proof.
  assert (Hname : "out" <> "-") by discriminate.
  pose proof (Filename_unique "out" ".ppm" 0 1 1 1 2 3 Hname
                ltac:(lia) ltac:(lia) ltac:(lia) ltac:(lia)) as [Hinj Hout].
  split; [|exact Hout].
  intros H. apply Hinj in H. lia.
Defined.

End FilenameFacts.

(** ** AddFormatsWithAlphaChannel *)

Section FormatFacts.

Lemma data_type_eqb_eq (a b : JxlDataType) :
  data_type_eqb a b = true <-> a = b.
Proof. destruct a, b; simpl; split; congruence. Qed.

Lemma endianness_eqb_eq (a b : JxlEndianness) :
  endianness_eqb a b = true <-> a = b.
Proof. destruct a, b; simpl; split; congruence. Qed.

(** The comparison of the source is equality of the four fields. *)
Lemma same_format_eq (f g : JxlPixelFormat) :
  same_format f g = true <-> f = g.
Proof.
  unfold same_format. rewrite !andb_true_iff, !Z.eqb_eq,
    data_type_eqb_eq, endianness_eqb_eq.
  destruct f, g; simpl; split.
  - intros [[[-> ->] ->] ->]. reflexivity.
  - intros H. injection H as -> -> -> ->. auto.
Qed.

Lemma present_In (format : JxlPixelFormat) (formats : list JxlPixelFormat) :
  present format formats = true <-> In format formats.
Proof.
  unfold present. rewrite existsb_exists. split.
  - intros (f & Hin & Hsame). apply same_format_eq in Hsame. now subst.
  - intros Hin. exists format. split; [assumption | now apply same_format_eq].
Qed.

Lemma format_eq_dec (f g : JxlPixelFormat) : {f = g} + {f <> g}.
Proof.
  destruct (same_format f g) eqn:E.
  - left. now apply same_format_eq.
  - right. intros H. apply same_format_eq in H. congruence.
Defined.

Lemma incr_channels_with_alpha (f : JxlPixelFormat) :
  gray_or_rgb f = true -> incr_channels f = with_alpha f.
Proof.
  unfold gray_or_rgb, incr_channels, with_alpha. intros H.
  apply orb_true_iff in H as [H|H]; apply Z.eqb_eq in H; rewrite H;
    reflexivity.
Qed.

Lemma with_alpha_inj (f g : JxlPixelFormat) :
  with_alpha f = with_alpha g -> f = g.
Proof.
  destruct f, g. unfold with_alpha. simpl. intros H.
  injection H as H1 -> -> ->. f_equal. lia.
Qed.

Lemma missing_variants_snoc (formats done : list JxlPixelFormat)
    (f : JxlPixelFormat) :
  missing_variants formats (done ++ [f])%list
  = (missing_variants formats done
     ++ (if gray_or_rgb f && negb (present (with_alpha f) formats)
         then [with_alpha f] else []))%list.
Proof.
  unfold missing_variants. rewrite filter_app, map_app. simpl.
  destruct (gray_or_rgb f && negb (present (with_alpha f) formats));
    reflexivity.
Qed.

Lemma In_missing_variants (formats candidates : list JxlPixelFormat)
    (g : JxlPixelFormat) :
  In g (missing_variants formats candidates) <->
  exists f, In f candidates /\ gray_or_rgb f = true
            /\ g = with_alpha f /\ ~ In g formats.
Proof.
  unfold missing_variants. rewrite in_map_iff. split.
  - intros (f & <- & Hf). apply filter_In in Hf as [Hin Hf].
    apply andb_true_iff in Hf as [Hg Hp]. exists f.
    repeat split; auto. rewrite <- present_In.
    now destruct (present (with_alpha f) formats).
  - intros (f & Hin & Hg & -> & Hnot). exists f. split; [reflexivity|].
    apply filter_In. split; [assumption|].
    rewrite Hg. simpl. rewrite <- present_In in Hnot.
    now destruct (present (with_alpha f) formats).
Qed.

(** One iteration of the loop at the format [f], which follows [done]. *)
Lemma add_format_step (done rest : list JxlPixelFormat) (f : JxlPixelFormat) :
  let formats := (done ++ f :: rest)%list in
  NoDup formats ->
  (if gray_or_rgb f
   then add_format (formats ++ missing_variants formats done)
                   (incr_channels f)
   else (formats ++ missing_variants formats done)%list)
  = (formats ++ missing_variants formats (done ++ [f]))%list.
Proof.
  intros formats Hnd. rewrite missing_variants_snoc.
  destruct (gray_or_rgb f) eqn:Hg; simpl;
    [|now rewrite app_nil_r].
  rewrite incr_channels_with_alpha by assumption.
  unfold add_format. fold (present (with_alpha f)
                             (formats ++ missing_variants formats done)).
  destruct (present (with_alpha f) formats) eqn:Hp; simpl.
  - rewrite app_nil_r.
    replace (present (with_alpha f) (formats ++ missing_variants formats done))
      with true; [reflexivity|].
    symmetry. apply present_In, in_or_app. left. now apply present_In.
  - replace (present (with_alpha f) (formats ++ missing_variants formats done))
      with false; [now rewrite <- app_assoc|].
    symmetry. apply not_true_is_false. intros Hin.
    apply present_In, in_app_or in Hin as [Hin|Hin].
    + apply present_In in Hin. congruence.
    + apply In_missing_variants in Hin as (h & Hh & _ & Heq & _).
      apply with_alpha_inj in Heq. subst h.
      apply NoDup_remove_2 in Hnd. apply Hnd, in_or_app. now left.
Qed.

Lemma add_alpha_loop_missing (rest : list JxlPixelFormat) :
  forall done,
  NoDup (done ++ rest) ->
  add_alpha_loop (List.length rest) (List.length done)
                 ((done ++ rest) ++ missing_variants (done ++ rest) done)
  = ((done ++ rest) ++ missing_variants (done ++ rest) (done ++ rest))%list.
Proof.
  induction rest as [|f rest IH]; intros done Hnd.
  - simpl. now rewrite !app_nil_r.
  - cbn [List.length add_alpha_loop].
    rewrite nth_error_app1 by (rewrite List.length_app; simpl; lia).
    rewrite nth_error_app2, Nat.sub_diag by lia. cbn [nth_error].
    rewrite (add_format_step done rest f Hnd).
    replace (done ++ f :: rest)%list with ((done ++ [f]) ++ rest)%list
      in * by (now rewrite <- app_assoc).
    replace (S (List.length done)) with (List.length (done ++ [f])%list)
      by (rewrite List.length_app; simpl; lia).
    now apply IH.
Qed.

Lemma AddFormatsWithAlphaChannel_appends (formats : list JxlPixelFormat) :
  NoDup formats ->
  AddFormatsWithAlphaChannel formats = (formats ++ alpha_variants formats)%list.
Proof.
  intros Hnd. unfold AddFormatsWithAlphaChannel, alpha_variants.
  pose proof (add_alpha_loop_missing formats [] Hnd) as H.
  simpl in H. now rewrite app_nil_r in H.
Qed.

Lemma NoDup_missing_variants (formats candidates : list JxlPixelFormat) :
  NoDup candidates -> NoDup (missing_variants formats candidates).
Proof.
  intros Hnd. unfold missing_variants.
  apply NoDup_map_NoDup_ForallPairs; [|now apply NoDup_filter].
  intros f g _ _. apply with_alpha_inj.
Qed.

Example AddFormatsWithAlphaChannel_rgb_and_rgba :
  AddFormatsWithAlphaChannel
    [mkFormat 1 JXL_TYPE_UINT8 JXL_BIG_ENDIAN 0;
     mkFormat 3 JXL_TYPE_UINT8 JXL_BIG_ENDIAN 0;
     mkFormat 4 JXL_TYPE_UINT8 JXL_BIG_ENDIAN 0]
  = [mkFormat 1 JXL_TYPE_UINT8 JXL_BIG_ENDIAN 0;
     mkFormat 3 JXL_TYPE_UINT8 JXL_BIG_ENDIAN 0;
     mkFormat 4 JXL_TYPE_UINT8 JXL_BIG_ENDIAN 0;
     mkFormat 2 JXL_TYPE_UINT8 JXL_BIG_ENDIAN 0].
Proof. reflexivity. Qed.

(** C7: on a list without two structurally identical formats,
    [AddFormatsWithAlphaChannel] keeps the list and appends, in order, the
    alpha variant (one more channel, the same sample type, endianness and
    alignment) of each format with one or three channels whose variant is
    not already in the list, and nothing else; the result has no two
    structurally identical formats, and it holds the variant of each such
    format exactly once. *)
Theorem AddFormatsWithAlphaChannel_spec (formats : list JxlPixelFormat) :
  NoDup formats ->
  AddFormatsWithAlphaChannel formats = (formats ++ alpha_variants formats)%list
  /\ NoDup (AddFormatsWithAlphaChannel formats)
  /\ (forall f, In f formats -> gray_or_rgb f = true ->
      count_occ format_eq_dec (AddFormatsWithAlphaChannel formats)
                (with_alpha f) = 1%nat
      /\ count_occ format_eq_dec (alpha_variants formats) (with_alpha f)
         = if present (with_alpha f) formats then 0%nat else 1%nat)
  /\ (forall g, In g (alpha_variants formats) ->
      exists f, In f formats /\ gray_or_rgb f = true
                /\ g = with_alpha f /\ ~ In g formats).
Proof.
  intros Hnd.
  pose proof (AddFormatsWithAlphaChannel_appends formats Hnd) as Happ.
  assert (Hvar : NoDup (alpha_variants formats))
    by now apply NoDup_missing_variants.
  assert (Hres : NoDup (AddFormatsWithAlphaChannel formats)).
  { rewrite Happ. apply NoDup_app; [assumption | assumption |].
    intros a Ha Hin. apply In_missing_variants in Hin.
    destruct Hin as (_ & _ & _ & _ & Hnot). contradiction. }
  split; [exact Happ|]. split; [exact Hres|]. split.
  - intros f Hf Hg.
    assert (Hcases : if present (with_alpha f) formats
                     then In (with_alpha f) formats
                     else In (with_alpha f) (alpha_variants formats)
                          /\ ~ In (with_alpha f) formats).
    { destruct (present (with_alpha f) formats) eqn:Hp.
      - now apply present_In.
      - assert (~ In (with_alpha f) formats) as Hnot
          by (rewrite <- present_In; congruence).
        split; [|assumption].
        apply In_missing_variants. exists f. auto. }
    split.
    + apply NoDup_count_occ'; [assumption|].
      rewrite Happ. apply in_or_app.
      destruct (present (with_alpha f) formats); tauto.
    + destruct (present (with_alpha f) formats).
      * apply count_occ_not_In. intros Hin.
        apply In_missing_variants in Hin.
        destruct Hin as (_ & _ & _ & _ & Hnot). contradiction.
      * apply NoDup_count_occ'; tauto.
  - intros g Hin. now apply In_missing_variants in Hin.
Qed.

Lemma AddFormatsWithAlphaChannel_spec_witness :
  AddFormatsWithAlphaChannel
    [mkFormat 3 JXL_TYPE_UINT16 JXL_LITTLE_ENDIAN 0;
     mkFormat 1 JXL_TYPE_UINT16 JXL_LITTLE_ENDIAN 0;
     mkFormat 2 JXL_TYPE_UINT16 JXL_LITTLE_ENDIAN 0]
  = [mkFormat 3 JXL_TYPE_UINT16 JXL_LITTLE_ENDIAN 0;
     mkFormat 1 JXL_TYPE_UINT16 JXL_LITTLE_ENDIAN 0;
     mkFormat 2 JXL_TYPE_UINT16 JXL_LITTLE_ENDIAN 0;
     mkFormat 4 JXL_TYPE_UINT16 JXL_LITTLE_ENDIAN 0].
Proof.
  assert (Hnd : NoDup [mkFormat 3 JXL_TYPE_UINT16 JXL_LITTLE_ENDIAN 0;
                       mkFormat 1 JXL_TYPE_UINT16 JXL_LITTLE_ENDIAN 0;
                       mkFormat 2 JXL_TYPE_UINT16 JXL_LITTLE_ENDIAN 0]).
  { repeat constructor; simpl; intuition discriminate. }
  rewrite (proj1 (AddFormatsWithAlphaChannel_spec _ Hnd)).
  reflexivity.
Defined.

End FormatFacts.

(** ** ParseBackgroundColor *)

Section BackgroundFacts.

Example ParseBackgroundColor_black :
  ParseBackgroundColor "black"
  = ParseTrue (Float32.zero, Float32.zero, Float32.zero).
Proof. reflexivity. Qed.

Example ParseBackgroundColor_white :
  ParseBackgroundColor "white"
  = ParseTrue (Float32.one, Float32.one, Float32.one).
Proof. reflexivity. Qed.

Example ParseBackgroundColor_ff0080 :
  ParseBackgroundColor "#ff0080"
  = ParseTrue (Float32.one, Float32.zero, S754_finite false 8421505 (-24)).
Proof. reflexivity. Qed.

Example ParseBackgroundColor_name : ParseBackgroundColor "red" = ParseFalse.
Proof. reflexivity. Qed.

Example ParseBackgroundColor_short : ParseBackgroundColor "#fff" = ParseFalse.
Proof. reflexivity. Qed.

Example ParseBackgroundColor_sign :
  ParseBackgroundColor "#-00001"
  = ParseTrue (Float32.one, Float32.one, Float32.one).
Proof. reflexivity. Qed.

Lemma hex_value_range (c : ascii) (d : Z) :
  Stoi.hex_value c = Some d -> 0 <= d < 16.
Proof.
  unfold Stoi.hex_value.
  destruct ((48 <=? _) && (_ <=? 57)) eqn:E1;
    [|destruct ((97 <=? _) && (_ <=? 102)) eqn:E2;
      [|destruct ((65 <=? _) && (_ <=? 70)) eqn:E3]];
    intros H; try discriminate; injection H as <-;
    try (apply andb_true_iff in E1 as [? ?]);
    try (apply andb_true_iff in E2 as [? ?]);
    try (apply andb_true_iff in E3 as [? ?]); lia.
Qed.

(** A hexadecimal digit is neither white space nor a sign, and it is not
    the letter of the [0x] prefix. *)
Lemma is_hex_plain (c : ascii) :
  Stoi.is_hex c = true ->
  Stoi.is_space c = false /\ c <> "-"%char /\ c <> "+"%char
  /\ (c =? "x")%char = false /\ (c =? "X")%char = false.
Proof.
  destruct c as [[] [] [] [] [] [] [] []]; cbv; intros H;
    try discriminate H; repeat split; discriminate.
Qed.

Lemma hex_run_bound (s : string) :
  forall acc, 0 <= acc ->
  0 <= Stoi.hex_run acc s
       < (acc + 1) * 16 ^ Z.of_nat (String.length s).
Proof.
  induction s as [|c s IH]; intros acc Hacc.
  - simpl. lia.
  - cbn [Stoi.hex_run String.length].
    rewrite Nat2Z.inj_succ, Z.pow_succ_r by lia.
    assert (0 < 16 ^ Z.of_nat (String.length s))
      by (apply Z.pow_pos_nonneg; lia).
    destruct (Stoi.hex_value c) as [d|] eqn:E.
    + apply hex_value_range in E.
      specialize (IH (16 * acc + d) ltac:(lia)). nia.
    + nia.
Qed.

Lemma strip_0x_length (s : string) :
  (String.length (Stoi.strip_0x s) <= String.length s)%nat.
Proof.
  unfold Stoi.strip_0x.
  destruct s as [|c s]; [simpl; lia|].
  destruct c as [[] [] [] [] [] [] [] []]; try (simpl; lia).
  destruct s as [|x [|d rest]]; try (simpl; lia).
  destruct (((x =? "x")%char || (x =? "X")%char) && Stoi.is_hex d);
    simpl; lia.
Qed.

Lemma strip_0x_starts_with_hex (s : string) :
  Stoi.starts_with_hex s = true ->
  Stoi.starts_with_hex (Stoi.strip_0x s) = true.
Proof.
  unfold Stoi.strip_0x. intros H.
  destruct s as [|c s]; [assumption|].
  destruct c as [[] [] [] [] [] [] [] []]; try assumption.
  destruct s as [|x [|d rest]]; try assumption.
  destruct (((x =? "x")%char || (x =? "X")%char) && Stoi.is_hex d) eqn:E;
    [|assumption].
  apply andb_true_iff in E as [_ E]. exact E.
Qed.

(** [std::stoi] on at most six characters that start with a hexadecimal
    digit: nothing is skipped but an [0x], and the value fits 24 bits. *)
Lemma stoi16_hex_start (s : string) :
  Stoi.starts_with_hex s = true ->
  (String.length s <= 6)%nat ->
  Stoi.stoi16 s = Stoi.Value (Stoi.hex_run 0 (Stoi.strip_0x s))
  /\ 0 <= Stoi.hex_run 0 (Stoi.strip_0x s) < 2 ^ 24.
Proof.
  intros Hhex Hlen.
  assert (Hbound : 0 <= Stoi.hex_run 0 (Stoi.strip_0x s) < 2 ^ 24).
  { pose proof (hex_run_bound (Stoi.strip_0x s) 0 ltac:(lia)) as Hb.
    pose proof (strip_0x_length s) as Hs.
    assert (16 ^ Z.of_nat (String.length (Stoi.strip_0x s)) <= 16 ^ 6)
      by (apply Z.pow_le_mono_r; lia).
    change (2 ^ 24) with (16 ^ 6). lia. }
  split; [|exact Hbound].
  destruct s as [|c s]; [discriminate|].
  cbn [Stoi.starts_with_hex] in Hhex.
  destruct (is_hex_plain c Hhex) as (Hsp & Hminus & Hplus & _).
  unfold Stoi.stoi16. cbn [Stoi.skip_spaces]. rewrite Hsp.
  assert (Hsign :
    match String c s with
    | String "-" r => (true, r)
    | String "+" r => (false, r)
    | _ => (false, String c s)
    end = (false, String c s)).
  { destruct c as [[] [] [] [] [] [] [] []]; try reflexivity;
      congruence. }
  rewrite Hsign.
  rewrite (strip_0x_starts_with_hex (String c s) Hhex).
  replace (_ || _) with false; [reflexivity|].
  symmetry. apply orb_false_iff.
  unfold Stoi.INT_MIN, Stoi.INT_MAX. split; apply Z.ltb_ge; lia.
Qed.

Lemma strip_0x_cases (s : string) :
  Stoi.strip_0x s
  = if has_0x_prefix s then string_tail (string_tail s) else s.
Proof.
  unfold Stoi.strip_0x, has_0x_prefix.
  destruct s as [|c s]; [reflexivity|].
  destruct c as [[] [] [] [] [] [] [] []]; try reflexivity.
  destruct s as [|x [|d rest]]; reflexivity.
Qed.

Lemma ParseBackgroundColor_hash (s : string) :
  String.length s = 7%nat -> first_char_is "#" s = true ->
  ParseBackgroundColor s
  = match Stoi.stoi16 (string_tail s) with
    | Stoi.Value v => ParseTrue (color_channels (uint32 v))
    | _ => ParseThrows
    end.
Proof.
  intros Hlen Hfirst. destruct s as [|c s]; [discriminate|].
  cbn [first_char_is] in Hfirst. apply Ascii.eqb_eq in Hfirst. subst c.
  unfold ParseBackgroundColor. rewrite Hlen.
  cbn [String.eqb Ascii.eqb Bool.eqb first_char_is Nat.eqb negb orb
       string_tail].
  destruct (Stoi.stoi16 s); reflexivity.
Qed.

Lemma no_0x_prefix_of_hex (c x : ascii) (rest : string) :
  Stoi.is_hex x = true -> has_0x_prefix (String c (String x rest)) = false.
Proof.
  intros Hx. destruct (is_hex_plain x Hx) as (_ & _ & _ & Hl & Hu).
  unfold has_0x_prefix.
  destruct c as [[] [] [] [] [] [] [] []]; try reflexivity.
  destruct rest; [reflexivity|]. now rewrite Hl, Hu.
Qed.

Lemma channels_of_bytes (r g b : Z) :
  0 <= r < 256 -> 0 <= g < 256 -> 0 <= b < 256 ->
  color_channels ((r * 256 + g) * 256 + b)
  = (scale_255 r, scale_255 g, scale_255 b).
Proof.
  intros Hr Hg Hb. unfold color_channels.
  change 255 with (Z.ones 8).
  rewrite !Z.land_ones, !Z.shiftr_div_pow2 by lia.
  change (2 ^ 16) with 65536. change (2 ^ 8) with 256.
  repeat f_equal; Z.div_mod_to_equations; lia.
Qed.

(** The accepted form of a hexadecimal background: six hexadecimal digits
    after ['#'] give the three bytes [RR], [GG] and [BB], each multiplied by
    [1.0f / 255]. *)
Lemma ParseBackgroundColor_six_digits (c1 c2 c3 c4 c5 c6 : ascii)
    (d1 d2 d3 d4 d5 d6 : Z) :
  Stoi.hex_value c1 = Some d1 -> Stoi.hex_value c2 = Some d2 ->
  Stoi.hex_value c3 = Some d3 -> Stoi.hex_value c4 = Some d4 ->
  Stoi.hex_value c5 = Some d5 -> Stoi.hex_value c6 = Some d6 ->
  ParseBackgroundColor
    (String "#" (String c1 (String c2 (String c3 (String c4
       (String c5 (String c6 "")))))))
  = ParseTrue (scale_255 (16 * d1 + d2), scale_255 (16 * d3 + d4),
               scale_255 (16 * d5 + d6)).
Proof.
  intros H1 H2 H3 H4 H5 H6.
  rewrite ParseBackgroundColor_hash by reflexivity.
  cbn [string_tail].
  assert (Hhex1 : Stoi.is_hex c1 = true)
    by (unfold Stoi.is_hex; now rewrite H1).
  assert (Hhex2 : Stoi.is_hex c2 = true)
    by (unfold Stoi.is_hex; now rewrite H2).
  match goal with
  | |- context [Stoi.stoi16 ?t] =>
      destruct (stoi16_hex_start t Hhex1 ltac:(simpl; lia)) as [-> _];
      rewrite (strip_0x_cases t), (no_0x_prefix_of_hex c1 c2 _ Hhex2)
  end.
  cbn [Stoi.hex_run]. rewrite H1, H2, H3, H4, H5, H6.
  apply hex_value_range in H1, H2, H3, H4, H5, H6.
  unfold uint32. rewrite Z.mod_small by (change (2 ^ 32) with 4294967296; lia).
  rewrite <- (channels_of_bytes (16 * d1 + d2) (16 * d3 + d4) (16 * d5 + d6))
    by lia.
  do 2 f_equal. lia.
Qed.

(** C10, as amended: a string of seven characters that starts with ['#']
    and a hexadecimal digit is always accepted, whatever its last five
    characters are; its colour is read from the longest run of hexadecimal
    digits after ['#'], or, when ['#'] is followed by [0x] or [0X] and a
    hexadecimal digit, from the longest run after that prefix. *)
Theorem ParseBackgroundColor_unchecked_digits (s : string) :
  String.length s = 7%nat ->
  first_char_is "#" s = true ->
  Stoi.starts_with_hex (string_tail s) = true ->
  ParseBackgroundColor s
  = ParseTrue
      (color_of_hex_prefix
         (if has_0x_prefix (string_tail s)
          then string_tail (string_tail (string_tail s))
          else string_tail s)).
Proof.
  intros Hlen Hfirst Hhex.
  rewrite ParseBackgroundColor_hash by assumption.
  assert (Hlen' : (String.length (string_tail s) <= 6)%nat).
  { destruct s; simpl in *; lia. }
  destruct (stoi16_hex_start (string_tail s) Hhex Hlen') as [-> Hrange].
  rewrite strip_0x_cases in *. unfold color_of_hex_prefix, uint32.
  rewrite Z.mod_small by lia. reflexivity.
Qed.

Lemma ParseBackgroundColor_unchecked_digits_witness :
  ParseBackgroundColor "#12zzzz"
  = ParseTrue (Float32.zero, Float32.zero, S754_finite false 9474193 (-27)).
Proof.
  rewrite (ParseBackgroundColor_unchecked_digits "#12zzzz"
             eq_refl eq_refl eq_refl).
  reflexivity.
Defined.

(** C10 as stated fails when [0x] follows ['#']: the longest hexadecimal
    prefix of ["0x12ab"] is ["0"], which is black, and the colour returned
    is that of [0x12ab]. *)
Lemma ParseBackgroundColor_0x_prefix :
  String.length "#0x12ab" = 7%nat
  /\ first_char_is "#" "#0x12ab" = true
  /\ Stoi.starts_with_hex (string_tail "#0x12ab") = true
  /\ ParseBackgroundColor "#0x12ab"
     = ParseTrue (Float32.zero, S754_finite false 9474193 (-27),
                  S754_finite false 11250604 (-24))
  /\ color_of_hex_prefix (string_tail "#0x12ab")
     = (Float32.zero, Float32.zero, Float32.zero)
  /\ ParseBackgroundColor "#0x12ab"
     <> ParseTrue (color_of_hex_prefix (string_tail "#0x12ab")).
Proof. repeat split; try reflexivity. discriminate. Qed.

(** C3, on the code: a string of seven characters that starts with ['#']
    is not checked further.  With fewer than six hexadecimal digits
    [ParseBackgroundColor] still returns a colour, and with none it leaves
    through the exception of [std::stoi]; it never returns [false] there. *)
Theorem ParseBackgroundColor_accepts_malformed :
  ParseBackgroundColor "#12zzzz"
  = ParseTrue (Float32.zero, Float32.zero, scale_255 18)
  /\ ParseBackgroundColor "# 12345"
     = ParseTrue (scale_255 1, scale_255 35, scale_255 69)
  /\ ParseBackgroundColor "#zzzzzz" = ParseThrows.
Proof. repeat split; reflexivity. Qed.

End BackgroundFacts.

(** ** Traces of computations *)

Section TraceFacts.

Lemma bind_value {A B : Type} (m : M A) (k : A -> M B) (t : list Event)
    (a : A) :
  m = (t, inl a) -> bind m k = ((t ++ fst (k a))%list, snd (k a)).
Proof. intros ->. unfold bind. now destruct (k a). Qed.

Lemma bind_left {A B : Type} (m : M A) (k : A -> M B) (t : list Event)
    (o : Outcome) :
  m = (t, inr o) -> bind m k = (t, inr o).
Proof. now intros ->. Qed.

Lemma fst_bind {A B : Type} (m : M A) (k : A -> M B) :
  fst (bind m k)
  = (fst m ++ match snd m with
              | inl a => fst (k a)
              | inr _ => []
              end)%list.
Proof.
  destruct m as [t [a|o]]; simpl.
  - now destruct (k a).
  - now rewrite app_nil_r.
Qed.

Lemma snd_bind {A B : Type} (m : M A) (k : A -> M B) :
  snd (bind m k)
  = match snd m with
    | inl a => snd (k a)
    | inr o => inr o
    end.
Proof.
  destruct m as [t [a|o]]; simpl; [now destruct (k a) | reflexivity].
Qed.

Lemma count_app (p : Event -> bool) (t t' : list Event) :
  count p (t ++ t') = (count p t + count p t')%nat.
Proof. unfold count. now rewrite filter_app, List.length_app. Qed.

Lemma count_cons (p : Event -> bool) (e : Event) (t : list Event) :
  count p (e :: t) = ((if p e then 1 else 0) + count p t)%nat.
Proof. unfold count. simpl. now destruct (p e). Qed.

Lemma entered_app (t t' : list Event) :
  entered (t ++ t') = (entered t ++ entered t')%list.
Proof.
  induction t as [|e t IH]; [reflexivity|].
  destruct e; simpl; now rewrite ?IH.
Qed.

Lemma forallb_bind {A B : Type} (q : Event -> bool) (m : M A)
    (k : A -> M B) :
  forallb q (fst m) = true ->
  (forall a, forallb q (fst (k a)) = true) ->
  forallb q (fst (bind m k)) = true.
Proof.
  intros Hm Hk. rewrite fst_bind, forallb_app, Hm.
  destruct (snd m); [apply Hk | reflexivity].
Qed.

(** A predicate that excludes every event of a trace counts none. *)
Lemma count_excluded (p q : Event -> bool) (t : list Event) :
  forallb q t = true -> (forall e, q e = true -> p e = false) ->
  count p t = 0%nat.
Proof.
  intros Hq Hpq. induction t as [|e t IH]; [reflexivity|].
  simpl in Hq. apply andb_true_iff in Hq as [He Ht].
  rewrite count_cons, (Hpq e He), IH by assumption. reflexivity.
Qed.

Lemma entered_excluded (q : Event -> bool) (t : list Event) :
  forallb q t = true -> (forall e, q e = true -> is_enter e = false) ->
  entered t = [].
Proof.
  intros Hq Hpq. induction t as [|e t IH]; [reflexivity|].
  simpl in Hq. apply andb_true_iff in Hq as [He Ht].
  specialize (Hpq e He). destruct e; try discriminate; simpl; auto.
Qed.

End TraceFacts.

(** One step of a proof that every event of a computation satisfies a
    predicate: through [bind], into the branches, down to single events. *)
Ltac trace_step :=
  match goal with
  | |- forallb _ (fst (bind _ _)) = true =>
      apply forallb_bind; [|intros]
  | |- forallb _ (fst (when ?b _)) = true => destruct b; cbn [when]
  | |- forallb _ (fst (ret _)) = true => reflexivity
  | |- forallb _ (fst (leave _)) = true => reflexivity
  | |- forallb _ (fst (emit _)) = true => reflexivity
  | |- forallb _ (fst (let (_, _) := ?x in _)) = true => destruct x
  | |- forallb _ (fst (match ?x with _ => _ end)) = true => destruct x
  | |- forallb _ (fst (emit (Stderr (if ?b then _ else _)))) = true =>
      destruct b; reflexivity
  end.

Ltac trace_all := repeat trace_step.

Section StageFacts.

Variable env : Collaborators.
Variable args : DecompressArgs.
Variable compressed : bytes.

Lemma reconstruct_call_events (i : nat) (jpeg_bytes : bytes) :
  forallb reconstruct_event
    (fst (DecompressJxlReconstructJPEG env args compressed i jpeg_bytes))
  = true.
Proof. unfold DecompressJxlReconstructJPEG. trace_all. Qed.

Lemma reconstruct_loop_events (n : nat) :
  forall i jpeg_bytes,
  forallb reconstruct_event
    (fst (reconstruct_loop env args compressed n i jpeg_bytes)) = true.
Proof.
  induction n as [|n IH]; intros i jpeg_bytes; cbn [reconstruct_loop].
  - reflexivity.
  - apply forallb_bind; [apply reconstruct_call_events|].
    intros [ok jpeg_bytes']. destruct ok; cbn [negb]; [apply IH|].
    trace_all.
Qed.

Lemma decode_call_events (color_space' : string) (bits_per_sample' : Z)
    (formats : list JxlPixelFormat) (accepts_cmyk : bool) (i : nat)
    (ppf : PackedPixelFile) (decoded_bytes : Z) :
  forallb decode_loop_event
    (fst (DecompressJxlToPackedPixelFile env args color_space'
            bits_per_sample' compressed formats accepts_cmyk i ppf
            decoded_bytes)) = true.
Proof. unfold DecompressJxlToPackedPixelFile. trace_all. Qed.

Lemma pixel_loop_events (color_space' : string) (bits_per_sample' : Z)
    (formats : list JxlPixelFormat) (accepts_cmyk : bool) (n : nat) :
  forall i ppf decoded_bytes,
  forallb decode_loop_event
    (fst (pixel_loop env args color_space' bits_per_sample' compressed
            formats accepts_cmyk n i ppf decoded_bytes)) = true.
Proof.
  induction n as [|n IH]; intros i ppf decoded_bytes; cbn [pixel_loop].
  - reflexivity.
  - apply forallb_bind; [apply decode_call_events|].
    intros [[ok ppf'] decoded_bytes']. destruct ok; cbn [negb]; [apply IH|].
    trace_all.
Qed.

Lemma forallb_weaken (q q' : Event -> bool) (t : list Event) :
  (forall e, q e = true -> q' e = true) ->
  forallb q t = true -> forallb q' t = true.
Proof.
  intros Hqq'. rewrite !forallb_forall. auto.
Qed.

Lemma decode_loop_event_pixel (e : Event) :
  decode_loop_event e = true -> pixel_event e = true.
Proof.
  destruct e; simpl; auto; try discriminate.
  all: match goal with m : Message |- _ => destruct m end; simpl; auto.
Qed.

Lemma optional_output_event_pixel (e : Event) :
  optional_output_event e = true -> pixel_event e = true.
Proof.
  destruct e; simpl; auto; try discriminate.
  match goal with site : WriteSite |- _ => destruct site end; simpl; auto.
Qed.

Lemma optional_outputs_events (outputs : list (string * bytes)) :
  forallb optional_output_event (fst (write_optional_outputs env outputs))
  = true.
Proof.
  induction outputs as [|[filename contents] rest IH];
    cbn [write_optional_outputs]; [reflexivity|].
  apply forallb_bind.
  - unfold WriteOptionalOutput. trace_all.
  - intros ok. destruct ok; cbn [negb]; [apply IH | reflexivity].
Qed.

Lemma negotiate_events (filename_out extension : string) :
  forallb pixel_event
    (fst (negotiate_formats env args filename_out extension)) = true.
Proof. unfold negotiate_formats. trace_all. Qed.

Lemma blend_events (ppf : PackedPixelFile) :
  forallb pixel_event (fst (blend_stage env args ppf)) = true.
Proof. unfold blend_stage. trace_all. Qed.

Lemma output_event_pixel (e : Event) :
  output_event e = true -> pixel_event e = true.
Proof.
  destruct e; simpl; auto; try discriminate.
  all: repeat match goal with
              | m : Message |- _ => destruct m
              | site : WriteSite |- _ => destruct site
              end; simpl; auto.
Qed.

Lemma optional_output_event_output (e : Event) :
  optional_output_event e = true -> output_event e = true.
Proof.
  destruct e; simpl; auto; try discriminate.
  match goal with site : WriteSite |- _ => destruct site end; simpl; auto.
Qed.

Lemma frames_loop_events (filename_out extension : string)
    (encoded_image : EncodedImage) (nlayers nframes : Z) (i n : nat) :
  forall j,
  forallb output_event
    (fst (frames_loop env args filename_out extension encoded_image
            nlayers nframes i n j)) = true.
Proof.
  induction n as [|n IH]; intros j; cbn [frames_loop]; [reflexivity|].
  destruct (select_bitstream encoded_image i j); [|reflexivity].
  apply forallb_bind; [reflexivity|]. intros _.
  destruct (WriteFile env _ _); cbn [negb]; [|reflexivity].
  apply forallb_bind; [trace_all | intros _; apply IH].
Qed.

Lemma layers_loop_events (filename_out extension : string)
    (encoded_image : EncodedImage) (nlayers nframes : Z) (n : nat) :
  forall i,
  forallb output_event
    (fst (layers_loop env args filename_out extension encoded_image
            nlayers nframes n i)) = true.
Proof.
  induction n as [|n IH]; intros i; cbn [layers_loop]; [reflexivity|].
  apply forallb_bind; [apply frames_loop_events | intros _; apply IH].
Qed.

(** What the encode stage emits before and after the one call of
    [Encode]. *)
Lemma encode_stage_shape (filename_out extension : string)
    (encoder : Encoder) (ppf : PackedPixelFile) :
  exists rest,
    fst (encode_stage env args filename_out extension encoder ppf)
    = (CallSetOption "q" (CStd.decimal (jpeg_quality args))
       :: (if use_sjpeg args then [CallSetOption "jpeg_encoder" "sjpeg"]
           else [])
       ++ (if quiet args then [] else [VerbosePrintf 2 MsgEncoding])
       ++ CallEncode ppf :: rest)%list
    /\ forallb output_event rest = true.
Proof.
  unfold encode_stage. rewrite !fst_bind. cbn [emit fst snd app].
  set (tail := match Encode encoder _ ppf with
               | Some _ => _
               | None => _
               end).
  exists (fst tail). split.
  - destruct (use_sjpeg args), (quiet args); reflexivity.
  - subst tail.
    destruct (Encode encoder _ ppf) as [encoded_image|]; [|trace_all].
    apply forallb_bind; [apply layers_loop_events|]. intros _.
    eapply forallb_weaken;
      [apply optional_output_event_output | apply optional_outputs_events].
Qed.

Lemma encode_events (filename_out extension : string) (encoder : Encoder)
    (ppf : PackedPixelFile) :
  forallb pixel_event
    (fst (encode_stage env args filename_out extension encoder ppf)) = true.
Proof.
  destruct (encode_stage_shape filename_out extension encoder ppf)
    as (rest & -> & Hrest).
  apply (forallb_weaken _ _ _ output_event_pixel) in Hrest.
  destruct (use_sjpeg args), (quiet args); cbn [app forallb pixel_event andb];
    exact Hrest.
Qed.

Lemma finish_pixels_events (filename_out extension : string)
    (encoder : option Encoder) (ppf : PackedPixelFile) (decoded_bytes : Z) :
  forallb pixel_event
    (fst (finish_pixels env args filename_out extension encoder ppf
            decoded_bytes)) = true.
Proof.
  unfold finish_pixels.
  apply forallb_bind; [trace_all|]. intros _.
  apply forallb_bind; [trace_all|]. intros _.
  destruct encoder as [encoder|]; [|reflexivity].
  apply forallb_bind; [apply blend_events | intros; apply encode_events].
Qed.

(** The pixel block enters once and then emits pixel events only. *)
Lemma pixel_block_events (color_space' : string) (bits_per_sample' : Z)
    (filename_out extension : string) :
  exists t,
    fst (pixel_block env args color_space' bits_per_sample' compressed
           filename_out extension) = Enter PixelPath :: t
    /\ forallb pixel_event t = true.
Proof.
  unfold pixel_block. rewrite fst_bind. cbn [emit fst snd app].
  eexists. split; [reflexivity|].
  apply forallb_bind; [apply negotiate_events|].
  intros [[formats encoder] accepts_cmyk].
  apply forallb_bind.
  { eapply forallb_weaken;
      [apply decode_loop_event_pixel | apply pixel_loop_events]. }
  intros [ppf decoded_bytes]. apply finish_pixels_events.
Qed.

(** The reconstruct block enters once and then emits reconstruct events
    only. *)
Lemma reconstruct_block_events (filename_out : string) :
  exists t,
    fst (reconstruct_block env args compressed filename_out)
    = Enter ReconstructPath :: t
    /\ forallb reconstruct_event t = true.
Proof.
  unfold reconstruct_block. rewrite fst_bind. cbn [emit fst snd app].
  eexists. split; [reflexivity|].
  apply forallb_bind; [apply reconstruct_loop_events|].
  intros [decode_to_pixels jpeg_bytes].
  apply forallb_bind; [|intros; reflexivity].
  destruct (bytes_empty jpeg_bytes); cbn [negb]; [reflexivity|].
  apply forallb_bind; [trace_all|]. intros _.
  destruct (string_empty filename_out); cbn [negb]; [reflexivity|].
  apply forallb_bind; [reflexivity|]. intros _.
  destruct (WriteFile env _ _); reflexivity.
Qed.

End StageFacts.

(** ** The structure of main *)

Section MainFacts.

Variable env : Collaborators.
Variable args : DecompressArgs.
Variable cmdline : CommandLineParser.
Variable compressed : bytes.

Lemma bind_ret_l {A B : Type} (a : A) (k : A -> M B) : bind (ret a) k = k a.
Proof. unfold bind, ret. now destruct (k a). Qed.

Lemma preamble_run :
  snd (preamble env args) = inl tt
  /\ forallb bookkeeping_event (fst (preamble env args)) = true.
Proof.
  unfold preamble.
  destruct (output_target env args) as [[filename_out extension] codec].
  destruct (_ && _ && negb (quiet args)), (_ && _ && negb (_ =? _)%string);
    split; reflexivity.
Qed.

(** A run that has an output file or [--disable_output]: the preamble, the
    decode paths, and the statistics when the paths return. *)
Lemma main_run :
  file_out args <> None \/ disable_output args = true ->
  main env args cmdline compressed
  = ((fst (preamble env args)
      ++ fst (decode_paths env args cmdline compressed)
      ++ match snd (decode_paths env args cmdline compressed) with
         | inl _ => if quiet args then [] else [StatsPrint]
         | inr _ => []
         end)%list,
     outcome_of (snd (decode_paths env args cmdline compressed))).
Proof.
  intros Hvalid. unfold main, main_body.
  replace (match file_out args with None => true | Some _ => false end
           && negb (disable_output args)) with false.
  2:{ destruct Hvalid as [H|H].
      - destruct (file_out args); [reflexivity | congruence].
      - rewrite H. now rewrite andb_false_r. }
  rewrite bind_ret_l.
  destruct preamble_run as [Hsnd _].
  destruct (preamble env args) as [tp [[]|o]]; [|discriminate].
  cbn [fst]. clear Hsnd.
  destruct (decode_paths env args cmdline compressed) as [td [[]|o]];
    cbn [bind fst snd outcome_of].
  - destruct (quiet args); cbn; rewrite ?app_nil_r; reflexivity.
  - rewrite app_nil_r. reflexivity.
Qed.

(** When the reconstruct path is chosen there is an output file. *)
Lemma reconstruct_needs_output :
  initial_decode_to_pixels args cmdline
    (snd (output_target env args)) = false ->
  file_out args <> None /\ disable_output args = false.
Proof.
  unfold output_target, initial_decode_to_pixels.
  destruct (file_out args) as [path|].
  - destruct (disable_output args); cbn [negb snd codec_eqb].
    + destruct (_ && _); discriminate.
    + split; [discriminate | reflexivity].
  - cbn [snd codec_eqb negb]. destruct (_ && _); discriminate.
Qed.

Lemma decode_paths_pixels :
  initial_decode_to_pixels args cmdline
    (snd (output_target env args)) = true ->
  decode_paths env args cmdline compressed
  = let '(filename_out, extension, codec) := output_target env args in
    pixel_block env args (effective_color_space args codec)
      (effective_bits_per_sample args cmdline codec extension)
      compressed filename_out extension.
Proof.
  unfold decode_paths.
  destruct (output_target env args) as [[filename_out extension] codec].
  cbn [snd]. intros ->. cbn [negb]. now rewrite bind_ret_l.
Qed.

Lemma decode_paths_reconstruct :
  initial_decode_to_pixels args cmdline
    (snd (output_target env args)) = false ->
  decode_paths env args cmdline compressed
  = let '(filename_out, extension, codec) := output_target env args in
    bind (reconstruct_block env args compressed filename_out)
      (fun decode_to_pixels =>
         if decode_to_pixels
         then pixel_block env args (effective_color_space args codec)
                (effective_bits_per_sample args cmdline codec extension)
                compressed filename_out extension
         else ret tt).
Proof.
  unfold decode_paths.
  destruct (output_target env args) as [[filename_out extension] codec].
  cbn [snd]. intros ->. reflexivity.
Qed.

End MainFacts.

(** ** The reconstruct path *)

Section ReconstructFacts.

Variable env : Collaborators.
Variable args : DecompressArgs.
Variable compressed : bytes.

Local Notation "'bytes_before'" := (jpeg_bytes_before env args compressed).
Local Notation "'succeeds'" := (reconstruct_succeeds env args compressed).

Lemma reconstruct_call_run (i : nat) :
  exists t,
    DecompressJxlReconstructJPEG env args compressed i (bytes_before i)
    = (CallReconstruct i (bytes_before i) :: t,
       inl (succeeds i, bytes_before (S i)))
    /\ count is_reconstruct_call t = 0%nat
    /\ count is_retry_warning t = 0%nat.
Proof.
  unfold DecompressJxlReconstructJPEG, reconstruct_succeeds.
  cbn [jpeg_bytes_before].
  destruct (DecodeImageJXL_jpeg env i (allow_partial_files args) compressed
              (bytes_before i)) as [[ok b'] [xsize ysize]].
  destruct ok; cbn; eexists; repeat split.
Qed.

Lemma reconstruct_loop_first_failure (k : nat) (n : nat) :
  forall i,
  (i <= k < i + n)%nat ->
  (forall j, (i <= j < k)%nat -> succeeds j = true) ->
  succeeds k = false ->
  let r := reconstruct_loop env args compressed n i (bytes_before i) in
  count is_reconstruct_call (fst r) = (S k - i)%nat
  /\ if bytes_empty (bytes_before (S k))
     then snd r = inl (true, bytes_before (S k))
          /\ count is_retry_warning (fst r)
             = (if quiet args then 0 else 1)%nat
     else snd r = inr EXIT_FAILURE
          /\ count is_retry_warning (fst r) = 0%nat.
Proof.
  induction n as [|n IH]; intros i Hik Hbefore Hfail; [lia|].
  cbn [reconstruct_loop].
  destruct (reconstruct_call_run i) as (t & Hcall & Hrec & Hwarn).
  rewrite (bind_value _ _ _ _ Hcall). cbn [fst snd].
  destruct (Nat.eq_dec i k) as [->|Hne].
  - rewrite Hfail. cbn [negb]. clear IH.
    destruct (bytes_empty (bytes_before (S k))); [destruct (quiet args)|];
      cbn [when bind emit ret leave fst snd negb app];
      rewrite ?app_nil_r;
      repeat first [rewrite count_app | rewrite count_cons
                   | rewrite Hrec | rewrite Hwarn];
      cbn [is_reconstruct_call is_retry_warning count filter List.length];
      (split; [lia | split; reflexivity]).
  - rewrite (Hbefore i) by lia. cbn [negb].
    specialize (IH (S i) ltac:(lia)
                  (fun j Hj => Hbefore j ltac:(lia)) Hfail).
    cbn zeta in IH. destruct IH as [IHcount IHcase].
    rewrite count_app, !count_cons, Hrec, IHcount.
    rewrite (count_app is_retry_warning), (count_cons is_retry_warning), Hwarn.
    cbn [is_reconstruct_call is_retry_warning].
    split; [lia|].
    destruct (bytes_empty (bytes_before (S k)));
      destruct IHcase as [-> ->]; split; reflexivity.
Qed.

(** The reconstruct block when iteration [k] is the first to fail. *)
Lemma reconstruct_block_first_failure (k : nat) (filename_out : string) :
  (k < num_reps args)%nat ->
  (forall j, (j < k)%nat -> succeeds j = true) ->
  succeeds k = false ->
  let r := reconstruct_block env args compressed filename_out in
  count is_reconstruct_call (fst r) = S k
  /\ if bytes_empty (bytes_before (S k))
     then snd r = inl true
          /\ count is_retry_warning (fst r)
             = (if quiet args then 0 else 1)%nat
     else snd r = inr EXIT_FAILURE
          /\ count is_retry_warning (fst r) = 0%nat.
Proof.
  intros Hk Hbefore Hfail.
  pose proof (reconstruct_loop_first_failure k (num_reps args) 0%nat
                ltac:(lia) (fun j Hj => Hbefore j ltac:(lia)) Hfail) as H.
  cbn zeta in H.
  change (jpeg_bytes_before env args compressed 0) with (@nil Byte.byte) in H.
  destruct H as [Hcount Hcase].
  unfold reconstruct_block. cbn zeta.
  rewrite fst_bind, snd_bind. cbn [emit fst snd].
  destruct (reconstruct_loop env args compressed (num_reps args) 0 [])
    as [tl rl]. cbn [fst snd] in *.
  destruct (bytes_empty (bytes_before (S k))) eqn:Hempty.
  - destruct Hcase as [-> Hwarn].
    cbn [bind fst snd]. rewrite Hempty. cbn [negb bind ret fst snd].
    rewrite !app_nil_r.
    change (([Enter ReconstructPath] ++ tl)%list)
      with (Enter ReconstructPath :: tl).
    rewrite !count_cons, Hcount, Hwarn. cbn. repeat split; lia.
  - destruct Hcase as [-> Hwarn]. cbn [bind fst snd].
    change (([Enter ReconstructPath] ++ tl)%list)
      with (Enter ReconstructPath :: tl).
    rewrite !count_cons, Hcount, Hwarn. cbn. repeat split; lia.
Qed.

End ReconstructFacts.

(** Case analysis on an event, for the exclusion facts below. *)
Ltac event_cases :=
  let e := fresh "e" in
  let H := fresh "H" in
  intros e H; destruct e; try discriminate H; try reflexivity;
  repeat match goal with
         | m : Message |- _ => destruct m
         | site : WriteSite |- _ => destruct site
         | p : Path |- _ => destruct p
         end;
  try discriminate H; reflexivity.

Section PathFacts.

Lemma pixel_no_reconstruct :
  forall e, pixel_event e = true -> is_reconstruct_call e = false.
Proof. event_cases. Qed.

Lemma pixel_no_retry :
  forall e, pixel_event e = true -> is_retry_warning e = false.
Proof. event_cases. Qed.

Lemma pixel_no_enter :
  forall e, pixel_event e = true -> is_enter e = false.
Proof. event_cases. Qed.

Lemma reconstruct_no_decode :
  forall e, reconstruct_event e = true -> is_decode_call e = false.
Proof. event_cases. Qed.

Lemma reconstruct_no_enter :
  forall e, reconstruct_event e = true -> is_enter e = false.
Proof. event_cases. Qed.

Lemma bookkeeping_no_reconstruct :
  forall e, bookkeeping_event e = true -> is_reconstruct_call e = false.
Proof. event_cases. Qed.

Lemma bookkeeping_no_retry :
  forall e, bookkeeping_event e = true -> is_retry_warning e = false.
Proof. event_cases. Qed.

Lemma bookkeeping_no_enter :
  forall e, bookkeeping_event e = true -> is_enter e = false.
Proof. event_cases. Qed.

Lemma bookkeeping_no_decode :
  forall e, bookkeeping_event e = true -> is_decode_call e = false.
Proof. event_cases. Qed.

Lemma statistics_bookkeeping (A : Type) (r : A + Outcome) (silent : bool) :
  forallb bookkeeping_event
    match r with
    | inl _ => if silent then [] else [StatsPrint]
    | inr _ => []
    end = true.
Proof. destruct r, silent; reflexivity. Qed.

End PathFacts.

(** ** The claims on the reconstruct path and the choice of the path *)

Section PathClaims.

Variable env : Collaborators.
Variable args : DecompressArgs.
Variable cmdline : CommandLineParser.
Variable compressed : bytes.

Local Notation "'pixels_of_main'" :=
  (main_pixel_block env args cmdline compressed).

Lemma pixels_of_main_events :
  exists t,
    fst pixels_of_main = Enter PixelPath :: t
    /\ forallb pixel_event t = true.
Proof.
  unfold main_pixel_block.
  destruct (output_target env args) as [[filename_out extension] codec].
  apply pixel_block_events.
Qed.

(** C1, as amended: on the reconstruct path, let iteration [k] be the first
    whose reconstruct call fails.  If the buffer is empty when that call
    returns, [main] prints the retry warning once unless [--quiet] is set,
    in which case it prints none; it then enters the pixel block once,
    after the [k + 1] reconstruct calls and never before one, and its exit
    status is the one of the pixel block.  If the buffer holds bytes, [main]
    exits with [EXIT_FAILURE], without entering the pixel block and without
    a decode call. *)
Theorem reconstruct_failure_handling (k : nat) :
  initial_decode_to_pixels args cmdline (snd (output_target env args))
  = false ->
  (k < num_reps args)%nat ->
  (forall j, (j < k)%nat -> reconstruct_succeeds env args compressed j = true) ->
  reconstruct_succeeds env args compressed k = false ->
  let run := main env args cmdline compressed in
  if bytes_empty (jpeg_bytes_before env args compressed (S k))
  then
    count is_retry_warning (fst run) = (if quiet args then 0 else 1)%nat
    /\ entered (fst run) = [ReconstructPath; PixelPath]
    /\ count is_reconstruct_call (fst run) = S k
    /\ (exists t1 t2,
          fst run = (t1 ++ Enter PixelPath :: t2)%list
          /\ count is_reconstruct_call t1 = S k
          /\ count is_reconstruct_call t2 = 0%nat
          /\ count is_retry_warning t2 = 0%nat)
    /\ snd run = outcome_of (snd pixels_of_main)
  else
    snd run = EXIT_FAILURE
    /\ entered (fst run) = [ReconstructPath]
    /\ count is_decode_call (fst run) = 0%nat
    /\ count is_reconstruct_call (fst run) = S k.
Proof.
  intros Hpath Hk Hbefore Hfail run. subst run.
  destruct (reconstruct_needs_output env args cmdline Hpath) as [Hout _].
  rewrite main_run by (left; exact Hout).
  rewrite decode_paths_reconstruct by assumption.
  destruct preamble_run with (env := env) (args := args) as [_ Hpre].
  destruct pixels_of_main_events as (tp & Hpix & Hpixev).
  unfold main_pixel_block in *.
  destruct (output_target env args) as [[filename_out extension] codec].
  pose proof (reconstruct_block_first_failure env args compressed k
                filename_out Hk Hbefore Hfail) as Hblock.
  cbn zeta in Hblock. destruct Hblock as [Hcalls Hcase].
  destruct (reconstruct_block_events env args compressed filename_out)
    as (tr & Hrec & Hrecev).
  set (pix := pixel_block env args _ _ compressed filename_out extension)
    in *.
  cbn [fst snd].
  destruct (bytes_empty (jpeg_bytes_before env args compressed (S k))).
  - destruct Hcase as [Hsnd Hwarn].
    rewrite fst_bind, snd_bind, Hsnd.
    pose proof (statistics_bookkeeping unit (snd pix) (quiet args)) as Hpost.
    set (post := match snd pix with
                 | inl _ => if quiet args then [] else [StatsPrint]
                 | inr _ => []
                 end) in *.
    repeat split.
    + rewrite !count_app, Hwarn, Hpix, count_cons.
      rewrite (count_excluded _ _ _ Hpre bookkeeping_no_retry).
      rewrite (count_excluded _ _ _ Hpixev pixel_no_retry).
      rewrite (count_excluded _ _ _ Hpost bookkeeping_no_retry).
      cbn [is_retry_warning]. lia.
    + rewrite !entered_app, Hrec, Hpix. cbn [entered].
      rewrite (entered_excluded _ _ Hpre bookkeeping_no_enter).
      rewrite (entered_excluded _ _ Hrecev reconstruct_no_enter).
      rewrite (entered_excluded _ _ Hpixev pixel_no_enter).
      rewrite (entered_excluded _ _ Hpost bookkeeping_no_enter).
      reflexivity.
    + rewrite !count_app, Hcalls, Hpix, count_cons.
      rewrite (count_excluded _ _ _ Hpre bookkeeping_no_reconstruct).
      rewrite (count_excluded _ _ _ Hpixev pixel_no_reconstruct).
      rewrite (count_excluded _ _ _ Hpost bookkeeping_no_reconstruct).
      cbn [is_reconstruct_call]. lia.
    + exists (fst (preamble env args)
              ++ fst (reconstruct_block env args compressed filename_out))%list,
             (tp ++ post)%list.
      repeat split.
      * rewrite Hpix, <- !app_assoc. reflexivity.
      * rewrite count_app, Hcalls.
        rewrite (count_excluded _ _ _ Hpre bookkeeping_no_reconstruct).
        reflexivity.
      * rewrite count_app.
        rewrite (count_excluded _ _ _ Hpixev pixel_no_reconstruct).
        rewrite (count_excluded _ _ _ Hpost bookkeeping_no_reconstruct).
        reflexivity.
      * rewrite count_app.
        rewrite (count_excluded _ _ _ Hpixev pixel_no_retry).
        rewrite (count_excluded _ _ _ Hpost bookkeeping_no_retry).
        reflexivity.
  - destruct Hcase as [Hsnd Hwarn].
    rewrite fst_bind, snd_bind, Hsnd. cbn [outcome_of].
    rewrite !app_nil_r.
    repeat split.
    + rewrite entered_app, Hrec. cbn [entered].
      rewrite (entered_excluded _ _ Hpre bookkeeping_no_enter).
      rewrite (entered_excluded _ _ Hrecev reconstruct_no_enter).
      reflexivity.
    + rewrite count_app, Hrec, count_cons.
      rewrite (count_excluded _ _ _ Hpre bookkeeping_no_decode).
      rewrite (count_excluded _ _ _ Hrecev reconstruct_no_decode).
      reflexivity.
    + rewrite count_app, Hcalls.
      rewrite (count_excluded _ _ _ Hpre bookkeeping_no_reconstruct).
      reflexivity.
Qed.

(** The choice of the path on a command line with an output file or
    [--disable_output], and the blocks [main] enters, read from the result
    of the reconstruct block. *)
Lemma main_enters_chosen_path :
  (opt_jpeg_quality_id args < 0 -> pixels_to_jpeg args = false) ->
  (file_out args <> None \/ disable_output args = true) ->
  let codec := snd (output_target env args) in
  let filename_out := fst (fst (output_target env args)) in
  let to_pixels := initial_decode_to_pixels args cmdline codec in
  let run := main env args cmdline compressed in
  (to_pixels = false <->
   (exists path,
      file_out args = Some path /\ disable_output args = false
      /\ fst (CodecFromPath env path (initial_extension args)) = kJPG)
   /\ pixels_to_jpeg args = false
   /\ jpeg_quality_matched args cmdline = false)
  /\ (file_out args = None \/ disable_output args = true ->
      codec = kUnknown /\ to_pixels = true)
  /\ (exists pre rest,
        fst run
        = (pre ++ Enter (if to_pixels then PixelPath else ReconstructPath)
               :: rest)%list
        /\ forallb bookkeeping_event pre = true)
  /\ entered (fst run)
     = if to_pixels then [PixelPath]
       else ReconstructPath
            :: match snd (reconstruct_block env args compressed filename_out)
               with
               | inl true => [PixelPath]
               | _ => []
               end.
Proof.
  intros Hreg Hvalid codec filename_out to_pixels run.
  assert (Hchoice :
    to_pixels = false <->
    (exists path,
       file_out args = Some path /\ disable_output args = false
       /\ fst (CodecFromPath env path (initial_extension args)) = kJPG)
    /\ pixels_to_jpeg args = false
    /\ jpeg_quality_matched args cmdline = false).
  { subst to_pixels codec.
    unfold initial_decode_to_pixels, jpeg_quality_matched, output_target.
    destruct (file_out args) as [path|].
    - destruct (disable_output args).
      + cbn [snd codec_eqb negb]. split.
        * destruct (_ && _); discriminate.
        * intros [(p & _ & H & _) _]. discriminate.
      + destruct (CodecFromPath env path (initial_extension args))
          as [c e] eqn:Ecodec. cbn [snd fst negb].
        destruct (0 <=? opt_jpeg_quality_id args) eqn:Eid.
        * cbn [andb].
          destruct (pixels_to_jpeg args),
            (option_matched cmdline (opt_jpeg_quality_id args));
            cbn [orb]; split; try discriminate;
            try (intros (_ & H1 & H2); discriminate).
          -- intros H. destruct c; try discriminate H.
             repeat split. exists path. rewrite Ecodec. auto.
          -- intros [(p & Hp & _ & Hc) _]. injection Hp as <-.
             rewrite Ecodec in Hc. cbn in Hc. now subst c.
        * apply Z.leb_gt in Eid. rewrite (Hreg Eid). cbn [andb].
          split.
          -- intros H. destruct c; try discriminate H.
             repeat split. exists path. rewrite Ecodec. auto.
          -- intros [(p & Hp & _ & Hc) _]. injection Hp as <-.
             rewrite Ecodec in Hc. cbn in Hc. now subst c.
    - cbn [snd codec_eqb negb]. split.
      + destruct (_ && _); discriminate.
      + intros [(p & H & _) _]. discriminate. }
  assert (Hunknown : file_out args = None \/ disable_output args = true ->
                     codec = kUnknown /\ to_pixels = true).
  { subst to_pixels codec. unfold initial_decode_to_pixels, output_target.
    intros [H|H]; rewrite H.
    - cbn. destruct (_ && _); auto.
    - destruct (file_out args); cbn; destruct (_ && _); auto. }
  split; [exact Hchoice|]. split; [exact Hunknown|].
  subst run. rewrite main_run by assumption.
  destruct preamble_run with (env := env) (args := args) as [_ Hpre].
  destruct pixels_of_main_events as (tp & Hpix & Hpixev).
  cbn [fst].
  destruct to_pixels eqn:Epath; subst to_pixels codec.
  - rewrite decode_paths_pixels by assumption.
    fold (main_pixel_block env args cmdline compressed).
    pose proof (statistics_bookkeeping unit
                  (snd (main_pixel_block env args cmdline compressed))
                  (quiet args)) as Hpost.
    rewrite Hpix. split.
    + eexists _, _. split; [reflexivity | exact Hpre].
    + rewrite !entered_app. cbn [entered].
      rewrite (entered_excluded _ _ Hpre bookkeeping_no_enter).
      rewrite (entered_excluded _ _ Hpixev pixel_no_enter).
      rewrite (entered_excluded _ _ Hpost bookkeeping_no_enter).
      reflexivity.
  - rewrite decode_paths_reconstruct by assumption.
    unfold main_pixel_block in *. subst filename_out.
    destruct (output_target env args) as [[filename_out extension] codec].
    cbn [fst snd].
    destruct (reconstruct_block_events env args compressed filename_out)
      as (tr & Hrec & Hrecev).
    set (pix := pixel_block env args _ _ compressed filename_out extension)
      in *.
    rewrite fst_bind, snd_bind, Hrec. split.
    + eexists _, _. split; [|exact Hpre].
      cbn [app]. rewrite <- !app_assoc. reflexivity.
    + rewrite !entered_app. cbn [entered].
      rewrite (entered_excluded _ _ Hpre bookkeeping_no_enter).
      rewrite (entered_excluded _ _ Hrecev reconstruct_no_enter).
      destruct (snd (reconstruct_block env args compressed filename_out))
        as [[|]|o].
      * pose proof (statistics_bookkeeping unit (snd pix) (quiet args))
          as Hpost.
        rewrite Hpix. cbn [entered].
        rewrite (entered_excluded _ _ Hpixev pixel_no_enter).
        rewrite (entered_excluded _ _ Hpost bookkeeping_no_enter).
        reflexivity.
      * cbn [ret fst snd entered app].
        destruct (quiet args); reflexivity.
      * reflexivity.
Qed.

End PathClaims.

Lemma reconstruct_failure_handling_witness :
  (let run := main (sample_env kJPG ".jpg" never_reconstructs true)
                   (sample_args (Some "out.jpg") 3 false false false "white")
                   sample_cmdline [] in
   count is_retry_warning (fst run) = 1%nat
   /\ entered (fst run) = [ReconstructPath; PixelPath]
   /\ count is_reconstruct_call (fst run) = 1%nat)
  /\ (let run := main (sample_env kJPG ".jpg" reconstructs_once true)
                      (sample_args (Some "out.jpg") 3 false false false
                                   "white")
                      sample_cmdline [] in
      snd run = EXIT_FAILURE
      /\ entered (fst run) = [ReconstructPath]
      /\ count is_decode_call (fst run) = 0%nat).
Proof.
  split.
  - pose proof (reconstruct_failure_handling
                  (sample_env kJPG ".jpg" never_reconstructs true)
                  (sample_args (Some "out.jpg") 3 false false false "white")
                  sample_cmdline [] 0%nat eq_refl ltac:(simpl; lia)
                  ltac:(intros j Hj; lia) eq_refl) as H.
    cbv zeta in H.
    change (bytes_empty _) with true in H. cbv iota in H.
    destruct H as (H1 & H2 & H3 & _). cbv zeta. auto.
  - pose proof (reconstruct_failure_handling
                  (sample_env kJPG ".jpg" reconstructs_once true)
                  (sample_args (Some "out.jpg") 3 false false false "white")
                  sample_cmdline [] 1%nat eq_refl ltac:(simpl; lia)) as H.
    assert (Hfirst : forall j, (j < 1)%nat ->
              reconstruct_succeeds
                (sample_env kJPG ".jpg" reconstructs_once true)
                (sample_args (Some "out.jpg") 3 false false false "white")
                [] j = true).
    { intros j Hj. assert (j = 0%nat) as -> by lia. reflexivity. }
    specialize (H Hfirst eq_refl). cbv zeta in H.
    change (bytes_empty _) with false in H. cbv iota in H.
    destruct H as (H1 & H2 & H3 & _). cbv zeta. auto.
Defined.

(** C1 as stated fails under [--quiet]: the reconstruct call fails with an
    empty buffer, [main] goes on to the pixel block and exits with success,
    and no warning is printed. *)
Lemma quiet_fallback_prints_no_warning :
  let env := sample_env kJPG ".jpg" never_reconstructs true in
  let args := sample_args (Some "out.jpg") 3 false true false "white" in
  let run := main env args sample_cmdline [] in
  initial_decode_to_pixels args sample_cmdline (snd (output_target env args))
  = false
  /\ reconstruct_succeeds env args [] 0 = false
  /\ jpeg_bytes_before env args [] 1 = []
  /\ entered (fst run) = [ReconstructPath; PixelPath]
  /\ snd run = EXIT_SUCCESS
  /\ count is_retry_warning (fst run) = 0%nat
  /\ ~ In (Stderr MsgRetryWithPixels) (fst run).
Proof.
  cbv zeta. repeat split; try reflexivity.
  vm_compute. intuition discriminate.
Qed.

(** ** The pixel path *)

Section PixelFacts.

Variable env : Collaborators.
Variable args : DecompressArgs.
Variable compressed : bytes.

Lemma negotiate_with_encoder (filename_out extension : string)
    (encoder : Encoder) :
  string_empty filename_out = false ->
  Encoder_FromExtension env extension = Some encoder ->
  negotiate_formats env args filename_out extension
  = ([CallFromExtension extension],
     inl (if alpha_blend args
          then AddFormatsWithAlphaChannel (AcceptedFormats encoder)
          else AcceptedFormats encoder,
          Some encoder, AcceptsCmyk encoder)).
Proof.
  intros Hname Henc. unfold negotiate_formats. rewrite Hname, Henc.
  reflexivity.
Qed.

Lemma negotiate_without_output (filename_out extension : string) :
  string_empty filename_out = true ->
  negotiate_formats env args filename_out extension
  = ([], inl (pixel_only_formats, None, false)).
Proof.
  intros Hname. unfold negotiate_formats. rewrite Hname. reflexivity.
Qed.

(** Elapsed-time samples count the completed iterations: a loop that
    returns has made [n] calls and recorded [n] samples, and a loop that
    stops at a failed call has recorded one sample less than it made
    calls. *)
Lemma pixel_loop_samples (color_space' : string) (bits_per_sample' : Z)
    (formats : list JxlPixelFormat) (accepts_cmyk : bool) (n : nat) :
  forall i ppf decoded_bytes,
  let r := pixel_loop env args color_space' bits_per_sample' compressed
             formats accepts_cmyk n i ppf decoded_bytes in
  match snd r with
  | inl _ => count is_decode_call (fst r) = n
             /\ count is_elapsed_sample (fst r) = n
  | inr o => o = EXIT_FAILURE
             /\ count is_decode_call (fst r)
                = S (count is_elapsed_sample (fst r))
             /\ (count is_decode_call (fst r) <= n)%nat
  end.
Proof.
  induction n as [|n IH]; intros i ppf decoded_bytes; cbn zeta.
  - cbn. auto.
  - cbn [pixel_loop]. unfold DecompressJxlToPackedPixelFile.
    destruct (DecodeImageJXL env i _ compressed ppf decoded_bytes)
      as [[ok ppf'] decoded_bytes'].
    destruct ok.
    + specialize (IH (S i) ppf' decoded_bytes'). cbn zeta in IH.
      cbn [negb bind emit ret fst snd app].
      destruct (pixel_loop env args color_space' bits_per_sample' compressed
                  formats accepts_cmyk n (S i) ppf' decoded_bytes')
        as [t [v|o]]; cbn [fst snd] in *.
      * rewrite !count_cons. cbn [is_decode_call is_elapsed_sample].
        destruct IH as [-> ->]. split; reflexivity.
      * rewrite !count_cons. cbn [is_decode_call is_elapsed_sample].
        destruct IH as (-> & -> & Hle). repeat split; lia.
    + cbn. repeat split; lia.
Qed.

Lemma pixel_loop_succeeds (color_space' : string) (bits_per_sample' : Z)
    (formats : list JxlPixelFormat) (accepts_cmyk : bool) (n : nat) :
  (forall i dparams input ppf decoded_bytes,
     fst (fst (DecodeImageJXL env i dparams input ppf decoded_bytes)) = true) ->
  forall i ppf decoded_bytes,
  exists result,
    snd (pixel_loop env args color_space' bits_per_sample' compressed
           formats accepts_cmyk n i ppf decoded_bytes) = inl result.
Proof.
  intros Hok. induction n as [|n IH]; intros i ppf decoded_bytes.
  - eexists. reflexivity.
  - cbn [pixel_loop]. unfold DecompressJxlToPackedPixelFile.
    pose proof (Hok i (pixel_dparams args color_space' bits_per_sample'
                         formats accepts_cmyk)
                  compressed ppf decoded_bytes) as Hi.
    destruct (DecodeImageJXL env i _ compressed ppf decoded_bytes)
      as [[ok ppf'] decoded_bytes']. cbn [fst] in Hi. subst ok.
    cbn [negb bind emit ret fst snd app].
    destruct (IH (S i) ppf' decoded_bytes') as [result Hres].
    destruct (pixel_loop env args color_space' bits_per_sample' compressed
                formats accepts_cmyk n (S i) ppf' decoded_bytes')
      as [t r]. cbn [snd] in *. eauto.
Qed.

(** Every decode call of the loop offers the formats the loop was given. *)
Lemma pixel_loop_offers (color_space' : string) (bits_per_sample' : Z)
    (formats : list JxlPixelFormat) (accepts_cmyk : bool) (n : nat) :
  forall i ppf decoded_bytes,
  Forall (offers formats)
    (fst (pixel_loop env args color_space' bits_per_sample' compressed
            formats accepts_cmyk n i ppf decoded_bytes)).
Proof.
  induction n as [|n IH]; intros i ppf decoded_bytes.
  - constructor.
  - cbn [pixel_loop]. unfold DecompressJxlToPackedPixelFile.
    destruct (DecodeImageJXL env i _ compressed ppf decoded_bytes)
      as [[ok ppf'] decoded_bytes'].
    destruct ok.
    + specialize (IH (S i) ppf' decoded_bytes').
      cbn [negb bind emit ret fst snd app].
      destruct (pixel_loop env args color_space' bits_per_sample' compressed
                  formats accepts_cmyk n (S i) ppf' decoded_bytes')
        as [t r]. cbn [fst] in *.
      repeat constructor. exact IH.
    + cbn. repeat constructor.
Qed.

Lemma blend_stage_events (ppf : PackedPixelFile) :
  forallb blend_event (fst (blend_stage env args ppf)) = true.
Proof. unfold blend_stage. trace_all. Qed.

(** The blend stage when the background is rejected. *)
Lemma blend_stage_invalid (ppf : PackedPixelFile) :
  alpha_blend args = true ->
  ParseBackgroundColor (background_spec args) = ParseFalse ->
  blend_stage env args ppf
  = if fst (AlphaBlend env ppf Uninitialized)
    then ([Stderr (MsgInvalidBackground (background_spec args));
           CallAlphaBlend Uninitialized],
          inl (snd (AlphaBlend env ppf Uninitialized)))
    else ([Stderr (MsgInvalidBackground (background_spec args));
           CallAlphaBlend Uninitialized;
           Stderr MsgAlphaBlendFailed],
          inr EXIT_FAILURE).
Proof.
  intros Hblend Hparse. unfold blend_stage. rewrite Hblend, Hparse.
  cbn [bind emit ret leave app].
  destruct (AlphaBlend env ppf Uninitialized) as [ok ppf'].
  destruct ok; reflexivity.
Qed.

End PixelFacts.

(** Rewrites to zero a count over a trace whose events exclude the counted
    kind. *)
Ltac count_zero :=
  match goal with
  | H : forallb ?q ?t = true |- context [count ?p ?t] =>
      let Hx := fresh "Hx" in
      assert (Hx : forall e, q e = true -> p e = false) by event_cases;
      rewrite (count_excluded p q t H Hx); clear Hx
  end.

Section EncodeFacts.

Variable env : Collaborators.
Variable args : DecompressArgs.

Lemma Filename_one (filename extension : string) :
  Filename filename extension 0 0 1 1 = filename.
Proof.
  unfold Filename. destruct (filename =? "-")%string eqn:E.
  - apply String.eqb_eq in E. now subst.
  - cbn. destruct (extension =? ".ppm")%string; reflexivity.
Qed.

(** With one frame and no extra channel the encode stage writes the main
    output once, to the output file itself. *)
Lemma encode_stage_single (filename_out extension : string)
    (encoder : Encoder) (ppf : PackedPixelFile) (bitstream : bytes)
    (encoded_image : EncodedImage) :
  Encode encoder (encode_options args) ppf = Some encoded_image ->
  bitstreams encoded_image = [bitstream] ->
  extra_channel_bitstreams encoded_image = [] ->
  count is_main_write
    (fst (encode_stage env args filename_out extension encoder ppf)) = 1%nat
  /\ In (CallWriteFile MainOutput filename_out bitstream)
        (fst (encode_stage env args filename_out extension encoder ppf)).
Proof.
  intros Henc Hbits Hextra. unfold encode_stage, encode_options in *.
  rewrite Henc, Hbits, Hextra.
  replace (if output_extra_channels args then 1 + size_of [] else 1)
    with 1 by (destruct (output_extra_channels args); reflexivity).
  replace (if output_frames args || negb (coalescing args)
           then size_of [bitstream] else 1)
    with 1 by (destruct (output_frames args || negb (coalescing args));
               reflexivity).
  change (Z.to_nat 1) with 1%nat.
  cbn [layers_loop]. change (Z.to_nat 1) with 1%nat.
  cbn [frames_loop select_bitstream].
  rewrite Hbits. cbn [nth_error].
  change (to_int (Z.of_nat 0)) with 0. change (to_int 1) with 1.
  rewrite Filename_one.
  pose proof (optional_outputs_events env
                [(preview_out args, preview_bitstream encoded_image);
                 (icc_out args, icc ppf);
                 (orig_icc_out args, orig_icc ppf);
                 (metadata_out args, metadata encoded_image)]) as Hopt.
  destruct (write_optional_outputs env _) as [topt ropt].
  cbn [fst] in Hopt.
  destruct (use_sjpeg args), (quiet args),
    (WriteFile env filename_out bitstream);
    cbn [when negb bind emit ret leave fst snd app];
    rewrite ?app_nil_r;
    (split;
     [ repeat first [rewrite count_cons | rewrite count_app];
       cbn [is_main_write]; try count_zero; reflexivity
     | cbn [In]; rewrite ?in_app_iff; cbn [In]; tauto ]).
Qed.

End EncodeFacts.

Section PixelBlockFacts.

Variable env : Collaborators.
Variable args : DecompressArgs.
Variable cmdline : CommandLineParser.
Variable compressed : bytes.

Lemma finish_pixels_blended (filename_out extension : string)
    (encoder : Encoder) (ppf ppf' : PackedPixelFile) (decoded_bytes : Z)
    (tb : list Event) :
  blend_stage env args ppf = (tb, inl ppf') ->
  finish_pixels env args filename_out extension (Some encoder) ppf
                decoded_bytes
  = ((decoded_messages args decoded_bytes ++ tb
      ++ fst (encode_stage env args filename_out extension encoder ppf'))%list,
     snd (encode_stage env args filename_out extension encoder ppf')).
Proof.
  intros Hb. unfold finish_pixels, decoded_messages. rewrite Hb.
  destruct (quiet args), (print_read_bytes args);
    cbn [when negb bind emit ret fst snd app];
    destruct (encode_stage env args filename_out extension encoder ppf')
      as [te re]; reflexivity.
Qed.

Lemma finish_pixels_blend_failed (filename_out extension : string)
    (encoder : Encoder) (ppf : PackedPixelFile) (decoded_bytes : Z)
    (tb : list Event) (o : Outcome) :
  blend_stage env args ppf = (tb, inr o) ->
  finish_pixels env args filename_out extension (Some encoder) ppf
                decoded_bytes
  = ((decoded_messages args decoded_bytes ++ tb)%list, inr o).
Proof.
  intros Hb. unfold finish_pixels, decoded_messages. rewrite Hb.
  destruct (quiet args), (print_read_bytes args);
    cbn [when negb bind emit ret fst snd app]; reflexivity.
Qed.

Lemma decoded_messages_counts (decoded_bytes : Z) :
  count is_decode_call (decoded_messages args decoded_bytes) = 0%nat
  /\ count is_elapsed_sample (decoded_messages args decoded_bytes) = 0%nat
  /\ count is_encode_call (decoded_messages args decoded_bytes) = 0%nat
  /\ count is_main_write (decoded_messages args decoded_bytes) = 0%nat
  /\ count is_blend_call (decoded_messages args decoded_bytes) = 0%nat
  /\ count is_background_warning (decoded_messages args decoded_bytes)
     = 0%nat.
Proof.
  unfold decoded_messages.
  destruct (quiet args), (print_read_bytes args); cbn; repeat split.
Qed.

(** The pixel block with an encoder, once the decode loop has returned. *)
Lemma pixel_block_decoded (color_space' : string) (bits_per_sample' : Z)
    (filename_out extension : string) (encoder : Encoder)
    (tl : list Event) (ppf : PackedPixelFile) (decoded_bytes : Z) :
  string_empty filename_out = false ->
  Encoder_FromExtension env extension = Some encoder ->
  pixel_loop env args color_space' bits_per_sample' compressed
    (if alpha_blend args
     then AddFormatsWithAlphaChannel (AcceptedFormats encoder)
     else AcceptedFormats encoder)
    (AcceptsCmyk encoder) (num_reps args) 0 empty_ppf 0
  = (tl, inl (ppf, decoded_bytes)) ->
  pixel_block env args color_space' bits_per_sample' compressed
              filename_out extension
  = (Enter PixelPath :: CallFromExtension extension
       :: (tl ++ fst (finish_pixels env args filename_out extension
                        (Some encoder) ppf decoded_bytes))%list,
     snd (finish_pixels env args filename_out extension (Some encoder) ppf
            decoded_bytes)).
Proof.
  intros Hname Henc Hloop. unfold pixel_block.
  rewrite (negotiate_with_encoder env args _ _ _ Hname Henc).
  cbn [bind emit fst snd app]. rewrite Hloop.
  cbn [bind emit fst snd app].
  destruct (finish_pixels env args filename_out extension (Some encoder) ppf
              decoded_bytes) as [tf rf].
  reflexivity.
Qed.

(** On the pixel path [main] adds bookkeeping events only around the pixel
    block, and exits with its status. *)
Lemma main_on_pixel_path :
  file_out args <> None \/ disable_output args = true ->
  initial_decode_to_pixels args cmdline (snd (output_target env args))
  = true ->
  exists pre post,
    fst (main env args cmdline compressed)
    = (pre ++ fst (main_pixel_block env args cmdline compressed)
           ++ post)%list
    /\ forallb bookkeeping_event pre = true
    /\ forallb bookkeeping_event post = true
    /\ snd (main env args cmdline compressed)
       = outcome_of (snd (main_pixel_block env args cmdline compressed)).
Proof.
  intros Hvalid Hpix. rewrite main_run by assumption.
  rewrite decode_paths_pixels by assumption.
  fold (main_pixel_block env args cmdline compressed).
  destruct preamble_run with (env := env) (args := args) as [_ Hpre].
  eexists _, _. cbn [fst snd].
  split; [reflexivity|]. split; [exact Hpre|].
  split; [apply statistics_bookkeeping | reflexivity].
Qed.

Lemma output_needs_file :
  string_empty (fst (fst (output_target env args))) = false ->
  file_out args <> None \/ disable_output args = true.
Proof.
  unfold output_target. destruct (file_out args) as [path|].
  - intros _. left. discriminate.
  - cbn. discriminate.
Qed.

End PixelBlockFacts.

Section EncodeCounts.

Variable env : Collaborators.
Variable args : DecompressArgs.

(** The encode stage calls [Encode] once, whatever happens next. *)
Lemma encode_stage_counts (filename_out extension : string)
    (encoder : Encoder) (ppf : PackedPixelFile) :
  let t := fst (encode_stage env args filename_out extension encoder ppf) in
  count is_encode_call t = 1%nat
  /\ In (CallEncode ppf) t
  /\ count is_decode_call t = 0%nat
  /\ count is_elapsed_sample t = 0%nat
  /\ count is_blend_call t = 0%nat
  /\ count is_background_warning t = 0%nat.
Proof.
  cbn zeta.
  destruct (encode_stage_shape env args filename_out extension encoder ppf)
    as (rest & -> & Hrest).
  destruct (use_sjpeg args), (quiet args); cbn [app];
    repeat first [rewrite count_cons | rewrite count_app];
    cbn [is_encode_call is_decode_call is_elapsed_sample is_blend_call
         is_background_warning];
    repeat count_zero; cbn [In]; intuition.
Qed.

End EncodeCounts.

(** ** The claims on the pixel path *)

Section PixelClaims.

Variable env : Collaborators.
Variable args : DecompressArgs.
Variable cmdline : CommandLineParser.
Variable compressed : bytes.

Lemma forallb_In (q : Event -> bool) (t : list Event) (e : Event) :
  forallb q t = true -> In e t -> q e = true.
Proof. intros Hq. rewrite forallb_forall in Hq. apply Hq. Qed.

(** The run on the pixel path with [--alpha_blend] and a background that
    [ParseBackgroundColor] rejects, once the decode loop has returned. *)
Lemma rejected_background_run (encoder : Encoder)
    (ppf : PackedPixelFile) (decoded_bytes : Z) :
  let filename_out := fst (fst (output_target env args)) in
  let extension := snd (fst (output_target env args)) in
  let codec := snd (output_target env args) in
  initial_decode_to_pixels args cmdline codec = true ->
  string_empty filename_out = false ->
  Encoder_FromExtension env extension = Some encoder ->
  alpha_blend args = true ->
  ParseBackgroundColor (background_spec args) = ParseFalse ->
  snd (pixel_loop env args (effective_color_space args codec)
         (effective_bits_per_sample args cmdline codec extension)
         compressed (AddFormatsWithAlphaChannel (AcceptedFormats encoder))
         (AcceptsCmyk encoder) (num_reps args) 0 empty_ppf 0)
  = inl (ppf, decoded_bytes) ->
  let run := main env args cmdline compressed in
  let blended := AlphaBlend env ppf Uninitialized in
  count is_background_warning (fst run) = 1%nat
  /\ In (Stderr (MsgInvalidBackground (background_spec args))) (fst run)
  /\ count is_blend_call (fst run) = 1%nat
  /\ In (CallAlphaBlend Uninitialized) (fst run)
  /\ if fst blended
     then count is_encode_call (fst run) = 1%nat
          /\ In (CallEncode (snd blended)) (fst run)
          /\ snd run
             = outcome_of (snd (encode_stage env args filename_out extension
                                  encoder (snd blended)))
     else count is_encode_call (fst run) = 0%nat
          /\ snd run = EXIT_FAILURE.
Proof.
  intros filename_out extension codec Hpix Hname Henc Hblend Hparse Hresult
    run blended.
  pose proof (output_needs_file env args Hname) as Hvalid.
  destruct (main_on_pixel_path env args cmdline compressed Hvalid Hpix)
    as (pre & post & Hrun & Hpre & Hpost & Hsnd).
  subst run. rewrite Hrun, Hsnd. clear Hrun Hsnd.
  unfold main_pixel_block. subst filename_out extension codec.
  destruct (output_target env args) as [[filename_out extension] codec].
  cbn [fst snd] in *.
  set (cs := effective_color_space args codec) in *.
  set (bps := effective_bits_per_sample args cmdline codec extension) in *.
  pose proof (pixel_loop_events env args compressed cs bps
                (AddFormatsWithAlphaChannel (AcceptedFormats encoder))
                (AcceptsCmyk encoder) (num_reps args) 0%nat empty_ppf 0)
    as Hloopev.
  destruct (pixel_loop env args cs bps compressed
              (AddFormatsWithAlphaChannel (AcceptedFormats encoder))
              (AcceptsCmyk encoder) (num_reps args) 0 empty_ppf 0)
    as [tl rl] eqn:Hloop.
  cbn [fst snd] in *. subst rl.
  assert (Hloop' :
    pixel_loop env args cs bps compressed
      (if alpha_blend args
       then AddFormatsWithAlphaChannel (AcceptedFormats encoder)
       else AcceptedFormats encoder)
      (AcceptsCmyk encoder) (num_reps args) 0 empty_ppf 0
    = (tl, inl (ppf, decoded_bytes))) by (rewrite Hblend; exact Hloop).
  rewrite (pixel_block_decoded env args compressed cs bps filename_out
             extension encoder tl ppf decoded_bytes Hname Henc Hloop').
  pose proof (blend_stage_invalid env args ppf Hblend Hparse) as Hstage.
  destruct (decoded_messages_counts args decoded_bytes)
    as (_ & _ & Hm3 & _ & Hm5 & Hm6).
  subst blended. cbn [fst snd].
  destruct (AlphaBlend env ppf Uninitialized) as [ok ppf'].
  cbn [fst snd] in *. destruct ok.
  - rewrite (finish_pixels_blended env args filename_out extension encoder
               ppf ppf' decoded_bytes _ Hstage).
    cbn [fst snd].
    destruct (encode_stage_counts env args filename_out extension encoder
                ppf') as (He1 & Hin & _ & _ & He5 & He6).
    cbn zeta in *.
    set (te := fst (encode_stage env args filename_out extension encoder
                      ppf')) in *.
    repeat split.
    + repeat first [rewrite count_app | rewrite count_cons];
      repeat match goal with
             | |- context [count ?p []] => change (count p []) with 0%nat
             end.
      rewrite Hm6, He6. cbn [is_background_warning].
      repeat count_zero. lia.
    + rewrite ?in_app_iff. cbn [In]. rewrite ?in_app_iff. cbn [In]. tauto.
    + repeat first [rewrite count_app | rewrite count_cons];
      repeat match goal with
             | |- context [count ?p []] => change (count p []) with 0%nat
             end.
      rewrite Hm5, He5. cbn [is_blend_call].
      repeat count_zero. lia.
    + rewrite ?in_app_iff. cbn [In]. rewrite ?in_app_iff. cbn [In]. tauto.
    + repeat first [rewrite count_app | rewrite count_cons];
      repeat match goal with
             | |- context [count ?p []] => change (count p []) with 0%nat
             end.
      rewrite Hm3, He1. cbn [is_encode_call].
      repeat count_zero. lia.
    + rewrite ?in_app_iff. cbn [In]. rewrite ?in_app_iff. cbn [In].
      rewrite ?in_app_iff. tauto.
  - rewrite (finish_pixels_blend_failed env args filename_out extension
               encoder ppf decoded_bytes _ _ Hstage).
    cbn [fst snd outcome_of].
    repeat split.
    + repeat first [rewrite count_app | rewrite count_cons];
      repeat match goal with
             | |- context [count ?p []] => change (count p []) with 0%nat
             end.
      rewrite Hm6. cbn [is_background_warning count filter List.length].
      repeat count_zero. lia.
    + rewrite ?in_app_iff. cbn [In]. rewrite ?in_app_iff. cbn [In]. tauto.
    + repeat first [rewrite count_app | rewrite count_cons];
      repeat match goal with
             | |- context [count ?p []] => change (count p []) with 0%nat
             end.
      rewrite Hm5. cbn [is_blend_call count filter List.length].
      repeat count_zero. lia.
    + rewrite ?in_app_iff. cbn [In]. rewrite ?in_app_iff. cbn [In]. tauto.
    + repeat first [rewrite count_app | rewrite count_cons];
      repeat match goal with
             | |- context [count ?p []] => change (count p []) with 0%nat
             end.
      rewrite Hm3. cbn [is_encode_call count filter List.length].
      repeat count_zero. lia.
Qed.

End PixelClaims.

(** ** Decoding without an output file *)

Section PixelOnlyFacts.

Variable env : Collaborators.
Variable args : DecompressArgs.
Variable cmdline : CommandLineParser.
Variable compressed : bytes.

Example float_formats_eight : float_formats = pixel_only_formats.
Proof. reflexivity. Qed.

Lemma offers_excluded (q : Event -> bool) (formats : list JxlPixelFormat)
    (t : list Event) :
  forallb q t = true ->
  (forall e, q e = true -> is_decode_call e = false) ->
  Forall (offers formats) t.
Proof.
  intros Hq Hex. apply Forall_forall. intros e Hin.
  rewrite forallb_forall in Hq. specialize (Hex e (Hq e Hin)).
  destruct e; try exact I. discriminate.
Qed.

Lemma main_without_target :
  file_out args = None -> disable_output args = false ->
  main env args cmdline compressed = ([Stderr MsgNoOutputFile], EXIT_FAILURE).
Proof.
  intros Hfile Hdisable. unfold main, main_body.
  rewrite Hfile, Hdisable. reflexivity.
Qed.

(** The pixel block without an output file: the decode loop with the eight
    formats and no CMYK, then the two messages. *)
Lemma pixel_block_without_output (color_space' : string)
    (bits_per_sample' : Z) (filename_out extension : string) :
  string_empty filename_out = true ->
  let loop := pixel_loop env args color_space' bits_per_sample' compressed
                pixel_only_formats false (num_reps args) 0 empty_ppf 0 in
  fst (pixel_block env args color_space' bits_per_sample' compressed
         filename_out extension)
  = (Enter PixelPath
     :: fst loop
     ++ match snd loop with
        | inl (_, decoded_bytes) => decoded_messages args decoded_bytes
        | inr _ => []
        end)%list.
Proof.
  intros Hname loop. unfold pixel_block.
  rewrite (negotiate_without_output env args _ _ Hname).
  cbn [bind emit fst snd app]. fold loop.
  destruct loop as [tl [[ppf decoded_bytes]|o]];
    cbn [bind emit fst snd app].
  - unfold finish_pixels, decoded_messages.
    destruct (quiet args), (print_read_bytes args); reflexivity.
  - now rewrite app_nil_r.
Qed.

Lemma pixel_block_offers (color_space' : string) (bits_per_sample' : Z)
    (filename_out extension : string) :
  string_empty filename_out = true ->
  Forall (offers pixel_only_formats)
    (fst (pixel_block env args color_space' bits_per_sample' compressed
            filename_out extension)).
Proof.
  intros Hname. rewrite pixel_block_without_output by assumption.
  cbn zeta. constructor; [exact I|].
  apply Forall_app. split; [apply pixel_loop_offers|].
  destruct (snd (pixel_loop _ _ _ _ _ _ _ _ _ _ _)) as [[ppf d]|o];
    [|constructor].
  unfold decoded_messages.
  destruct (quiet args), (print_read_bytes args); repeat constructor.
Qed.

(** C8: without an output file name, the negotiation selects no encoder
    and yields exactly the eight floating-point formats, one to four
    channels in big and little endian with alignment 0; every decode call
    of the pixel block, and so of [main], offers this list, which is not
    empty, and the first iteration makes such a call. *)
Theorem pixel_only_decode_formats (color_space' : string)
    (bits_per_sample' : Z) (filename_out extension : string) :
  string_empty filename_out = true ->
  negotiate_formats env args filename_out extension
  = ([], inl (pixel_only_formats, None, false))
  /\ pixel_only_formats <> []
  /\ List.length pixel_only_formats = 8%nat
  /\ Forall (offers pixel_only_formats)
       (fst (pixel_block env args color_space' bits_per_sample' compressed
               filename_out extension))
  /\ (num_reps args <> 0%nat ->
      In (CallDecode 0 (pixel_dparams args color_space' bits_per_sample'
                          pixel_only_formats false))
         (fst (pixel_block env args color_space' bits_per_sample' compressed
                 filename_out extension)))
  /\ (filename_out = fst (fst (output_target env args)) ->
      Forall (offers pixel_only_formats)
        (fst (main env args cmdline compressed))).
Proof.
  intros Hname.
  split; [now apply negotiate_without_output|].
  split; [discriminate|]. split; [reflexivity|].
  split; [now apply pixel_block_offers|]. split.
  - intros Hreps. rewrite pixel_block_without_output by assumption.
    cbn zeta. right. apply in_or_app. left.
    destruct (num_reps args) as [|n]; [congruence|].
    cbn [pixel_loop]. unfold DecompressJxlToPackedPixelFile.
    rewrite !fst_bind. left. reflexivity.
  - intros Htarget.
    destruct (file_out args) as [path|] eqn:Hfile.
    2:{ destruct (disable_output args) eqn:Hdisable.
        - assert (Hvalid : file_out args <> None
                           \/ disable_output args = true) by now right.
          rewrite main_run by assumption.
          destruct preamble_run with (env := env) (args := args)
            as [_ Hpre].
          apply Forall_app. split;
            [eapply offers_excluded; [exact Hpre | event_cases]|].
          apply Forall_app. split;
            [|eapply offers_excluded;
              [apply statistics_bookkeeping | event_cases]].
          rewrite decode_paths_pixels.
          + unfold output_target. rewrite Hfile.
            apply pixel_block_offers. reflexivity.
          + unfold output_target, initial_decode_to_pixels.
            rewrite Hfile. cbn. now destruct (_ && _).
        - rewrite main_without_target by assumption.
          repeat constructor. }
    assert (Hvalid : file_out args <> None \/ disable_output args = true)
      by (left; congruence).
    rewrite main_run by assumption.
    destruct preamble_run with (env := env) (args := args) as [_ Hpre].
    apply Forall_app. split;
      [eapply offers_excluded; [exact Hpre | event_cases]|].
    apply Forall_app. split;
      [|eapply offers_excluded;
        [apply statistics_bookkeeping | event_cases]].
    unfold decode_paths.
    destruct (output_target env args) as [[fo ext] codec].
    cbn [fst] in Htarget. subst fo.
    destruct (initial_decode_to_pixels args cmdline codec); cbn [negb].
    + rewrite bind_ret_l. now apply pixel_block_offers.
    + rewrite fst_bind. apply Forall_app. split.
      * destruct (reconstruct_block_events env args compressed filename_out)
          as (tr & -> & Hrecev).
        constructor; [exact I|].
        eapply offers_excluded; [exact Hrecev | event_cases].
      * destruct (snd (reconstruct_block env args compressed filename_out))
          as [[|]|o]; try constructor.
        now apply pixel_block_offers.
Qed.

End PixelOnlyFacts.

(** ** Concrete runs *)

Lemma pixel_only_decode_formats_witness :
  let env := sample_env kPNG ".png" never_reconstructs true in
  let args := sample_args None 2 true false false "white" in
  Forall (offers pixel_only_formats) (fst (main env args sample_cmdline []))
  /\ count is_decode_call (fst (main env args sample_cmdline [])) = 2%nat.
Proof.
  cbv zeta.
  pose proof (pixel_only_decode_formats
                (sample_env kPNG ".png" never_reconstructs true)
                (sample_args None 2 true false false "white")
                sample_cmdline [] "" (-1) "" "" eq_refl) as H.
  destruct H as (_ & _ & _ & _ & _ & H).
  split; [exact (H eq_refl) | reflexivity].
Defined.

(** * Further properties *)

(** ** Filename: when the name changes *)

Section FilenameExtras.

Lemma app_eq_self (a b : string) : a ++ b = a -> b = "".
Proof.
  intros H. apply (app_cancel_l a). now rewrite app_empty_r.
Qed.

Lemma app_is_empty (a b : string) : a ++ b = "" -> a = "" /\ b = "".
Proof. destruct a; [auto | discriminate]. Qed.

(** X1: Inside the grid, and off standard output, the path given on the
    command line is kept as it is exactly for the first layer of an output
    with one frame: every other file gets a suffix. *)
Theorem Filename_keeps_name_iff (filename extension : string)
    (li fi nl nf : Z) :
  filename <> "-" -> 0 <= li < nl -> 0 <= fi < nf ->
  (Filename filename extension li fi nl nf = filename
   <-> nf = 1 /\ li = 0).
Proof.
  intros Hname Hli Hfi. rewrite Filename_grid by assumption.
  unfold Filename_spec. split.
  - intros H. apply app_eq_self in H.
    apply app_is_empty in H as [Hframe H].
    apply app_is_empty in H as [Hlayer _].
    split.
    + pose proof (length_frame_suffix fi nf Hfi) as Hlen.
      rewrite Hframe in Hlen. destruct (1 <? nf) eqn:E.
      * discriminate.
      * apply Z.ltb_ge in E. lia.
    + destruct (Z.eq_dec li 0) as [|Hpos]; [assumption|].
      rewrite layer_suffix_later in Hlayer by lia. discriminate.
  - intros [-> ->].
    unfold frame_suffix, layer_suffix, extension_suffix.
    change (1 <? 1) with false. change (0 <? 0) with false.
    rewrite !andb_false_r. cbn. now rewrite app_empty_r.
Qed.

Lemma Filename_keeps_name_iff_witness :
  Filename "out.png" ".png" 0 0 3 1 = "out.png"
  /\ Filename "out.png" ".png" 1 0 3 1 <> "out.png".
Proof.
  assert (Hname : "out.png" <> "-") by discriminate.
  split.
  - apply (Filename_keeps_name_iff "out.png" ".png" 0 0 3 1 Hname
             ltac:(lia) ltac:(lia)). split; reflexivity.
  - intros H.
    apply (Filename_keeps_name_iff "out.png" ".png" 1 0 3 1 Hname
             ltac:(lia) ltac:(lia)) in H. lia.
Defined.

End FilenameExtras.

(** ** What every event of a run satisfies *)

Section RunEvents.

Lemma Forall_bind {A B : Type} (P : Event -> Prop) (m : M A)
    (k : A -> M B) :
  Forall P (fst m) ->
  (forall a, snd m = inl a -> Forall P (fst (k a))) ->
  Forall P (fst (bind m k)).
Proof.
  intros Hm Hk. rewrite fst_bind. apply Forall_app. split; [exact Hm|].
  destruct (snd m) as [a|o]; [now apply Hk | constructor].
Qed.

End RunEvents.

(** One step of a proof that every event of a computation satisfies
    [run_event], keeping the tests that guard each event. *)
Ltac run_event_solve :=
  unfold run_event;
  repeat split; cbn; intros;
  try match goal with H : _ \/ _ |- _ => destruct H end;
  try discriminate; try assumption; try reflexivity.

Ltac run_step :=
  match goal with
  | |- Forall _ (fst (bind _ _)) => apply Forall_bind; [|intros]
  | |- Forall _ (fst (when (negb (quiet ?a)) _)) =>
      destruct (quiet a) eqn:?; cbn [when negb]
  | |- Forall _ (fst (when ?b _)) => destruct b eqn:?; cbn [when]
  | |- Forall _ (fst (ret _)) => constructor
  | |- Forall _ (fst (leave _)) => constructor
  | |- Forall _ (fst (emit (Stderr (if ?b then _ else _)))) => destruct b
  | |- Forall _ (fst (emit _)) =>
      apply Forall_cons; [run_event_solve | constructor]
  | |- Forall _ (fst (let (_, _) := ?x in _)) => destruct x eqn:?
  | |- Forall _ (fst (if negb ?x then _ else _)) =>
      destruct x eqn:?; cbn [negb]
  | |- Forall _ (fst (match ?x with _ => _ end)) => destruct x eqn:?
  end.

Ltac run_all := repeat run_step.

Section RunStages.

Variable env : Collaborators.
Variable args : DecompressArgs.
Variable compressed : bytes.
Variable filename_out : string.

Lemma reconstruct_loop_run_events (dparams : JXLDecompressParams) (n : nat) :
  forall i jpeg_bytes,
  Forall (run_event args filename_out dparams)
    (fst (reconstruct_loop env args compressed n i jpeg_bytes)).
Proof.
  induction n as [|n IH]; intros i jpeg_bytes; cbn [reconstruct_loop].
  - constructor.
  - apply Forall_bind.
    + unfold DecompressJxlReconstructJPEG. run_all.
    + intros [ok jpeg_bytes'] _. destruct ok; cbn [negb]; [apply IH|].
      run_all.
Qed.

Lemma reconstruct_block_run_events (dparams : JXLDecompressParams) :
  Forall (run_event args filename_out dparams)
    (fst (reconstruct_block env args compressed filename_out)).
Proof.
  unfold reconstruct_block.
  apply Forall_bind; [run_all|]. intros _ _.
  apply Forall_bind; [apply reconstruct_loop_run_events|].
  intros [decode_to_pixels jpeg_bytes] _.
  run_all.
Qed.

Lemma pixel_loop_run_events (color_space' : string) (bits_per_sample' : Z)
    (formats : list JxlPixelFormat) (accepts_cmyk : bool) (n : nat) :
  forall i ppf decoded_bytes,
  Forall (run_event args filename_out
            (pixel_dparams args color_space' bits_per_sample' formats
               accepts_cmyk))
    (fst (pixel_loop env args color_space' bits_per_sample' compressed
            formats accepts_cmyk n i ppf decoded_bytes)).
Proof.
  induction n as [|n IH]; intros i ppf decoded_bytes; cbn [pixel_loop].
  - constructor.
  - apply Forall_bind.
    + unfold DecompressJxlToPackedPixelFile. run_all.
    + intros [[ok ppf'] decoded_bytes'] _. destruct ok; cbn [negb];
        [apply IH|]. run_all.
Qed.

Hypothesis Hname : string_empty filename_out = false.

Lemma blend_stage_run_events (dparams : JXLDecompressParams)
    (ppf : PackedPixelFile) :
  Forall (run_event args filename_out dparams)
    (fst (blend_stage env args ppf)).
Proof. unfold blend_stage. run_all. Qed.

Lemma frames_loop_run_events (dparams : JXLDecompressParams)
    (extension : string) (encoded_image : EncodedImage)
    (nlayers nframes : Z) (i n : nat) :
  forall j,
  Forall (run_event args filename_out dparams)
    (fst (frames_loop env args filename_out extension encoded_image
            nlayers nframes i n j)).
Proof.
  induction n as [|n IH]; intros j; cbn [frames_loop]; [constructor|].
  destruct (select_bitstream encoded_image i j); [|constructor].
  apply Forall_bind; [run_all|]. intros _ _.
  destruct (WriteFile env _ _); cbn [negb]; [|constructor].
  apply Forall_bind; [run_all | intros _ _; apply IH].
Qed.

Lemma layers_loop_run_events (dparams : JXLDecompressParams)
    (extension : string) (encoded_image : EncodedImage)
    (nlayers nframes : Z) (n : nat) :
  forall i,
  Forall (run_event args filename_out dparams)
    (fst (layers_loop env args filename_out extension encoded_image
            nlayers nframes n i)).
Proof.
  induction n as [|n IH]; intros i; cbn [layers_loop]; [constructor|].
  apply Forall_bind; [apply frames_loop_run_events | intros _ _; apply IH].
Qed.

Lemma optional_outputs_run_events (dparams : JXLDecompressParams)
    (outputs : list (string * bytes)) :
  Forall (run_event args filename_out dparams)
    (fst (write_optional_outputs env outputs)).
Proof.
  induction outputs as [|[filename contents] rest IH];
    cbn [write_optional_outputs]; [constructor|].
  apply Forall_bind.
  - unfold WriteOptionalOutput. run_all.
  - intros ok _. destruct ok; cbn [negb]; [apply IH | constructor].
Qed.

Lemma encode_stage_run_events (dparams : JXLDecompressParams)
    (extension : string) (encoder : Encoder) (ppf : PackedPixelFile) :
  Forall (run_event args filename_out dparams)
    (fst (encode_stage env args filename_out extension encoder ppf)).
Proof.
  unfold encode_stage.
  do 4 (apply Forall_bind; [run_all|]; intros _ _).
  destruct (Encode encoder _ ppf) as [encoded_image|]; [|run_all].
  apply Forall_bind; [apply layers_loop_run_events|]. intros _ _.
  apply optional_outputs_run_events.
Qed.

End RunStages.

Section RunMain.

Variable env : Collaborators.
Variable args : DecompressArgs.
Variable cmdline : CommandLineParser.
Variable compressed : bytes.

Lemma negotiate_encoder_needs_name (filename_out extension : string)
    (formats : list JxlPixelFormat) (encoder : Encoder) (accepts_cmyk : bool) :
  snd (negotiate_formats env args filename_out extension)
  = inl (formats, Some encoder, accepts_cmyk) ->
  string_empty filename_out = false.
Proof.
  unfold negotiate_formats. destruct (string_empty filename_out);
    [discriminate | reflexivity].
Qed.

Lemma finish_pixels_run_events (dparams : JXLDecompressParams)
    (filename_out extension : string) (encoder : option Encoder)
    (ppf : PackedPixelFile) (decoded_bytes : Z) :
  (encoder <> None -> string_empty filename_out = false) ->
  Forall (run_event args filename_out dparams)
    (fst (finish_pixels env args filename_out extension encoder ppf
            decoded_bytes)).
Proof.
  intros Hname. unfold finish_pixels.
  do 2 (apply Forall_bind; [run_all|]; intros _ _).
  destruct encoder as [encoder|]; [|constructor].
  specialize (Hname ltac:(discriminate)).
  apply Forall_bind; [now apply blend_stage_run_events|]. intros ppf' _.
  now apply encode_stage_run_events.
Qed.

Lemma negotiate_run_events (dparams : JXLDecompressParams)
    (filename_out extension : string) :
  Forall (run_event args filename_out dparams)
    (fst (negotiate_formats env args filename_out extension)).
Proof. unfold negotiate_formats. run_all. Qed.

(** Every event of the pixel block of a run. *)
Lemma pixel_block_run_events (color_space' : string) (bits_per_sample' : Z)
    (filename_out extension : string) :
  Forall (run_event args filename_out
            match snd (negotiate_formats env args filename_out extension) with
            | inl (formats, _, accepts_cmyk) =>
                pixel_dparams args color_space' bits_per_sample' formats
                  accepts_cmyk
            | inr _ => pixel_dparams args color_space' bits_per_sample' []
                         false
            end)
    (fst (pixel_block env args color_space' bits_per_sample' compressed
            filename_out extension)).
Proof.
  unfold pixel_block.
  apply Forall_bind; [run_all|]. intros _ _.
  apply Forall_bind; [apply negotiate_run_events|].
  intros [[formats encoder] accepts_cmyk] Hneg. rewrite Hneg.
  apply Forall_bind; [apply pixel_loop_run_events|].
  intros [ppf decoded_bytes] _.
  apply finish_pixels_run_events. intros Henc.
  destruct encoder as [encoder|]; [|congruence].
  eapply negotiate_encoder_needs_name, Hneg.
Qed.

(** Every event of a run of [main]: what is guarded by [!args.quiet] is
    emitted only when [--quiet] is off, the encoder and the writes are
    reached only with an output file name, and every decode call passes the
    parameters of the run. *)
Lemma main_run_events :
  Forall (run_event args (fst (fst (output_target env args)))
            (run_dparams env args cmdline))
    (fst (main env args cmdline compressed)).
Proof.
  assert (Hcases : (file_out args = None /\ disable_output args = false)
                   \/ (file_out args <> None \/ disable_output args = true)).
  { destruct (file_out args); [right; left; discriminate|].
    destruct (disable_output args); auto. }
  destruct Hcases as [[Hfile Hdisable]|Hvalid].
  { rewrite main_without_target by assumption.
    apply Forall_cons; [run_event_solve | constructor]. }
  rewrite main_run by assumption. cbn [fst].
  apply Forall_app; split;
    [ unfold preamble; run_all;
      match goal with
      | H : (_ && negb (quiet args)) = true |- _ =>
          apply andb_true_iff in H as [_ H];
          now apply negb_true_iff in H
      end
    | apply Forall_app; split;
      [| destruct (snd (decode_paths _ _ _ _));
         [destruct (quiet args) eqn:Hq|];
         [ constructor
         | apply Forall_cons; [run_event_solve | constructor]
         | constructor ] ] ].
  unfold decode_paths, run_dparams.
  destruct (output_target env args) as [[filename_out extension] codec].
  cbn [fst].
  apply Forall_bind;
    [ destruct (initial_decode_to_pixels args cmdline codec); cbn [negb];
      [constructor | apply reconstruct_block_run_events]
    | intros [|] _; [apply pixel_block_run_events | constructor] ].
Qed.

End RunMain.

(** ** The flags that silence a run or discard its output *)

Section RunFlags.

Variable env : Collaborators.
Variable args : DecompressArgs.
Variable cmdline : CommandLineParser.
Variable compressed : bytes.

(** X2: With [--quiet], [main] emits none of the events that the source
    guards with [!args.quiet]: no [VerbosePrintf], no statistics, neither
    the warning of the fallback nor the notice that the result is discarded.
    This holds on every path and whatever the collaborators answer. *)
Theorem quiet_silences_run (e : Event) :
  quiet args = true ->
  In e (fst (main env args cmdline compressed)) ->
  silenced_event e = false.
Proof.
  intros Hquiet Hin.
  pose proof (main_run_events env args cmdline compressed) as Hall.
  rewrite Forall_forall in Hall. destruct (Hall e Hin) as [Hsilent _].
  destruct (silenced_event e); [|reflexivity].
  specialize (Hsilent eq_refl). congruence.
Qed.

Lemma disabled_output_target :
  disable_output args = true ->
  output_target env args = ("", initial_extension args, kUnknown).
Proof.
  intros Hdisable. unfold output_target. rewrite Hdisable.
  now destruct (file_out args).
Qed.

(** X3: With [--disable_output], [main] never looks up an encoder, never
    blends, encodes or writes a file, and never tries to reconstruct a JPEG
    file, even when an output file and side outputs are named on the command
    line. *)
Theorem disable_output_writes_nothing (e : Event) :
  disable_output args = true ->
  In e (fst (main env args cmdline compressed)) ->
  output_call e = false /\ is_reconstruct_call e = false.
Proof.
  intros Hdisable Hin. split.
  - pose proof (main_run_events env args cmdline compressed) as Hall.
    rewrite Forall_forall in Hall. destruct (Hall e Hin) as (_ & Hout & _).
    rewrite (disabled_output_target Hdisable) in Hout. cbn in Hout.
    destruct (output_call e); [|reflexivity].
    specialize (Hout eq_refl). discriminate.
  - assert (Hvalid : file_out args <> None \/ disable_output args = true)
      by now right.
    assert (Hpix : initial_decode_to_pixels args cmdline
                     (snd (output_target env args)) = true).
    { rewrite (disabled_output_target Hdisable).
      unfold initial_decode_to_pixels. cbn. now destruct (_ && _). }
    destruct (main_on_pixel_path env args cmdline compressed Hvalid Hpix)
      as (pre & post & Htrace & Hpre & Hpost & _).
    destruct (pixels_of_main_events env args cmdline compressed)
      as (t & Hblock & Ht).
    rewrite Htrace, Hblock in Hin.
    rewrite forallb_forall in Hpre, Hpost, Ht.
    apply in_app_or in Hin as [Hin|Hin];
      [now apply bookkeeping_no_reconstruct, Hpre|].
    apply in_app_or in Hin as [Hin|Hin];
      [|now apply bookkeeping_no_reconstruct, Hpost].
    destruct Hin as [<-|Hin]; [reflexivity|].
    now apply pixel_no_reconstruct, Ht.
Qed.

(** X4: Every decode call of a run passes the same parameters, and these
    take the downsampling, the display luminance, the spot colour and
    coalescing switches and the tolerance for partial files from the command
    line as they are. *)
Theorem decode_calls_share_parameters (i : nat)
    (dparams : JXLDecompressParams) :
  In (CallDecode i dparams) (fst (main env args cmdline compressed)) ->
  dparams = run_dparams env args cmdline
  /\ max_downsampling dparams = downsampling args
  /\ dp_display_nits dparams = display_nits args
  /\ dp_render_spotcolors dparams = render_spotcolors args
  /\ dp_coalescing dparams = coalescing args
  /\ allow_partial_input dparams = allow_partial_files args.
Proof.
  intros Hin.
  pose proof (main_run_events env args cmdline compressed) as Hall.
  rewrite Forall_forall in Hall.
  destruct (Hall _ Hin) as (_ & _ & _ & Hd). cbn in Hd. subst dparams.
  split; [reflexivity|]. unfold run_dparams.
  destruct (output_target env args) as [[filename_out extension] codec].
  destruct (snd (negotiate_formats env args filename_out extension))
    as [[[formats encoder] accepts_cmyk]|o]; repeat split.
Qed.

End RunFlags.

Lemma quiet_silences_run_witness :
  let env := sample_env kPNG ".png" never_reconstructs true in
  let args := sample_args (Some "out.png") 2 false true false "white" in
  silenced_event (CallEncode empty_ppf) = false
  /\ count silenced_event (fst (main env args sample_cmdline [])) = 0%nat.
Proof.
  cbv zeta. split; [|reflexivity].
  apply (quiet_silences_run
           (sample_env kPNG ".png" never_reconstructs true)
           (sample_args (Some "out.png") 2 false true false "white")
           sample_cmdline [] (CallEncode empty_ppf) eq_refl).
  vm_compute. tauto.
Defined.

Lemma disable_output_writes_nothing_witness :
  let env := sample_env kJPG ".jpg" never_reconstructs true in
  let args := sample_args (Some "out.jpg") 2 true false false "white" in
  let first_call :=
    CallDecode 0 (pixel_dparams args "" (-1) pixel_only_formats false) in
  In first_call (fst (main env args sample_cmdline []))
  /\ output_call first_call = false
  /\ is_reconstruct_call first_call = false.
Proof.
  cbv zeta.
  assert (Hin :
    In (CallDecode 0
          (pixel_dparams
             (sample_args (Some "out.jpg") 2 true false false "white")
             "" (-1) pixel_only_formats false))
       (fst (main (sample_env kJPG ".jpg" never_reconstructs true)
               (sample_args (Some "out.jpg") 2 true false false "white")
               sample_cmdline []))).
  { vm_compute. tauto. }
  split; [exact Hin|].
  exact (disable_output_writes_nothing
           (sample_env kJPG ".jpg" never_reconstructs true)
           (sample_args (Some "out.jpg") 2 true false false "white")
           sample_cmdline [] _ eq_refl Hin).
Defined.

Lemma decode_calls_share_parameters_witness :
  let env := sample_env kPNG ".png" never_reconstructs true in
  let args := sample_args (Some "out.png") 2 false false false "white" in
  let dparams :=
    pixel_dparams args "" (-1) (AcceptedFormats sample_encoder) false in
  dparams = run_dparams env args sample_cmdline
  /\ max_downsampling dparams = 0.
Proof.
  cbv zeta.
  assert (Hin :
    In (CallDecode 1
          (pixel_dparams
             (sample_args (Some "out.png") 2 false false false "white")
             "" (-1) (AcceptedFormats sample_encoder) false))
       (fst (main (sample_env kPNG ".png" never_reconstructs true)
               (sample_args (Some "out.png") 2 false false false "white")
               sample_cmdline []))).
  { vm_compute. tauto. }
  destruct (decode_calls_share_parameters
              (sample_env kPNG ".png" never_reconstructs true)
              (sample_args (Some "out.png") 2 false false false "white")
              sample_cmdline [] 1 _ Hin) as (H1 & H2 & _).
  split; [exact H1 | exact H2].
Defined.

(** ** The parameters that depend on the output format *)

Section RunParameters.

Variable env : Collaborators.
Variable args : DecompressArgs.
Variable cmdline : CommandLineParser.
Variable compressed : bytes.

Local Notation "'run'" := (main env args cmdline compressed).
Local Notation "'target'" := (output_target env args).

Lemma run_decode_call (i : nat) (dparams : JXLDecompressParams) :
  In (CallDecode i dparams) (fst run) ->
  dparams = run_dparams env args cmdline.
Proof.
  intros Hin.
  pose proof (main_run_events env args cmdline compressed) as Hall.
  rewrite Forall_forall in Hall.
  now destruct (Hall _ Hin) as (_ & _ & _ & Hd).
Qed.

(** X5: For an EXR output every decode call asks for the linear colour space
    [RGB_D65_SRG_Rel_Lin], whatever [--color_space] says. *)
Theorem exr_forces_color_space (i : nat) (dparams : JXLDecompressParams) :
  snd target = kEXR ->
  In (CallDecode i dparams) (fst run) ->
  dp_color_space dparams = "RGB_D65_SRG_Rel_Lin".
Proof.
  intros Hcodec Hin. rewrite (run_decode_call _ _ Hin).
  unfold run_dparams.
  destruct target as [[filename_out extension] codec]. cbn [snd] in Hcodec.
  subst codec.
  destruct (snd (negotiate_formats env args filename_out extension))
    as [[[formats encoder] accepts_cmyk]|o]; reflexivity.
Qed.

(** X6: For a PNM output other than [.pfm], and unless [--jpeg_quality] was
    given, every decode call asks for the bit depth of the codestream,
    whatever [--bits_per_sample] says. *)
Theorem pnm_decodes_at_codestream_depth (i : nat)
    (dparams : JXLDecompressParams) :
  snd target = kPNM ->
  snd (fst target) <> ".pfm" ->
  jpeg_quality_matched args cmdline = false ->
  In (CallDecode i dparams) (fst run) ->
  output_bitdepth dparams = JXL_BIT_DEPTH_FROM_CODESTREAM.
Proof.
  intros Hcodec Hext Hquality Hin. rewrite (run_decode_call _ _ Hin).
  unfold run_dparams.
  destruct target as [[filename_out extension] codec].
  cbn [fst snd] in Hcodec, Hext. subst codec.
  assert (Hbits : effective_bits_per_sample args cmdline kPNM extension = 0).
  { unfold effective_bits_per_sample. cbn [codec_eqb andb].
    apply String.eqb_neq in Hext. rewrite Hext. cbn [negb andb].
    unfold jpeg_quality_matched in Hquality.
    destruct (opt_jpeg_quality_id args <? 0) eqn:Hid; [reflexivity|].
    apply Z.ltb_ge in Hid. apply Z.leb_le in Hid. rewrite Hid in Hquality.
    cbn [andb] in Hquality. now rewrite Hquality. }
  rewrite Hbits.
  destruct (snd (negotiate_formats env args filename_out extension))
    as [[[formats encoder] accepts_cmyk]|o]; reflexivity.
Qed.

(** X7: In every other case the depth follows [--bits_per_sample]: 0 asks
    for the depth of the codestream, a positive value for that many bits,
    and a negative one leaves the decoder's default. *)
Theorem decode_depth_follows_flag (i : nat) (dparams : JXLDecompressParams) :
  snd target <> kPNM \/ snd (fst target) = ".pfm"
  \/ jpeg_quality_matched args cmdline = true ->
  In (CallDecode i dparams) (fst run) ->
  output_bitdepth dparams
  = if bits_per_sample args =? 0 then JXL_BIT_DEPTH_FROM_CODESTREAM
    else if 0 <? bits_per_sample args
         then JXL_BIT_DEPTH_CUSTOM (bits_per_sample args)
         else BitDepthDefault.
Proof.
  intros Hcase Hin. rewrite (run_decode_call _ _ Hin).
  unfold run_dparams.
  destruct target as [[filename_out extension] codec].
  cbn [fst snd] in Hcase.
  assert (Hbits : effective_bits_per_sample args cmdline codec extension
                  = bits_per_sample args).
  { unfold effective_bits_per_sample.
    destruct Hcase as [Hcodec|[Hext|Hquality]].
    - destruct codec; try reflexivity. congruence.
    - subst extension. cbn [String.eqb Ascii.eqb negb andb].
      now rewrite andb_false_r.
    - unfold jpeg_quality_matched in Hquality.
      apply andb_true_iff in Hquality as [Hid Hmatched].
      apply Z.leb_le in Hid. rewrite Hmatched.
      replace (opt_jpeg_quality_id args <? 0) with false
        by (symmetry; apply Z.ltb_ge; lia).
      now rewrite andb_false_r. }
  rewrite Hbits.
  destruct (snd (negotiate_formats env args filename_out extension))
    as [[[formats encoder] accepts_cmyk]|o]; reflexivity.
Qed.

Lemma negotiate_accepts_cmyk (filename_out extension : string)
    (formats : list JxlPixelFormat) (encoder : option Encoder) :
  snd (negotiate_formats env args filename_out extension)
  = inl (formats, encoder, true) ->
  exists encoder',
    Encoder_FromExtension env extension = Some encoder'
    /\ AcceptsCmyk encoder' = true
    /\ string_empty filename_out = false.
Proof.
  unfold negotiate_formats.
  destruct (string_empty filename_out); cbn [negb]; [discriminate|].
  cbn [bind emit fst snd].
  destruct (Encoder_FromExtension env extension) as [encoder'|];
    [|discriminate].
  cbn. intros H. injection H as _ _ Hcmyk. eauto.
Qed.

(** X8: The decoder is left to hand CMYK data through only when the encoder
    of the output format accepts CMYK; in every other run, and so in every
    run without an output file, each decode call asks for a conversion to
    sRGB. *)
Theorem cmyk_needs_accepting_encoder (i : nat)
    (dparams : JXLDecompressParams) :
  In (CallDecode i dparams) (fst run) ->
  match color_space_for_cmyk dparams with
  | None =>
      exists encoder,
        Encoder_FromExtension env (snd (fst target)) = Some encoder
        /\ AcceptsCmyk encoder = true
        /\ string_empty (fst (fst target)) = false
  | Some color_space' => color_space' = "sRGB"
  end.
Proof.
  intros Hin. rewrite (run_decode_call _ _ Hin).
  unfold run_dparams.
  destruct target as [[filename_out extension] codec]. cbn [fst snd].
  destruct (snd (negotiate_formats env args filename_out extension))
    as [[[formats encoder] accepts_cmyk]|o] eqn:Hneg; [|reflexivity].
  destruct accepts_cmyk; [|reflexivity].
  cbn. eapply negotiate_accepts_cmyk, Hneg.
Qed.

End RunParameters.

Lemma exr_forces_color_space_witness :
  let env := sample_env kEXR ".exr" never_reconstructs true in
  let args := sample_args (Some "out.exr") 1 false false false "white" in
  dp_color_space (run_dparams env args sample_cmdline)
  = "RGB_D65_SRG_Rel_Lin".
Proof.
  cbv zeta.
  apply (exr_forces_color_space
           (sample_env kEXR ".exr" never_reconstructs true)
           (sample_args (Some "out.exr") 1 false false false "white")
           sample_cmdline [] 0 _ eq_refl).
  vm_compute. tauto.
Defined.

Lemma pnm_decodes_at_codestream_depth_witness :
  let env := sample_env kPNM ".ppm" never_reconstructs true in
  let args := sample_args (Some "out.ppm") 1 false false false "white" in
  bits_per_sample args = -1
  /\ output_bitdepth (run_dparams env args sample_cmdline)
     = JXL_BIT_DEPTH_FROM_CODESTREAM.
Proof.
  cbv zeta. split; [reflexivity|].
  apply (pnm_decodes_at_codestream_depth
           (sample_env kPNM ".ppm" never_reconstructs true)
           (sample_args (Some "out.ppm") 1 false false false "white")
           sample_cmdline [] 0 _ eq_refl ltac:(discriminate) eq_refl).
  vm_compute. tauto.
Defined.

Lemma decode_depth_follows_flag_witness :
  let env := sample_env kPNG ".png" never_reconstructs true in
  let args := sample_args (Some "out.png") 1 false false false "white" in
  bits_per_sample args = -1
  /\ output_bitdepth
       (pixel_dparams args "" (-1) (AcceptedFormats sample_encoder) false)
     = BitDepthDefault.
Proof.
  cbv zeta. split; [reflexivity|].
  assert (Hcase :
    snd (output_target (sample_env kPNG ".png" never_reconstructs true)
           (sample_args (Some "out.png") 1 false false false "white"))
    <> kPNM
    \/ snd (fst (output_target
                   (sample_env kPNG ".png" never_reconstructs true)
                   (sample_args (Some "out.png") 1 false false false
                      "white"))) = ".pfm"
    \/ jpeg_quality_matched
         (sample_args (Some "out.png") 1 false false false "white")
         sample_cmdline = true).
  { left. cbn. discriminate. }
  assert (Hin :
    In (CallDecode 0
          (pixel_dparams
             (sample_args (Some "out.png") 1 false false false "white")
             "" (-1) (AcceptedFormats sample_encoder) false))
       (fst (main (sample_env kPNG ".png" never_reconstructs true)
               (sample_args (Some "out.png") 1 false false false "white")
               sample_cmdline []))).
  { vm_compute. tauto. }
  exact (decode_depth_follows_flag
           (sample_env kPNG ".png" never_reconstructs true)
           (sample_args (Some "out.png") 1 false false false "white")
           sample_cmdline [] 0 _ Hcase Hin).
Defined.

Lemma cmyk_needs_accepting_encoder_witness :
  let env := sample_env kPNG ".png" never_reconstructs true in
  let args := sample_args None 1 true false false "white" in
  color_space_for_cmyk (run_dparams env args sample_cmdline) = Some "sRGB".
Proof.
  cbv zeta.
  assert (Hin :
    In (CallDecode 0
          (run_dparams (sample_env kPNG ".png" never_reconstructs true)
             (sample_args None 1 true false false "white") sample_cmdline))
       (fst (main (sample_env kPNG ".png" never_reconstructs true)
               (sample_args None 1 true false false "white")
               sample_cmdline []))).
  { vm_compute. tauto. }
  pose proof (cmyk_needs_accepting_encoder
                (sample_env kPNG ".png" never_reconstructs true)
                (sample_args None 1 true false false "white")
                sample_cmdline [] 0 _ Hin) as H.
  destruct (color_space_for_cmyk _) as [color_space'|] eqn:E.
  - now subst.
  - discriminate E.
Defined.

(** ** How a run can end *)

Section Leaving.

Lemma leaves_bind {A B : Type} (P : Outcome -> Prop) (m : M A)
    (k : A -> M B) :
  leaves_only P m ->
  (forall a, snd m = inl a -> leaves_only P (k a)) ->
  leaves_only P (bind m k).
Proof.
  intros Hm Hk o. rewrite snd_bind.
  destruct (snd m) as [a|o'] eqn:E.
  - now apply Hk.
  - intros H. injection H as <-. now apply Hm.
Qed.

Lemma leaves_ret {A : Type} (P : Outcome -> Prop) (a : A) :
  leaves_only P (ret a).
Proof. intros o H. discriminate H. Qed.

Lemma leaves_emit (P : Outcome -> Prop) (e : Event) :
  leaves_only P (emit e).
Proof. intros o H. discriminate H. Qed.

Lemma leaves_leave {A : Type} (P : Outcome -> Prop) (o : Outcome) :
  P o -> leaves_only P (@leave A o).
Proof. intros HP o' H. injection H as <-. exact HP. Qed.

Lemma leaves_weaken {A : Type} (P Q : Outcome -> Prop) (m : M A) :
  (forall o, P o -> Q o) -> leaves_only P m -> leaves_only Q m.
Proof. intros HPQ Hm o H. apply HPQ, Hm, H. Qed.

Lemma early_exit_weaken (args : DecompressArgs) (U U' : Prop) (o : Outcome) :
  (U -> U') -> early_exit args U o -> early_exit args U' o.
Proof.
  intros HU [H|[H|[H HU']]]; [left | right; left | right; right]; auto.
Qed.

End Leaving.

(** One step of a proof that a computation leaves only by [early_exit]. *)
Ltac leave_step :=
  match goal with
  | |- leaves_only _ (bind _ _) => apply leaves_bind; [|intros]
  | |- leaves_only _ (when ?b _) => destruct b; cbn [when]
  | |- leaves_only _ (ret _) => apply leaves_ret
  | |- leaves_only _ (emit _) => apply leaves_emit
  | |- leaves_only _ (leave EXIT_FAILURE) =>
      apply leaves_leave; left; reflexivity
  | |- leaves_only _ (let (_, _) := ?x in _) => destruct x eqn:?
  | |- leaves_only _ (if negb ?x then _ else _) =>
      destruct x eqn:?; cbn [negb]
  | |- leaves_only _ (match ?x with _ => _ end) => destruct x eqn:?
  end.

Ltac leave_all := repeat leave_step.

Section LeavingStages.

Variable env : Collaborators.
Variable args : DecompressArgs.
Variable compressed : bytes.

Lemma reconstruct_loop_leaves (U : Prop) (n : nat) :
  forall i jpeg_bytes,
  leaves_only (early_exit args U)
    (reconstruct_loop env args compressed n i jpeg_bytes).
Proof.
  induction n as [|n IH]; intros i jpeg_bytes; cbn [reconstruct_loop].
  - apply leaves_ret.
  - apply leaves_bind.
    + unfold DecompressJxlReconstructJPEG. leave_all.
    + intros [ok jpeg_bytes'] _. destruct ok; cbn [negb]; [apply IH|].
      leave_all.
Qed.

Lemma reconstruct_block_leaves (U : Prop) (filename_out : string) :
  leaves_only (early_exit args U)
    (reconstruct_block env args compressed filename_out).
Proof.
  unfold reconstruct_block.
  apply leaves_bind; [leave_all|]. intros _ _.
  apply leaves_bind; [apply reconstruct_loop_leaves|].
  intros [decode_to_pixels jpeg_bytes] _. leave_all.
Qed.

Lemma negotiate_leaves (U : Prop) (filename_out extension : string) :
  leaves_only (early_exit args U)
    (negotiate_formats env args filename_out extension).
Proof. unfold negotiate_formats. leave_all. Qed.

Lemma pixel_loop_leaves (U : Prop) (color_space' : string)
    (bits_per_sample' : Z) (formats : list JxlPixelFormat)
    (accepts_cmyk : bool) (n : nat) :
  forall i ppf decoded_bytes,
  leaves_only (early_exit args U)
    (pixel_loop env args color_space' bits_per_sample' compressed formats
       accepts_cmyk n i ppf decoded_bytes).
Proof.
  induction n as [|n IH]; intros i ppf decoded_bytes; cbn [pixel_loop].
  - apply leaves_ret.
  - apply leaves_bind.
    + unfold DecompressJxlToPackedPixelFile. leave_all.
    + intros [[ok ppf'] decoded_bytes'] _. destruct ok; cbn [negb];
        [apply IH|]. leave_all.
Qed.

Lemma blend_stage_leaves (U : Prop) (ppf : PackedPixelFile) :
  leaves_only (early_exit args U) (blend_stage env args ppf).
Proof.
  unfold blend_stage. destruct (alpha_blend args) eqn:Hblend;
    [|apply leaves_ret].
  apply leaves_bind.
  - destruct (ParseBackgroundColor (background_spec args)) eqn:Hparse;
      leave_all.
    apply leaves_leave. right. left. auto.
  - intros background _. leave_all.
Qed.

(** The inner loop leaves with a read out of range only at a frame that
    the selected layer lacks. *)
Lemma frames_loop_leaves (filename_out extension : string)
    (encoded_image : EncodedImage) (nlayers nframes : Z) (i n : nat) :
  forall j,
  leaves_only
    (early_exit args
       (exists j', (j <= j' < j + n)%nat
                   /\ select_bitstream encoded_image i j' = None))
    (frames_loop env args filename_out extension encoded_image nlayers
       nframes i n j).
Proof.
  induction n as [|n IH]; intros j; cbn [frames_loop]; [apply leaves_ret|].
  destruct (select_bitstream encoded_image i j) eqn:Hsel.
  - apply leaves_bind; [apply leaves_emit|]. intros _ _.
    destruct (WriteFile env _ _); cbn [negb]; [|leave_all].
    apply leaves_bind; [leave_all|]. intros _ _.
    eapply leaves_weaken; [|apply IH].
    intros o. apply early_exit_weaken.
    intros (j' & Hj' & Hnone). exists j'. split; [lia | exact Hnone].
  - apply leaves_leave. right. right. split; [reflexivity|].
    exists j. split; [lia | exact Hsel].
Qed.

Lemma layers_loop_leaves (filename_out extension : string)
    (encoded_image : EncodedImage) (nlayers nframes : Z) (n : nat) :
  forall i,
  leaves_only
    (early_exit args
       (exists i' j', (i <= i' < i + n)%nat /\ (j' < Z.to_nat nframes)%nat
                      /\ select_bitstream encoded_image i' j' = None))
    (layers_loop env args filename_out extension encoded_image nlayers
       nframes n i).
Proof.
  induction n as [|n IH]; intros i; cbn [layers_loop]; [apply leaves_ret|].
  apply leaves_bind.
  - eapply leaves_weaken; [|apply frames_loop_leaves].
    intros o. apply early_exit_weaken.
    intros (j' & Hj' & Hnone). exists i, j'. repeat split; try lia.
    exact Hnone.
  - intros _ _. eapply leaves_weaken; [|apply IH].
    intros o. apply early_exit_weaken.
    intros (i' & j' & Hi' & Hj' & Hnone). exists i', j'.
    repeat split; try lia. exact Hnone.
Qed.

Lemma optional_outputs_leave (U : Prop) (outputs : list (string * bytes)) :
  leaves_only (early_exit args U) (write_optional_outputs env outputs).
Proof.
  induction outputs as [|[filename contents] rest IH];
    cbn [write_optional_outputs]; [apply leaves_ret|].
  apply leaves_bind.
  - unfold WriteOptionalOutput. leave_all.
  - intros ok _. destruct ok; cbn [negb]; [apply IH | leave_all].
Qed.

Lemma num_layers_positive (encoded_image : EncodedImage) :
  1 <= num_layers args encoded_image.
Proof.
  unfold num_layers, size_of. destruct (output_extra_channels args); lia.
Qed.

Lemma num_frames_nonnegative (encoded_image : EncodedImage) :
  0 <= num_frames args encoded_image.
Proof.
  unfold num_frames, size_of.
  destruct (output_frames args || negb (coalescing args)); lia.
Qed.

Lemma encode_stage_leaves (filename_out extension : string)
    (encoder : Encoder) (ppf : PackedPixelFile) :
  leaves_only
    (early_exit args
       (exists encoded_image,
          Encode encoder (encode_options args) ppf = Some encoded_image
          /\ reads_out_of_range args encoded_image))
    (encode_stage env args filename_out extension encoder ppf).
Proof.
  unfold encode_stage.
  do 4 (apply leaves_bind; [leave_all|]; intros _ _).
  destruct (Encode encoder (encode_options args) ppf)
    as [encoded_image|] eqn:Henc; [|leave_all].
  fold (num_layers args encoded_image). fold (num_frames args encoded_image).
  apply leaves_bind; [|intros _ _; apply optional_outputs_leave].
  eapply leaves_weaken; [|apply layers_loop_leaves].
  intros o. apply early_exit_weaken.
  intros (i & j & Hi & Hj & Hnone).
  exists encoded_image. split; [reflexivity|]. exists i, j.
  pose proof (num_layers_positive encoded_image).
  pose proof (num_frames_nonnegative encoded_image).
  repeat split; try lia. exact Hnone.
Qed.

End LeavingStages.

Section LeavingMain.

Variable env : Collaborators.
Variable args : DecompressArgs.
Variable cmdline : CommandLineParser.
Variable compressed : bytes.

Local Notation "'run'" := (main env args cmdline compressed).

(** Some encoder of the output format returns an image that [main] reads
    out of range. *)
Local Notation "'bad_encoding'" :=
  (exists encoder ppf encoded_image,
     Encoder_FromExtension env (snd (fst (output_target env args)))
     = Some encoder
     /\ Encode encoder (encode_options args) ppf = Some encoded_image
     /\ reads_out_of_range args encoded_image).

Lemma negotiate_encoder (filename_out extension : string)
    (formats : list JxlPixelFormat) (encoder : Encoder) (accepts_cmyk : bool) :
  snd (negotiate_formats env args filename_out extension)
  = inl (formats, Some encoder, accepts_cmyk) ->
  Encoder_FromExtension env extension = Some encoder.
Proof.
  unfold negotiate_formats.
  destruct (string_empty filename_out); cbn [negb]; [discriminate|].
  cbn [bind emit fst snd].
  destruct (Encoder_FromExtension env extension) as [encoder'|];
    [|discriminate].
  cbn. intros H. now injection H as _ -> _.
Qed.

Lemma pixel_block_leaves (color_space' : string) (bits_per_sample' : Z)
    (filename_out extension : string) :
  leaves_only
    (early_exit args
       (exists encoder ppf encoded_image,
          Encoder_FromExtension env extension = Some encoder
          /\ Encode encoder (encode_options args) ppf = Some encoded_image
          /\ reads_out_of_range args encoded_image))
    (pixel_block env args color_space' bits_per_sample' compressed
       filename_out extension).
Proof.
  unfold pixel_block.
  apply leaves_bind; [apply leaves_emit|]. intros _ _.
  apply leaves_bind; [apply negotiate_leaves|].
  intros [[formats encoder] accepts_cmyk] Hneg.
  apply leaves_bind; [apply pixel_loop_leaves|].
  intros [ppf decoded_bytes] _. unfold finish_pixels.
  do 2 (apply leaves_bind; [leave_all|]; intros _ _).
  destruct encoder as [encoder|]; [|apply leaves_ret].
  apply negotiate_encoder in Hneg.
  apply leaves_bind; [apply blend_stage_leaves|]. intros ppf' _.
  eapply leaves_weaken; [|apply encode_stage_leaves].
  intros o. apply early_exit_weaken.
  intros (encoded_image & Henc & Hread). eauto 6.
Qed.

Lemma decode_paths_leaves :
  leaves_only (early_exit args bad_encoding)
    (decode_paths env args cmdline compressed).
Proof.
  unfold decode_paths.
  destruct (output_target env args) as [[filename_out extension] codec].
  cbn [fst snd].
  apply leaves_bind.
  - destruct (initial_decode_to_pixels args cmdline codec); cbn [negb];
      [apply leaves_ret | apply reconstruct_block_leaves].
  - intros [|] _; [apply pixel_block_leaves | apply leaves_ret].
Qed.

(** [main] returns the success status only from its last line; every
    other exit is one of [early_exit]. *)
Lemma main_outcome :
  (snd run = EXIT_SUCCESS
   /\ snd (decode_paths env args cmdline compressed) = inl tt
   /\ (file_out args <> None \/ disable_output args = true))
  \/ (early_exit args bad_encoding (snd run)
      /\ forall v, snd (decode_paths env args cmdline compressed) = inl v ->
                   file_out args = None /\ disable_output args = false).
Proof.
  assert (Hcases : (file_out args = None /\ disable_output args = false)
                   \/ (file_out args <> None \/ disable_output args = true)).
  { destruct (file_out args); [right; left; discriminate|].
    destruct (disable_output args); auto. }
  destruct Hcases as [[Hfile Hdisable]|Hvalid].
  { right. rewrite main_without_target by assumption.
    split; [left; reflexivity | auto]. }
  rewrite main_run by assumption. cbn [snd].
  pose proof decode_paths_leaves as Hleave.
  destruct (snd (decode_paths env args cmdline compressed)) as [[]|o] eqn:E.
  - left. auto.
  - right. cbn [outcome_of]. split; [apply Hleave, E | discriminate].
Qed.

Lemma rectangular_in_range (encoded_image : EncodedImage) :
  rectangular encoded_image -> ~ reads_out_of_range args encoded_image.
Proof.
  intros [Hframes Hchannels] (i & j & Hi & Hj & Hnone).
  assert (Hj' : (j < List.length (bitstreams encoded_image))%nat).
  { unfold num_frames, size_of in Hj.
    destruct (output_frames args || negb (coalescing args)); [lia|].
    destruct (bitstreams encoded_image); [congruence | simpl; lia]. }
  destruct i as [|i]; cbn [select_bitstream] in Hnone.
  - apply nth_error_None in Hnone. lia.
  - destruct (nth_error (extra_channel_bitstreams encoded_image) i)
      as [channel|] eqn:Hch.
    + apply nth_error_In in Hch. rewrite Forall_forall in Hchannels.
      specialize (Hchannels _ Hch). apply nth_error_None in Hnone. lia.
    + apply nth_error_None in Hch. unfold num_layers, size_of in Hi.
      destruct (output_extra_channels args); lia.
Qed.

(** X10: [main] reads a vector out of range only when the encoder of the
    output format has reported success and returned an image that is not
    rectangular: no frame at all, or an extra channel with another number of
    bitstreams than there are frames. *)
Theorem out_of_range_read_source :
  snd run = UndefinedBehaviour ->
  exists encoder ppf encoded_image,
    Encoder_FromExtension env (snd (fst (output_target env args)))
    = Some encoder
    /\ Encode encoder (encode_options args) ppf = Some encoded_image
    /\ reads_out_of_range args encoded_image
    /\ ~ rectangular encoded_image.
Proof.
  intros Hout.
  destruct main_outcome as [[Hok _]|[[H|[H|[H Hbad]]] _]]; try congruence.
  - destruct H as [H _]. congruence.
  - destruct Hbad as (encoder & ppf & encoded_image & Hext & Henc & Hread).
    exists encoder, ppf, encoded_image. repeat split; try assumption.
    intros Hrect. exact (rectangular_in_range _ Hrect Hread).
Qed.

Lemma In_app3 (e : Event) (a b c : list Event) :
  In e (a ++ b ++ c)%list <-> In e a \/ In e b \/ In e c.
Proof. rewrite !in_app_iff. tauto. Qed.

Lemma stats_print_not_in_paths :
  ~ In StatsPrint (fst (decode_paths env args cmdline compressed)).
Proof.
  unfold decode_paths.
  destruct (output_target env args) as [[filename_out extension] codec].
  rewrite fst_bind. intros Hin. apply in_app_or in Hin as [Hin|Hin].
  - destruct (initial_decode_to_pixels args cmdline codec); cbn [negb] in Hin;
      [exact Hin|].
    destruct (reconstruct_block_events env args compressed filename_out)
      as (t & Ht & Hall).
    rewrite Ht in Hin. destruct Hin as [Hin|Hin]; [discriminate|].
    rewrite forallb_forall in Hall. specialize (Hall _ Hin). discriminate.
  - destruct (snd _) as [[|]|o]; try exact Hin.
    destruct (pixel_block_events env args compressed
                (effective_color_space args codec)
                (effective_bits_per_sample args cmdline codec extension)
                filename_out extension) as (t & Ht & Hall).
    rewrite Ht in Hin. destruct Hin as [Hin|Hin]; [discriminate|].
    rewrite forallb_forall in Hall. specialize (Hall _ Hin). discriminate.
Qed.

Lemma stats_print_not_in_preamble :
  ~ In StatsPrint (fst (preamble env args)).
Proof.
  unfold preamble.
  destruct (output_target env args) as [[filename_out extension] codec].
  destruct (_ && _ && negb (quiet args)), (_ && _ && negb (_ =? _)%string);
    cbn; intros H; repeat (destruct H as [H|H]; try discriminate H); exact H.
Qed.

(** The decoding of lines 458-640 prints the statistics exactly when it
    ends with the success status without [--quiet]. *)
Lemma main_statistics_iff :
  In StatsPrint (fst (main env args cmdline compressed))
  <-> snd (main env args cmdline compressed) = EXIT_SUCCESS
      /\ quiet args = false.
Proof.
  destruct main_outcome as [(Hok & Hpaths & Hvalid)|[Hearly Hpaths]].
  - rewrite Hok. rewrite main_run by assumption. cbn [fst].
    rewrite In_app3, Hpaths. split.
    + intros [H|[H|H]].
      * now apply stats_print_not_in_preamble in H.
      * now apply stats_print_not_in_paths in H.
      * destruct (quiet args); [destruct H | auto].
    + intros [_ ->]. right. right. left. reflexivity.
  - split.
    + intros Hin. exfalso.
      assert (Hcases : (file_out args = None /\ disable_output args = false)
                       \/ (file_out args <> None
                           \/ disable_output args = true)).
      { destruct (file_out args); [right; left; discriminate|].
        destruct (disable_output args); auto. }
      destruct Hcases as [[Hfile Hdisable]|Hvalid].
      * rewrite main_without_target in Hin by assumption.
        destruct Hin as [Hin|[]]. discriminate.
      * rewrite main_run in Hin by assumption. cbn [fst] in Hin.
        apply In_app3 in Hin as [H|[H|H]].
        -- now apply stats_print_not_in_preamble in H.
        -- now apply stats_print_not_in_paths in H.
        -- destruct (snd (decode_paths env args cmdline compressed))
             as [v|o] eqn:E; [|destruct H].
           destruct (Hpaths v eq_refl) as [Hfile Hdisable].
           destruct Hvalid; congruence.
    + intros [Hok _]. exfalso.
      destruct Hearly as [H|[[H _]|[H _]]]; congruence.
Qed.

End LeavingMain.

Lemma out_of_range_read_source_witness :
  let env := sample_env_with empty_handed_encoder (fun _ => true) in
  let args := sample_args (Some "out.png") 1 false false false "white" in
  snd (main env args sample_cmdline []) = UndefinedBehaviour
  /\ exists encoder ppf encoded_image,
       Encoder_FromExtension env (snd (fst (output_target env args)))
       = Some encoder
       /\ Encode encoder (encode_options args) ppf = Some encoded_image
       /\ reads_out_of_range args encoded_image
       /\ ~ rectangular encoded_image.
Proof.
  cbv zeta.
  assert (Hrun :
    snd (main (sample_env_with empty_handed_encoder (fun _ => true))
           (sample_args (Some "out.png") 1 false false false "white")
           sample_cmdline []) = UndefinedBehaviour) by reflexivity.
  split; [exact Hrun|].
  exact (out_of_range_read_source
           (sample_env_with empty_handed_encoder (fun _ => true))
           (sample_args (Some "out.png") 1 false false false "white")
           sample_cmdline [] Hrun).
Defined.

(** ** Failed writes *)

Section FailedWrites.

Variable env : Collaborators.

Lemma no_failed_write_app (t t' : list Event) :
  no_failed_write env (t ++ t')
  = no_failed_write env t && no_failed_write env t'.
Proof. apply forallb_app. Qed.

Lemma stops_bind {A B : Type} (m : M A) (k : A -> M B) :
  stops_at_failed_write env m ->
  (forall a, snd m = inl a -> stops_at_failed_write env (k a)) ->
  stops_at_failed_write env (bind m k).
Proof.
  intros [Hm|(t & e & Ht & Hclean & Hfail & Hout)] Hk.
  - destruct m as [tm [a|o]]; cbn [fst snd] in *.
    + destruct (Hk a eq_refl) as [Hka|(t & e & Ht & Hclean & Hfail & Hout)].
      * left. rewrite fst_bind. cbn [fst snd].
        now rewrite no_failed_write_app, Hm, Hka.
      * right. exists (tm ++ t)%list, e.
        rewrite fst_bind, snd_bind. cbn [fst snd].
        rewrite Ht, Hout, no_failed_write_app, Hm, Hclean, app_assoc.
        auto.
    + left. exact Hm.
  - right. exists t, e. destruct m as [tm [a|o]]; cbn [fst snd] in *;
      [discriminate|].
    injection Hout as ->. cbn [bind fst snd]. auto.
Qed.

Lemma stops_clean {A : Type} (m : M A) :
  no_failed_write env (fst m) = true -> stops_at_failed_write env m.
Proof. now left. Qed.

(** A write followed by the test of its result. *)
Lemma stops_checked_write {A : Type} (site : WriteSite) (fn : string)
    (contents : bytes) (k : M A) :
  stops_at_failed_write env k ->
  stops_at_failed_write env
    (emit (CallWriteFile site fn contents) ;;
     if negb (WriteFile env fn contents) then leave EXIT_FAILURE else k).
Proof.
  intros Hk. destruct (WriteFile env fn contents) eqn:E; cbn [negb].
  - apply stops_bind; [|intros _ _; exact Hk].
    left. cbn. now rewrite E.
  - right. exists [], (CallWriteFile site fn contents).
    cbn. rewrite E. auto.
Qed.

End FailedWrites.

(** One step of a proof of [stops_at_failed_write] for a computation that
    calls [WriteFile] only in a checked write. *)
Ltac stop_step :=
  match goal with
  | |- stops_at_failed_write _
         (bind (emit (CallWriteFile _ _ _)) _) =>
      apply stops_checked_write
  | |- stops_at_failed_write _ (bind _ _) => apply stops_bind; [|intros]
  | |- stops_at_failed_write _ (when ?b _) => destruct b; cbn [when]
  | |- stops_at_failed_write _ (ret _) => left; reflexivity
  | |- stops_at_failed_write _ (leave _) => left; reflexivity
  | |- stops_at_failed_write _ (emit _) => left; reflexivity
  | |- stops_at_failed_write _ (let (_, _) := ?x in _) => destruct x eqn:?
  | |- stops_at_failed_write _ (if negb ?x then _ else _) =>
      destruct x eqn:?; cbn [negb]
  | |- stops_at_failed_write _ (match ?x with _ => _ end) =>
      destruct x eqn:?
  end.

Ltac stop_all := repeat stop_step.

Section FailedWriteStages.

Variable env : Collaborators.
Variable args : DecompressArgs.
Variable compressed : bytes.

Lemma reconstruct_loop_stops (n : nat) :
  forall i jpeg_bytes,
  stops_at_failed_write env
    (reconstruct_loop env args compressed n i jpeg_bytes).
Proof.
  induction n as [|n IH]; intros i jpeg_bytes; cbn [reconstruct_loop].
  - stop_all.
  - apply stops_bind.
    + unfold DecompressJxlReconstructJPEG. stop_all.
    + intros [ok jpeg_bytes'] _. destruct ok; cbn [negb]; [apply IH|].
      stop_all.
Qed.

Lemma reconstruct_block_stops (filename_out : string) :
  stops_at_failed_write env
    (reconstruct_block env args compressed filename_out).
Proof.
  unfold reconstruct_block.
  apply stops_bind; [stop_all|]. intros _ _.
  apply stops_bind; [apply reconstruct_loop_stops|].
  intros [decode_to_pixels jpeg_bytes] _.
  apply stops_bind; [|intros; stop_all].
  destruct (bytes_empty jpeg_bytes); cbn [negb]; [stop_all|].
  apply stops_bind; [stop_all|]. intros _ _.
  destruct (string_empty filename_out); cbn [negb]; [stop_all|].
  apply stops_checked_write. stop_all.
Qed.

Lemma pixel_loop_stops (color_space' : string) (bits_per_sample' : Z)
    (formats : list JxlPixelFormat) (accepts_cmyk : bool) (n : nat) :
  forall i ppf decoded_bytes,
  stops_at_failed_write env
    (pixel_loop env args color_space' bits_per_sample' compressed formats
       accepts_cmyk n i ppf decoded_bytes).
Proof.
  induction n as [|n IH]; intros i ppf decoded_bytes; cbn [pixel_loop].
  - stop_all.
  - apply stops_bind.
    + unfold DecompressJxlToPackedPixelFile. stop_all.
    + intros [[ok ppf'] decoded_bytes'] _. destruct ok; cbn [negb];
        [apply IH|]. stop_all.
Qed.

Lemma frames_loop_stops (filename_out extension : string)
    (encoded_image : EncodedImage) (nlayers nframes : Z) (i n : nat) :
  forall j,
  stops_at_failed_write env
    (frames_loop env args filename_out extension encoded_image nlayers
       nframes i n j).
Proof.
  induction n as [|n IH]; intros j; cbn [frames_loop]; [stop_all|].
  destruct (select_bitstream encoded_image i j); [|stop_all].
  apply stops_checked_write.
  apply stops_bind; [stop_all | intros _ _; apply IH].
Qed.

Lemma layers_loop_stops (filename_out extension : string)
    (encoded_image : EncodedImage) (nlayers nframes : Z) (n : nat) :
  forall i,
  stops_at_failed_write env
    (layers_loop env args filename_out extension encoded_image nlayers
       nframes n i).
Proof.
  induction n as [|n IH]; intros i; cbn [layers_loop]; [stop_all|].
  apply stops_bind; [apply frames_loop_stops | intros _ _; apply IH].
Qed.

Lemma optional_outputs_stop (outputs : list (string * bytes)) :
  stops_at_failed_write env (write_optional_outputs env outputs).
Proof.
  induction outputs as [|[filename contents] rest IH];
    cbn [write_optional_outputs]; [stop_all|].
  unfold WriteOptionalOutput.
  destruct (string_empty filename || bytes_empty contents).
  - rewrite bind_ret_l. exact IH.
  - destruct (WriteFile env filename contents) eqn:E.
    + apply stops_bind; [|intros [|] _; cbn [negb]; [exact IH | stop_all]].
      apply stops_bind; [|intros; stop_all].
      left. cbn. now rewrite E.
    + right. exists [], (CallWriteFile OptionalOutput filename contents).
      cbn. rewrite E. auto.
Qed.

Lemma pixel_block_stops (color_space' : string) (bits_per_sample' : Z)
    (filename_out extension : string) :
  stops_at_failed_write env
    (pixel_block env args color_space' bits_per_sample' compressed
       filename_out extension).
Proof.
  unfold pixel_block.
  apply stops_bind; [stop_all|]. intros _ _.
  apply stops_bind; [unfold negotiate_formats; stop_all|].
  intros [[formats encoder] accepts_cmyk] _.
  apply stops_bind; [apply pixel_loop_stops|].
  intros [ppf decoded_bytes] _. unfold finish_pixels.
  do 2 (apply stops_bind; [stop_all|]; intros _ _).
  destruct encoder as [encoder|]; [|stop_all].
  apply stops_bind; [unfold blend_stage; stop_all|]. intros ppf' _.
  unfold encode_stage.
  do 4 (apply stops_bind; [stop_all|]; intros _ _).
  destruct (Encode encoder _ ppf') as [encoded_image|]; [|stop_all].
  apply stops_bind; [apply layers_loop_stops|]. intros _ _.
  apply optional_outputs_stop.
Qed.

End FailedWriteStages.

Section FailedWriteMain.

Variable env : Collaborators.
Variable args : DecompressArgs.
Variable cmdline : CommandLineParser.
Variable compressed : bytes.

Local Notation "'run'" := (main env args cmdline compressed).

Lemma decode_paths_stops :
  stops_at_failed_write env (decode_paths env args cmdline compressed).
Proof.
  unfold decode_paths.
  destruct (output_target env args) as [[filename_out extension] codec].
  apply stops_bind.
  - destruct (initial_decode_to_pixels args cmdline codec); cbn [negb];
      [stop_all | apply reconstruct_block_stops].
  - intros [|] _; [apply pixel_block_stops | stop_all].
Qed.

Lemma bookkeeping_no_failed_write (t : list Event) :
  forallb bookkeeping_event t = true -> no_failed_write env t = true.
Proof.
  apply forallb_weaken. intros e He. destruct e; try discriminate He.
  all: reflexivity.
Qed.

Lemma no_failed_write_In (t : list Event) (site : WriteSite) (fn : string)
    (contents : bytes) :
  no_failed_write env t = true ->
  In (CallWriteFile site fn contents) t ->
  WriteFile env fn contents = true.
Proof.
  unfold no_failed_write. rewrite forallb_forall. intros Hall Hin.
  specialize (Hall _ Hin). cbn in Hall.
  now destruct (WriteFile env fn contents).
Qed.

(** The whole run: either no write fails, or the failed write is the last
    event and the status is the failure status. *)
Lemma main_stops :
  no_failed_write env (fst run) = true
  \/ exists t e,
       fst run = (t ++ [e])%list
       /\ no_failed_write env t = true
       /\ failed_write env e = true
       /\ snd run = EXIT_FAILURE.
Proof.
  assert (Hcases : (file_out args = None /\ disable_output args = false)
                   \/ (file_out args <> None \/ disable_output args = true)).
  { destruct (file_out args); [right; left; discriminate|].
    destruct (disable_output args); auto. }
  destruct Hcases as [[Hfile Hdisable]|Hvalid].
  { left. now rewrite main_without_target by assumption. }
  rewrite main_run by assumption. cbn [fst snd].
  destruct preamble_run with (env := env) (args := args) as [_ Hpre].
  apply bookkeeping_no_failed_write in Hpre.
  destruct decode_paths_stops as [Hclean|(t & e & Ht & Hclean & Hfail & Hout)].
  - left. rewrite !no_failed_write_app, Hpre, Hclean.
    apply bookkeeping_no_failed_write, statistics_bookkeeping.
  - right. exists (fst (preamble env args) ++ t)%list, e.
    rewrite Ht, Hout, no_failed_write_app, Hpre, Hclean.
    cbn [outcome_of]. rewrite app_nil_r, app_assoc. auto.
Qed.

(** X12: [main] stops at the first call of [WriteFile] that fails, at each
    of the three places that write: the failed call is the last event of the
    run, no earlier write has failed, and the status is the failure status. *)
Theorem failed_write_ends_run (site : WriteSite) (fn : string)
    (contents : bytes) :
  In (CallWriteFile site fn contents) (fst run) ->
  WriteFile env fn contents = false ->
  snd run = EXIT_FAILURE
  /\ exists t,
       fst run = (t ++ [CallWriteFile site fn contents])%list
       /\ no_failed_write env t = true.
Proof.
  intros Hin Hfail.
  destruct main_stops as [Hclean|(t & e & Ht & Hclean & He & Hout)].
  - pose proof (no_failed_write_In _ _ _ _ Hclean Hin). congruence.
  - split; [exact Hout|]. exists t. split; [|exact Hclean].
    rewrite Ht in Hin. apply in_app_or in Hin as [Hin|[<-|[]]].
    + pose proof (no_failed_write_In _ _ _ _ Hclean Hin). congruence.
    + exact Ht.
Qed.

End FailedWriteMain.

Lemma failed_write_ends_run_witness :
  let env := sample_env_with sample_encoder
               (fun fn => negb (fn =? "out.png")%string) in
  let args := sample_args (Some "out.png") 1 false false false "white" in
  snd (main env args sample_cmdline []) = EXIT_FAILURE
  /\ exists t,
       fst (main env args sample_cmdline [])
       = (t ++ [CallWriteFile MainOutput "out.png" [Byte.x89; Byte.x50]])%list
       /\ no_failed_write env t = true.
Proof.
  cbv zeta.
  apply (failed_write_ends_run
           (sample_env_with sample_encoder
              (fun fn => negb (fn =? "out.png")%string))
           (sample_args (Some "out.png") 1 false false false "white")
           sample_cmdline [] MainOutput "out.png" [Byte.x89; Byte.x50]).
  - vm_compute. tauto.
  - reflexivity.
Defined.

(** ** A reconstruction that succeeds *)

Section ReconstructSuccess.

Variable env : Collaborators.
Variable args : DecompressArgs.
Variable cmdline : CommandLineParser.
Variable compressed : bytes.

Local Notation "'bytes_before'" := (jpeg_bytes_before env args compressed).
Local Notation "'succeeds'" := (reconstruct_succeeds env args compressed).
Local Notation "'run'" := (main env args cmdline compressed).

Lemma filter_excluded (p q : Event -> bool) (t : list Event) :
  forallb q t = true -> (forall e, q e = true -> p e = false) ->
  filter p t = [].
Proof.
  intros Hq Hpq. induction t as [|e t IH]; [reflexivity|].
  cbn in Hq. apply andb_true_iff in Hq as [He Ht].
  cbn. now rewrite (Hpq e He), IH.
Qed.

Lemma reconstruct_call_success (i : nat) :
  succeeds i = true ->
  exists xsize ysize,
    DecompressJxlReconstructJPEG env args compressed i (bytes_before i)
    = ([CallReconstruct i (bytes_before i); StatsNotifyElapsed;
        StatsSetImageSize xsize ysize;
        StatsSetFileSize (size_of (bytes_before (S i)))],
       inl (true, bytes_before (S i))).
Proof.
  unfold DecompressJxlReconstructJPEG, reconstruct_succeeds.
  cbn [jpeg_bytes_before].
  destruct (DecodeImageJXL_jpeg env i (allow_partial_files args) compressed
              (bytes_before i)) as [[ok b'] [xsize ysize]].
  cbn [fst snd]. intros ->. exists xsize, ysize. reflexivity.
Qed.

Lemma reconstruct_loop_all_succeed (n : nat) :
  forall i,
  (forall j, (i <= j < i + n)%nat -> succeeds j = true) ->
  let r := reconstruct_loop env args compressed n i (bytes_before i) in
  snd r = inl (false, bytes_before (i + n))
  /\ count is_reconstruct_call (fst r) = n
  /\ count is_elapsed_sample (fst r) = n
  /\ filter is_write (fst r) = [].
Proof.
  induction n as [|n IH]; intros i Hall; cbn zeta.
  - cbn. rewrite Nat.add_0_r. auto.
  - cbn [reconstruct_loop].
    destruct (reconstruct_call_success i (Hall i ltac:(lia)))
      as (xsize & ysize & Hcall).
    rewrite (bind_value _ _ _ _ Hcall). cbn [negb fst snd].
    specialize (IH (S i) (fun j Hj => Hall j ltac:(lia))).
    cbn zeta in IH. destruct IH as (Hout & Hrec & Hsamples & Hwrites).
    replace (i + S n)%nat with (S i + n)%nat by lia.
    split; [exact Hout|].
    rewrite !count_app, filter_app, Hrec, Hsamples, Hwrites.
    repeat split.
Qed.

Lemma bookkeeping_no_write :
  forall e, bookkeeping_event e = true -> is_write e = false.
Proof. event_cases. Qed.

Lemma bookkeeping_no_sample :
  forall e, bookkeeping_event e = true -> is_elapsed_sample e = false.
Proof. event_cases. Qed.

(** X13: When the reconstruct path is chosen and each of the [num_reps]
    calls succeeds, [main] makes exactly that many calls and records as many
    samples, never enters the pixel block, and writes the buffer left by the
    last call once, to the output file, unless the buffer or the file name
    is empty; the status is that of this one write. *)
Theorem reconstruct_success_writes_once :
  initial_decode_to_pixels args cmdline (snd (output_target env args))
  = false ->
  (forall j, (j < num_reps args)%nat -> succeeds j = true) ->
  let filename_out := fst (fst (output_target env args)) in
  let jpeg_bytes := bytes_before (num_reps args) in
  entered (fst run) = [ReconstructPath]
  /\ count is_reconstruct_call (fst run) = num_reps args
  /\ count is_elapsed_sample (fst run) = num_reps args
  /\ count is_decode_call (fst run) = 0%nat
  /\ filter is_write (fst run)
     = (if bytes_empty jpeg_bytes || string_empty filename_out then []
        else [CallWriteFile ReconstructedJpeg filename_out jpeg_bytes])
  /\ snd run
     = (if bytes_empty jpeg_bytes || string_empty filename_out
           || WriteFile env filename_out jpeg_bytes
        then EXIT_SUCCESS else EXIT_FAILURE).
Proof.
  intros Hpath Hall. cbn zeta.
  destruct (reconstruct_needs_output env args cmdline Hpath) as [Hfile _].
  rewrite main_run by now left.
  rewrite decode_paths_reconstruct by assumption.
  destruct preamble_run with (env := env) (args := args) as [_ Hpre].
  destruct (output_target env args) as [[filename_out extension] codec].
  cbn [fst snd].
  pose proof (reconstruct_loop_all_succeed (num_reps args) 0%nat
                (fun j Hj => Hall j ltac:(lia))) as Hloop.
  cbn zeta in Hloop.
  change (jpeg_bytes_before env args compressed 0) with (@nil Byte.byte)
    in Hloop.
  replace (0 + num_reps args)%nat with (num_reps args) in Hloop by lia.
  destruct Hloop as (Hout & Hrec & Hsamples & Hwrites).
  pose proof (reconstruct_loop_events env args compressed (num_reps args)
                0%nat []) as Hevents.
  assert (Hblock :
    exists tl,
      reconstruct_block env args compressed filename_out
      = ((Enter ReconstructPath :: tl
          ++ (if bytes_empty (bytes_before (num_reps args)) then []
              else (if quiet args then []
                    else [VerbosePrintf 0 MsgReconstructed])
                   ++ (if string_empty filename_out then []
                       else [CallWriteFile ReconstructedJpeg filename_out
                               (bytes_before (num_reps args))])))%list,
         if bytes_empty (bytes_before (num_reps args))
            || string_empty filename_out
            || WriteFile env filename_out (bytes_before (num_reps args))
         then inl false else inr EXIT_FAILURE)
      /\ count is_reconstruct_call tl = num_reps args
      /\ count is_elapsed_sample tl = num_reps args
      /\ filter is_write tl = []
      /\ forallb reconstruct_event tl = true).
  { unfold reconstruct_block.
    destruct (reconstruct_loop env args compressed (num_reps args) 0 [])
      as [tl rl]. cbn [fst snd] in *. subst rl. exists tl.
    split; [|auto].
    cbn [bind emit fst snd app].
    destruct (bytes_empty (bytes_before (num_reps args))),
      (string_empty filename_out),
      (WriteFile env filename_out (bytes_before (num_reps args))),
      (quiet args);
      cbn [negb orb when bind emit ret leave fst snd app];
      rewrite ?app_nil_r; reflexivity. }
  clear Hout Hrec Hsamples Hwrites Hevents.
  destruct Hblock as (tl & Hblock & Hrec & Hsamples & Hwrites & Hevents).
  set (jpeg_bytes := bytes_before (num_reps args)) in *.
  assert (Hpre_rec := count_excluded is_reconstruct_call _ _ Hpre
                        bookkeeping_no_reconstruct).
  assert (Hpre_sample := count_excluded is_elapsed_sample _ _ Hpre
                           bookkeeping_no_sample).
  assert (Hpre_decode := count_excluded is_decode_call _ _ Hpre
                           bookkeeping_no_decode).
  assert (Hpre_write := filter_excluded is_write _ _ Hpre
                          bookkeeping_no_write).
  assert (Hpre_enter := entered_excluded _ _ Hpre bookkeeping_no_enter).
  assert (Hloop_decode : count is_decode_call tl = 0%nat).
  { eapply count_excluded; [exact Hevents | apply reconstruct_no_decode]. }
  assert (Hloop_enter : entered tl = []).
  { eapply entered_excluded; [exact Hevents | apply reconstruct_no_enter]. }
  rewrite Hblock. clear Hblock.
  destruct (bytes_empty jpeg_bytes), (string_empty filename_out),
    (WriteFile env filename_out jpeg_bytes), (quiet args);
    cbn [negb orb when bind emit ret leave fst snd app outcome_of];
    rewrite ?app_nil_r;
    repeat first [rewrite entered_app | rewrite count_app
                 | rewrite filter_app | rewrite count_cons];
    rewrite ?Hpre_rec, ?Hpre_sample, ?Hpre_decode, ?Hpre_write, ?Hpre_enter;
    cbn [entered filter is_write is_reconstruct_call is_elapsed_sample
         is_decode_call count List.length app];
    rewrite ?entered_app, ?filter_app, ?Hloop_enter, ?Hwrites, ?Hrec,
            ?Hsamples, ?Hloop_decode;
    cbn [entered filter is_write app List.length];
    repeat split; lia.
Qed.

End ReconstructSuccess.

Lemma reconstruct_success_writes_once_witness :
  let env := sample_env kJPG ".jpg" always_reconstructs true in
  let args := sample_args (Some "out.jpg") 2 false false false "white" in
  let run := main env args sample_cmdline [] in
  entered (fst run) = [ReconstructPath]
  /\ count is_reconstruct_call (fst run) = 2%nat
  /\ filter is_write (fst run)
     = [CallWriteFile ReconstructedJpeg "out.jpg" [Byte.xff; Byte.xff]]
  /\ snd run = EXIT_SUCCESS.
Proof.
  cbv zeta.
  pose proof (reconstruct_success_writes_once
                (sample_env kJPG ".jpg" always_reconstructs true)
                (sample_args (Some "out.jpg") 2 false false false "white")
                sample_cmdline [] eq_refl (fun j _ => eq_refl)) as H.
  cbv zeta in H.
  destruct H as (H1 & H2 & _ & _ & H3 & H4).
  split; [exact H1|]. split; [exact H2|]. split; [exact H3 | exact H4].
Defined.

(** ** A decode to pixels that fails *)

Section DecodeFailure.

Variable env : Collaborators.
Variable args : DecompressArgs.
Variable cmdline : CommandLineParser.
Variable compressed : bytes.

Local Notation "'run'" := (main env args cmdline compressed).

Section Loop.

Variable color_space' : string.
Variable bits_per_sample' : Z.
Variable formats : list JxlPixelFormat.
Variable accepts_cmyk : bool.

Local Notation "'dparams'" :=
  (pixel_dparams args color_space' bits_per_sample' formats accepts_cmyk).
Local Notation "'state_before'" :=
  (decode_state_before env dparams compressed).
Local Notation "'succeeds'" := (decode_succeeds env dparams compressed).

Lemma decode_call_run (i : nat) :
  DecompressJxlToPackedPixelFile env args color_space' bits_per_sample'
    compressed formats accepts_cmyk i (fst (state_before i))
    (snd (state_before i))
  = (CallDecode i dparams
     :: (if succeeds i
         then [StatsNotifyElapsed;
               StatsSetImageSize (info_xsize (fst (state_before (S i))))
                 (info_ysize (fst (state_before (S i))))]
         else []),
     inl (succeeds i, fst (state_before (S i)), snd (state_before (S i)))).
Proof.
  unfold DecompressJxlToPackedPixelFile, decode_succeeds.
  cbn [decode_state_before].
  destruct (state_before i) as [ppf decoded_bytes]. cbn [fst snd].
  destruct (DecodeImageJXL env i dparams compressed ppf decoded_bytes)
    as [[ok ppf'] decoded_bytes'].
  destruct ok; reflexivity.
Qed.

Lemma pixel_loop_first_failure (k n : nat) :
  forall i,
  (i <= k < i + n)%nat ->
  (forall j, (i <= j < k)%nat -> succeeds j = true) ->
  succeeds k = false ->
  let r := pixel_loop env args color_space' bits_per_sample' compressed
             formats accepts_cmyk n i (fst (state_before i))
             (snd (state_before i)) in
  snd r = inr EXIT_FAILURE
  /\ count is_decode_call (fst r) = (S k - i)%nat
  /\ count is_elapsed_sample (fst r) = (k - i)%nat
  /\ count is_decode_failure (fst r) = 1%nat.
Proof.
  induction n as [|n IH]; intros i Hik Hbefore Hfail; [lia|].
  cbn zeta. cbn [pixel_loop].
  rewrite (bind_value _ _ _ _ (decode_call_run i)).
  destruct (Nat.eq_dec i k) as [->|Hne].
  - rewrite Hfail. cbn [negb bind emit leave fst snd app].
    rewrite !count_cons.
    cbn [is_decode_call is_elapsed_sample is_decode_failure count filter
         List.length].
    repeat split; lia.
  - rewrite (Hbefore i) by lia. cbn [negb fst snd].
    specialize (IH (S i) ltac:(lia) (fun j Hj => Hbefore j ltac:(lia)) Hfail).
    cbn zeta in IH. destruct IH as (-> & IHcalls & IHsamples & IHfail).
    split; [reflexivity|].
    rewrite !count_app, !count_cons, IHcalls, IHsamples, IHfail.
    cbn [is_decode_call is_elapsed_sample is_decode_failure count filter
         List.length].
    repeat split; lia.
Qed.

End Loop.

Lemma negotiation_returns (filename_out extension : string) :
  string_empty filename_out = true
  \/ Encoder_FromExtension env extension <> None ->
  exists formats encoder accepts_cmyk,
    negotiate_formats env args filename_out extension
    = (if string_empty filename_out then []
       else [CallFromExtension extension],
       inl (formats, encoder, accepts_cmyk)).
Proof.
  intros Hcase. destruct (string_empty filename_out) eqn:Hname.
  - rewrite (negotiate_without_output env args _ _ Hname). eauto.
  - destruct Hcase as [?|Henc]; [discriminate|].
    destruct (Encoder_FromExtension env extension) as [encoder|] eqn:E;
      [|congruence].
    rewrite (negotiate_with_encoder env args _ _ _ Hname E). eauto.
Qed.


End DecodeFailure.


(** ** The files of the main output *)

Section OutputFiles.

Variable env : Collaborators.
Variable args : DecompressArgs.
Variable filename_out extension : string.
Variable encoded_image : EncodedImage.

Lemma main_writes_app (t t' : list Event) :
  main_writes (t ++ t') = (main_writes t ++ main_writes t')%list.
Proof.
  induction t as [|e t IH]; [reflexivity|].
  destruct e; cbn; try exact IH.
  match goal with site : WriteSite |- _ => destruct site end; cbn;
    now rewrite ?IH.
Qed.

Lemma main_writes_excluded (q : Event -> bool) (t : list Event) :
  forallb q t = true -> (forall e, q e = true -> is_main_write e = false) ->
  main_writes t = [].
Proof.
  intros Hq Hex. induction t as [|e t IH]; [reflexivity|].
  cbn in Hq. apply andb_true_iff in Hq as [He Ht].
  specialize (Hex e He). specialize (IH Ht).
  destruct e; cbn; try exact IH.
  match goal with site : WriteSite |- _ => destruct site end;
    try exact IH. discriminate.
Qed.

Section Loops.

Variable nlayers nframes : Z.

Local Notation "'file'" :=
  (output_file filename_out extension encoded_image nlayers nframes).

Lemma frames_loop_writes (i n : nat) :
  forall j,
  (forall j', (j <= j' < j + n)%nat ->
     select_bitstream encoded_image i j' <> None) ->
  (forall j', (j <= j' < j + n)%nat ->
     WriteFile env (fst (file (i, j'))) (snd (file (i, j'))) = true) ->
  let r := frames_loop env args filename_out extension encoded_image
             nlayers nframes i n j in
  main_writes (fst r) = map (fun j' => file (i, j')) (seq j n)
  /\ snd r = inl tt.
Proof.
  induction n as [|n IH]; intros j Hsel Hwrite; cbn zeta.
  - split; reflexivity.
  - cbn [frames_loop seq map].
    specialize (Hsel j ltac:(lia)) as Hj.
    specialize (Hwrite j ltac:(lia)) as Hwj.
    unfold output_file in Hwj |- *. cbn [fst snd] in Hwj.
    destruct (select_bitstream encoded_image i j) as [bitstream|];
      [|congruence].
    rewrite Hwj. cbn [negb].
    specialize (IH (S j) (fun j' Hj' => Hsel j' ltac:(lia))
                  (fun j' Hj' => Hwrite j' ltac:(lia))).
    cbn zeta in IH. destruct IH as [IHwrites IHout].
    rewrite !fst_bind, !snd_bind. cbn [emit fst snd].
    replace (snd (when (negb (quiet args))
                    (emit (VerbosePrintf 1 (MsgWroteOutput _)))))
      with (@inl unit Outcome tt) by (destruct (quiet args); reflexivity).
    split; [|exact IHout].
    rewrite !main_writes_app. cbn [main_writes app].
    replace (main_writes (fst (when (negb (quiet args)) _)))
      with (@nil (string * bytes)) by (destruct (quiet args); reflexivity).
    cbn [app]. f_equal. exact IHwrites.
Qed.

Lemma layers_loop_writes (n : nat) :
  forall i,
  (forall i' j', (i <= i' < i + n)%nat -> (j' < Z.to_nat nframes)%nat ->
     select_bitstream encoded_image i' j' <> None) ->
  (forall i' j', (i <= i' < i + n)%nat -> (j' < Z.to_nat nframes)%nat ->
     WriteFile env (fst (file (i', j'))) (snd (file (i', j'))) = true) ->
  let r := layers_loop env args filename_out extension encoded_image
             nlayers nframes n i in
  main_writes (fst r)
  = map file (list_prod (seq i n) (seq 0 (Z.to_nat nframes)))
  /\ snd r = inl tt.
Proof.
  induction n as [|n IH]; intros i Hsel Hwrite; cbn zeta.
  - split; reflexivity.
  - cbn [layers_loop seq list_prod].
    destruct (frames_loop_writes i (Z.to_nat nframes) 0%nat
                (fun j' Hj' => Hsel i j' ltac:(lia) ltac:(lia))
                (fun j' Hj' => Hwrite i j' ltac:(lia) ltac:(lia)))
      as [Hframes Hout].
    specialize (IH (S i)
                  (fun i' j' Hi' Hj' => Hsel i' j' ltac:(lia) Hj')
                  (fun i' j' Hi' Hj' => Hwrite i' j' ltac:(lia) Hj')).
    cbn zeta in IH. destruct IH as [IHwrites IHout].
    rewrite fst_bind, snd_bind, Hout. split; [|exact IHout].
    rewrite main_writes_app, Hframes, IHwrites, map_app, map_map.
    reflexivity.
Qed.

End Loops.

Lemma in_range_selected (i j : nat) :
  ~ reads_out_of_range args encoded_image ->
  (i < Z.to_nat (num_layers args encoded_image))%nat ->
  (j < Z.to_nat (num_frames args encoded_image))%nat ->
  select_bitstream encoded_image i j <> None.
Proof.
  intros Hrange Hi Hj Hnone. apply Hrange. exists i, j.
  repeat split; try lia. exact Hnone.
Qed.

(** X15: When the encoder succeeds with an image that the loops read in
    range and every write succeeds, the encode stage writes exactly the
    files of [output_files], in that order: one file for each layer and
    frame. *)
Theorem encode_stage_writes_grid (encoder : Encoder)
    (ppf : PackedPixelFile) :
  Encode encoder (encode_options args) ppf = Some encoded_image ->
  ~ reads_out_of_range args encoded_image ->
  (forall fn contents,
     In (fn, contents)
        (output_files args filename_out extension encoded_image) ->
     WriteFile env fn contents = true) ->
  main_writes
    (fst (encode_stage env args filename_out extension encoder ppf))
  = output_files args filename_out extension encoded_image
  /\ List.length (output_files args filename_out extension encoded_image)
     = (Z.to_nat (num_layers args encoded_image)
        * Z.to_nat (num_frames args encoded_image))%nat.
Proof.
  intros Henc Hrange Hwrite. split.
  2:{ unfold output_files. now rewrite length_map, length_prod, !length_seq. }
  unfold encode_stage. unfold encode_options in Henc |- *.
  rewrite !fst_bind. cbn [emit fst snd].
  replace (snd (when (use_sjpeg args) _)) with (@inl unit Outcome tt)
    by (destruct (use_sjpeg args); reflexivity).
  replace (snd (when (negb (quiet args)) _)) with (@inl unit Outcome tt)
    by (destruct (quiet args); reflexivity).
  rewrite Henc.
  fold (num_layers args encoded_image). fold (num_frames args encoded_image).
  destruct (layers_loop_writes (num_layers args encoded_image)
              (num_frames args encoded_image)
              (Z.to_nat (num_layers args encoded_image)) 0%nat) as [Hw Hout].
  { intros i j Hi Hj. apply in_range_selected; [assumption | lia | lia]. }
  { intros i j Hi Hj. apply Hwrite. unfold output_files.
    rewrite <- surjective_pairing. apply in_map.
    apply in_prod; apply in_seq; lia. }
  rewrite fst_bind, Hout. rewrite !main_writes_app, Hw.
  rewrite (main_writes_excluded optional_output_event
             (fst (write_optional_outputs env _)));
    [|apply optional_outputs_events | event_cases].
  replace (main_writes (fst (when (use_sjpeg args) _)))
    with (@nil (string * bytes)) by (destruct (use_sjpeg args); reflexivity).
  replace (main_writes (fst (when (negb (quiet args)) _)))
    with (@nil (string * bytes)) by (destruct (quiet args); reflexivity).
  cbn [main_writes app]. now rewrite app_nil_r.
Qed.

End OutputFiles.

Section DistinctFiles.

Variable args : DecompressArgs.
Variable filename_out extension : string.
Variable encoded_image : EncodedImage.

Lemma to_int_small (z : Z) : 0 <= z < 2 ^ 31 -> to_int z = z.
Proof.
  intros Hz. unfold to_int. rewrite Z.mod_small; lia.
Qed.

Lemma NoDup_list_prod {A B : Type} (l : list A) (l' : list B) :
  NoDup l -> NoDup l' -> NoDup (list_prod l l').
Proof.
  intros Hl Hl'. induction Hl as [|a l Ha Hl IH]; cbn [list_prod].
  - constructor.
  - apply NoDup_app; [| exact IH |].
    + apply NoDup_map_NoDup_ForallPairs; [|exact Hl'].
      intros x y _ _ H. now injection H.
    + intros [a' b] Hin Hin'. apply in_map_iff in Hin as (y & Hy & _).
      injection Hy as <- _. apply in_prod_iff in Hin' as [Hin' _].
      contradiction.
Qed.


End DistinctFiles.

Lemma encode_stage_writes_grid_witness :
  let env := sample_env_with two_frame_encoder (fun _ => true) in
  let args :=
    {| file_out := Some "out.ppm"; output_format := ""; num_reps := 1;
       disable_output := false; bits_per_sample := -1; display_nits := 0%Q;
       color_space := ""; downsampling := 0; allow_partial_files := false;
       pixels_to_jpeg := false; jpeg_quality := 95; use_sjpeg := false;
       render_spotcolors := true; coalescing := true;
       output_extra_channels := true; output_frames := true;
       preview_out := ""; icc_out := ""; orig_icc_out := "";
       metadata_out := ""; background_spec := "white"; alpha_blend := false;
       print_read_bytes := false; quiet := false;
       opt_jpeg_quality_id := 7 |} in
  main_writes
    (fst (encode_stage env args "out.ppm" ".ppm" two_frame_encoder empty_ppf))
  = [("out.ppm-0.ppm", [Byte.x01]); ("out.ppm-1.ppm", [Byte.x02]);
     ("out.ppm-0-ec1.pgm", [Byte.x03]); ("out.ppm-1-ec1.pgm", [Byte.x04])].
Proof.
  intros env args.
  refine (proj1 (encode_stage_writes_grid env args "out.ppm" ".ppm" _
                   two_frame_encoder empty_ppf eq_refl _ _)).
  - intros (i & j & Hi & Hj & Hnone).
    change (num_layers args _) with 2 in Hi.
    change (num_frames args _) with 2 in Hj.
    assert (Hi' : (i = 0 \/ i = 1)%nat) by lia.
    assert (Hj' : (j = 0 \/ j = 1)%nat) by lia.
    destruct Hi' as [-> | ->], Hj' as [-> | ->]; discriminate Hnone.
  - reflexivity.
Defined.


(** The optional outputs are outside the grid: with [--preview_out] and
    [--metadata_out] set to the output path, one run writes the same file
    three times and succeeds. *)
Example optional_outputs_overwrite_main_output :
  let env := sample_env_with metadata_encoder (fun _ => true) in
  let args :=
    {| file_out := Some "out.png"; output_format := ""; num_reps := 1;
       disable_output := false; bits_per_sample := -1; display_nits := 0%Q;
       color_space := ""; downsampling := 0; allow_partial_files := false;
       pixels_to_jpeg := false; jpeg_quality := 95; use_sjpeg := false;
       render_spotcolors := true; coalescing := true;
       output_extra_channels := false; output_frames := false;
       preview_out := "out.png"; icc_out := ""; orig_icc_out := "";
       metadata_out := "out.png"; background_spec := "white";
       alpha_blend := false; print_read_bytes := false; quiet := false;
       opt_jpeg_quality_id := 7 |} in
  let run := main env args sample_cmdline [] in
  filter is_write (fst run)
  = [CallWriteFile MainOutput "out.png" [Byte.x01];
     CallWriteFile OptionalOutput "out.png" [Byte.x05];
     CallWriteFile OptionalOutput "out.png" [Byte.x06]]
  /\ snd run = EXIT_SUCCESS.
Proof. cbv zeta. split; reflexivity. Qed.

(** ** An output format without an encoder *)

Section UnknownExtension.

Variable env : Collaborators.
Variable args : DecompressArgs.
Variable cmdline : CommandLineParser.
Variable compressed : bytes.

Local Notation "'run'" := (main env args cmdline compressed).

Lemma pixel_block_unknown_extension (color_space' : string)
    (bits_per_sample' : Z) (filename_out extension : string) :
  string_empty filename_out = false ->
  Encoder_FromExtension env extension = None ->
  pixel_block env args color_space' bits_per_sample' compressed filename_out
    extension
  = ([Enter PixelPath; CallFromExtension extension;
      Stderr (if string_empty extension then MsgNoOutputFormat
              else MsgCannotDecodeTo extension)],
     inr EXIT_FAILURE).
Proof.
  intros Hname Henc. unfold pixel_block, negotiate_formats.
  rewrite Hname, Henc. reflexivity.
Qed.

(** X17: With an output file whose extension has no encoder, [main] never
    calls the decoder: a run that enters the pixel block stops there with
    the failure status, and a run that starts on the pixel path consists of
    the preamble, the lookup of the encoder and the error message. *)
Theorem unknown_extension_is_fatal :
  let filename_out := fst (fst (output_target env args)) in
  let extension := snd (fst (output_target env args)) in
  string_empty filename_out = false ->
  Encoder_FromExtension env extension = None ->
  count is_decode_call (fst run) = 0%nat
  /\ (In (Enter PixelPath) (fst run) -> snd run = EXIT_FAILURE)
  /\ (initial_decode_to_pixels args cmdline (snd (output_target env args))
      = true ->
      run = ((fst (preamble env args)
              ++ [Enter PixelPath; CallFromExtension extension;
                  Stderr (if string_empty extension then MsgNoOutputFormat
                          else MsgCannotDecodeTo extension)])%list,
             EXIT_FAILURE)).
Proof.
  cbn zeta. intros Hname Henc.
  pose proof (output_needs_file env args Hname) as Hvalid.
  rewrite main_run by assumption.
  destruct preamble_run with (env := env) (args := args) as [_ Hpre].
  unfold decode_paths.
  destruct (output_target env args) as [[filename_out extension] codec].
  cbn [fst snd] in *.
  pose proof (pixel_block_unknown_extension
                (effective_color_space args codec)
                (effective_bits_per_sample args cmdline codec extension)
                filename_out extension Hname Henc) as Hblock.
  destruct (initial_decode_to_pixels args cmdline codec); cbn [negb].
  - rewrite bind_ret_l, Hblock. cbn [fst snd outcome_of].
    rewrite app_nil_r, !count_app,
      (count_excluded _ _ _ Hpre bookkeeping_no_decode).
    repeat split.
  - destruct (reconstruct_block_events env args compressed filename_out)
      as (tr & Htr & Hrec).
    assert (Hcount : forall tail,
              count is_decode_call tail = 0%nat ->
              count is_decode_call
                (fst (preamble env args) ++ (Enter ReconstructPath :: tr)
                 ++ tail) = 0%nat).
    { intros tail Htail.
      rewrite !count_app, count_cons, Htail,
        (count_excluded _ _ _ Hpre bookkeeping_no_decode),
        (count_excluded _ _ _ Hrec reconstruct_no_decode).
      reflexivity. }
    assert (Hpixel : forall tail,
              ~ In (Enter PixelPath) tail ->
              ~ In (Enter PixelPath)
                  (fst (preamble env args) ++ (Enter ReconstructPath :: tr)
                   ++ tail)).
    { intros tail Htail Hin.
      rewrite forallb_forall in Hpre, Hrec.
      apply in_app_or in Hin as [Hin|Hin];
        [specialize (Hpre _ Hin); discriminate|].
      apply in_app_or in Hin as [Hin|Hin]; [|contradiction].
      destruct Hin as [Hin|Hin]; [discriminate|].
      specialize (Hrec _ Hin). discriminate. }
    destruct (reconstruct_block env args compressed filename_out)
      as [t [[|]|o]]; cbn [fst] in Htr; subst t;
      cbn [bind ret fst snd outcome_of]; rewrite ?Hblock;
      cbn [fst snd outcome_of]; rewrite ?app_nil_r.
    + split; [|split; [reflexivity | discriminate]].
      apply Hcount. reflexivity.
    + split; [|split; [|discriminate]].
      * apply Hcount. now destruct (quiet args).
      * intros Hin. exfalso. revert Hin. apply Hpixel.
        destruct (quiet args); cbn; intros H;
          repeat (destruct H as [H|H]; try discriminate H); exact H.
    + split; [|split; [|discriminate]].
      * rewrite <- (app_nil_r (Enter ReconstructPath :: tr)).
        apply Hcount. reflexivity.
      * intros Hin. exfalso. revert Hin.
        rewrite <- (app_nil_r (Enter ReconstructPath :: tr)).
        apply Hpixel. intros [].
Qed.

End UnknownExtension.

Lemma unknown_extension_is_fatal_witness :
  let args := sample_args (Some "out.xyz") 2 false true false "white" in
  main sample_env_without_encoder args sample_cmdline []
  = ([Enter PixelPath; CallFromExtension ".xyz";
      Stderr (MsgCannotDecodeTo ".xyz")], EXIT_FAILURE).
Proof.
  cbv zeta.
  destruct (unknown_extension_is_fatal sample_env_without_encoder
              (sample_args (Some "out.xyz") 2 false true false "white")
              sample_cmdline [] eq_refl eq_refl) as (_ & _ & H).
  exact (H eq_refl).
Defined.

(** ** The optional outputs *)

Section OptionalOutputs.

Variable env : Collaborators.

(** X18: An optional output without a file name or without contents is
    skipped without a write and without an error; the others are written in
    the order given, and when each of these writes succeeds the sequence
    returns. *)
Theorem optional_outputs_skip_empty (outputs : list (string * bytes)) :
  (forall output,
     In output outputs -> wanted_output output = true ->
     WriteFile env (fst output) (snd output) = true) ->
  write_optional_outputs env outputs
  = (map optional_write (filter wanted_output outputs), inl tt).
Proof.
  induction outputs as [|[filename contents] rest IH]; intros Hwrite;
    [reflexivity|].
  cbn [write_optional_outputs filter]. unfold WriteOptionalOutput.
  specialize (IH (fun output Hin => Hwrite output (or_intror Hin))).
  specialize (Hwrite (filename, contents) (or_introl eq_refl)).
  unfold wanted_output in *. cbn [fst snd] in *.
  destruct (string_empty filename || bytes_empty contents); cbn [negb] in *.
  - rewrite bind_ret_l. exact IH.
  - rewrite (Hwrite eq_refl).
    cbn [bind emit ret fst snd negb app]. rewrite IH. reflexivity.
Qed.

End OptionalOutputs.

Lemma optional_outputs_skip_empty_witness :
  write_optional_outputs (sample_env kPNG ".png" never_reconstructs true)
    [("preview.png", []); ("", [Byte.x01]); ("icc.bin", [Byte.x02])]
  = ([CallWriteFile OptionalOutput "icc.bin" [Byte.x02]], inl tt).
Proof.
  apply (optional_outputs_skip_empty
           (sample_env kPNG ".png" never_reconstructs true)
           [("preview.png", []); ("", [Byte.x01]); ("icc.bin", [Byte.x02])]).
  intros output _ _. reflexivity.
Defined.

(** ** AddFormatsWithAlphaChannel on any list *)

Section FormatsInGeneral.

Lemma incr_channels_not_gray_or_rgb (f : JxlPixelFormat) :
  gray_or_rgb f = true -> gray_or_rgb (incr_channels f) = false.
Proof.
  unfold gray_or_rgb, incr_channels. intros H.
  apply orb_true_iff in H as [H|H]; apply Z.eqb_eq in H; rewrite H;
    reflexivity.
Qed.

(** One more format at most is appended by [add_format], and only when it
    is not there yet. *)
Lemma add_format_cases (formats : list JxlPixelFormat) (g : JxlPixelFormat) :
  (In g formats /\ add_format formats g = formats)
  \/ (~ In g formats /\ add_format formats g = (formats ++ [g])%list).
Proof.
  unfold add_format. fold (present g formats).
  destruct (present g formats) eqn:Hp.
  - left. split; [now apply present_In | reflexivity].
  - right. split; [|reflexivity]. rewrite <- present_In. congruence.
Qed.

Lemma add_alpha_loop_general (n : nat) :
  forall i formats,
  (i + n <= List.length formats)%nat ->
  exists added,
    add_alpha_loop n i formats = (formats ++ added)%list
    /\ NoDup added
    /\ (List.length added <= n)%nat
    /\ (forall g, In g added ->
        ~ In g formats
        /\ exists f, In f formats /\ gray_or_rgb f = true
                     /\ g = incr_channels f)
    /\ (forall k f, (i <= k < i + n)%nat -> nth_error formats k = Some f ->
        gray_or_rgb f = true -> In (incr_channels f) (formats ++ added)).
Proof.
  induction n as [|n IH]; intros i formats Hlen.
  - exists []. cbn [add_alpha_loop]. rewrite app_nil_r.
    repeat split; try constructor; try lia; intros; try contradiction; lia.
  - cbn [add_alpha_loop].
    destruct (nth_error formats i) as [f|] eqn:Hi;
      [|apply nth_error_None in Hi; lia].
    assert (Hf : In f formats) by (eapply nth_error_In; eassumption).
    set (step := if gray_or_rgb f
                 then add_format formats (incr_channels f) else formats).
    assert (Hstep : exists first,
               step = (formats ++ first)%list
               /\ (first = []
                   \/ (first = [incr_channels f] /\ gray_or_rgb f = true
                       /\ ~ In (incr_channels f) formats))
               /\ (gray_or_rgb f = true -> In (incr_channels f) step)).
    { subst step. destruct (gray_or_rgb f) eqn:Hg.
      - destruct (add_format_cases formats (incr_channels f))
          as [[Hin ->]|[Hnot ->]].
        + exists []. rewrite app_nil_r. auto.
        + exists [incr_channels f]. split; [reflexivity|].
          split; [right; auto|]. intros _. apply in_or_app. right. now left.
      - exists []. rewrite app_nil_r. split; [reflexivity|].
        split; [now left | discriminate]. }
    destruct Hstep as (first & Hstep & Hfirst & Hcovered).
    destruct (IH (S i) step) as (added & Hloop & Hnd & Hsize & Horigin & Hall).
    { rewrite Hstep, List.length_app. lia. }
    exists (first ++ added)%list. rewrite Hloop, Hstep, <- app_assoc.
    assert (Hsub : forall g, In g formats -> In g step)
      by (intros g Hg; rewrite Hstep; apply in_or_app; now left).
    split; [reflexivity|]. split; [|split; [|split]].
    + destruct Hfirst as [->|(-> & Hg & Hnot)]; [exact Hnd|].
      cbn [app]. constructor; [|exact Hnd].
      intros Hin. apply Horigin in Hin as [Hnotin _].
      apply Hnotin, Hcovered, Hg.
    + rewrite List.length_app.
      destruct Hfirst as [->|(-> & _)]; cbn [List.length]; lia.
    + intros g Hin. apply in_app_or in Hin as [Hin|Hin].
      * destruct Hfirst as [->|(-> & Hg & Hnot)]; [contradiction|].
        destruct Hin as [<-|[]]. split; [exact Hnot|]. eauto.
      * apply Horigin in Hin as [Hnotin (h & Hh & Hg & ->)].
        split; [intros Hin; apply Hnotin, Hsub, Hin|].
        exists h. split; [|auto].
        rewrite Hstep in Hh. apply in_app_or in Hh as [Hh|Hh]; [exact Hh|].
        exfalso. destruct Hfirst as [->|(-> & Hgf & _)]; [contradiction|].
        destruct Hh as [<-|[]].
        rewrite (incr_channels_not_gray_or_rgb f Hgf) in Hg. discriminate.
    + intros k h Hk Hnth Hg. rewrite app_assoc, <- Hstep.
      destruct (Nat.eq_dec k i) as [->|Hne].
      * rewrite Hi in Hnth. injection Hnth as <-.
        apply in_or_app. left. now apply Hcovered.
      * apply (Hall k h); [lia | | exact Hg].
        rewrite Hstep, nth_error_app1; [exact Hnth|].
        apply nth_error_Some. congruence.
Qed.

(** X19: On any list, duplicates or not, [AddFormatsWithAlphaChannel] keeps
    the list as it is and appends, each once, exactly the alpha variants of
    its formats with one or three channels that the list does not hold: it
    adds at most as many formats as it was given. *)
Theorem AddFormatsWithAlphaChannel_general (formats : list JxlPixelFormat) :
  exists added,
    AddFormatsWithAlphaChannel formats = (formats ++ added)%list
    /\ NoDup added
    /\ (List.length added <= List.length formats)%nat
    /\ forall g,
         In g added <->
         ~ In g formats
         /\ exists f, In f formats /\ gray_or_rgb f = true
                      /\ g = with_alpha f.
Proof.
  destruct (add_alpha_loop_general (List.length formats) 0%nat formats
              ltac:(lia)) as (added & Hloop & Hnd & Hsize & Horigin & Hall).
  exists added. split; [exact Hloop|]. split; [exact Hnd|].
  split; [exact Hsize|]. intros g. split.
  - intros Hin. apply Horigin in Hin as [Hnot (f & Hf & Hg & ->)].
    split; [exact Hnot|]. exists f.
    rewrite <- incr_channels_with_alpha by assumption. auto.
  - intros [Hnot (f & Hf & Hg & ->)].
    apply In_nth_error in Hf as [k Hk].
    assert (Hrange : (0 <= k < 0 + List.length formats)%nat).
    { split; [lia|]. apply nth_error_Some. congruence. }
    specialize (Hall k f Hrange Hk Hg).
    rewrite incr_channels_with_alpha in Hall by assumption.
    apply in_app_or in Hall as [Hall|Hall]; [contradiction | exact Hall].
Qed.

Lemma add_alpha_loop_closed (formats : list JxlPixelFormat) :
  (forall f, In f formats -> gray_or_rgb f = true ->
     In (incr_channels f) formats) ->
  forall n i, add_alpha_loop n i formats = formats.
Proof.
  intros Hclosed. induction n as [|n IH]; intros i; [reflexivity|].
  cbn [add_alpha_loop].
  destruct (nth_error formats i) as [f|] eqn:Hi; [|apply IH].
  destruct (gray_or_rgb f) eqn:Hg; [|apply IH].
  apply nth_error_In in Hi.
  destruct (add_format_cases formats (incr_channels f))
    as [[_ ->]|[Hnot _]]; [apply IH|].
  exfalso. apply Hnot, Hclosed; assumption.
Qed.

(** X20: A second pass adds nothing: the formats appended have two or four
    channels, and every format with one or three channels has found its
    variant in the first pass. *)
Theorem AddFormatsWithAlphaChannel_idempotent
    (formats : list JxlPixelFormat) :
  AddFormatsWithAlphaChannel (AddFormatsWithAlphaChannel formats)
  = AddFormatsWithAlphaChannel formats.
Proof.
  destruct (add_alpha_loop_general (List.length formats) 0%nat formats
              ltac:(lia)) as (added & Hloop & _ & _ & Horigin & Hall).
  change (AddFormatsWithAlphaChannel formats = (formats ++ added)%list)
    in Hloop.
  rewrite Hloop. unfold AddFormatsWithAlphaChannel.
  apply add_alpha_loop_closed. intros f Hin Hg.
  apply in_app_or in Hin as [Hin|Hin].
  - apply In_nth_error in Hin as [k Hk].
    apply (Hall k f); [|exact Hk | exact Hg].
    split; [lia|]. apply nth_error_Some. congruence.
  - exfalso. apply Horigin in Hin as [_ (h & _ & Hh & ->)].
    rewrite (incr_channels_not_gray_or_rgb h Hh) in Hg. discriminate.
Qed.

End FormatsInGeneral.

(** ** ParseBackgroundColor: the colours it returns and the way it fails *)

Section BackgroundExtras.

Lemma byte_values_all (P : Z -> bool) :
  forallb P byte_values = true -> forall c, 0 <= c <= 255 -> P c = true.
Proof.
  intros Hall c Hc. rewrite forallb_forall in Hall. apply Hall.
  unfold byte_values. apply in_map_iff. exists (Z.to_nat c).
  split; [lia | apply in_seq; lia].
Qed.

(** The product with [1.0f / 255] stays in the unit interval for every
    byte; for 255 the exact product of the two floats is above one and is
    rounded down to [1.0f]. *)
Lemma scale_255_range (c : Z) :
  0 <= c <= 255 ->
  Float32.leb Float32.zero (scale_255 c) = true
  /\ Float32.leb (scale_255 c) Float32.one = true.
Proof.
  intros Hc. apply andb_true_iff.
  apply (byte_values_all
           (fun c => Float32.leb Float32.zero (scale_255 c)
                     && Float32.leb (scale_255 c) Float32.one));
    [vm_compute; reflexivity | exact Hc].
Qed.

Lemma land_255_range (x : Z) : 0 <= Z.land x 255 <= 255.
Proof.
  assert (Hmod : Z.land x 255 = x mod 2 ^ 8)
    by (change 255 with (Z.ones 8); apply Z.land_ones; lia).
  rewrite Hmod. pose proof (Z.mod_pos_bound x (2 ^ 8) ltac:(lia)) as H.
  change (2 ^ 8) with 256 in *. lia.
Qed.

Example scale_255_of_255_is_rounded :
  Float32.div (Float32.of_Z 1) (Float32.of_Z 255)
  = S754_finite false 8421505 (-31)
  /\ 2 ^ 31 < 255 * 8421505
  /\ scale_255 255 = Float32.one.
Proof. repeat split. Qed.

(** X21: Every colour that [ParseBackgroundColor] returns lies in the unit
    cube: each stored [float] is at least [0.0f] and at most [1.0f], also
    after the rounding of the product with [1.0f / 255]. *)
Theorem ParseBackgroundColor_in_unit_cube (background_desc : string)
    (r g b : spec_float) :
  ParseBackgroundColor background_desc = ParseTrue (r, g, b) ->
  (Float32.leb Float32.zero r = true /\ Float32.leb r Float32.one = true)
  /\ (Float32.leb Float32.zero g = true /\ Float32.leb g Float32.one = true)
  /\ (Float32.leb Float32.zero b = true /\ Float32.leb b Float32.one = true).
Proof.
  unfold ParseBackgroundColor.
  destruct (background_desc =? "black")%string.
  { intros H. injection H as <- <- <-. repeat split. }
  destruct (background_desc =? "white")%string.
  { intros H. injection H as <- <- <-. repeat split. }
  destruct (_ || _); [discriminate|].
  destruct (Stoi.stoi16 (string_tail background_desc)) as [v| |];
    try discriminate.
  unfold color_channels. intros H. injection H as <- <- <-.
  split; [|split]; apply scale_255_range, land_255_range.
Qed.

Lemma hex_value_hex_digit (d : Z) :
  0 <= d < 16 ->
  Stoi.hex_value (hex_digit d) = Some d
  /\ Stoi.hex_value (hex_digit_upper d) = Some d.
Proof.
  intros Hd.
  assert (Hcases : d = 0 \/ d = 1 \/ d = 2 \/ d = 3 \/ d = 4 \/ d = 5
                   \/ d = 6 \/ d = 7 \/ d = 8 \/ d = 9 \/ d = 10 \/ d = 11
                   \/ d = 12 \/ d = 13 \/ d = 14 \/ d = 15) by lia.
  repeat (destruct Hcases as [->|Hcases]; [split; reflexivity|]).
  subst d. split; reflexivity.
Qed.

Lemma hex_color_parsed (digit : Z -> ascii) (r g b : Z) :
  (forall d, 0 <= d < 16 -> Stoi.hex_value (digit d) = Some d) ->
  0 <= r < 256 -> 0 <= g < 256 -> 0 <= b < 256 ->
  ParseBackgroundColor (hex_color digit r g b)
  = ParseTrue (scale_255 r, scale_255 g, scale_255 b).
Proof.
  intros Hdigit Hr Hg Hb. unfold hex_color, hex_byte. cbn [String.append].
  assert (Hdiv : forall v, 0 <= v < 256 ->
            0 <= v / 16 < 16 /\ 0 <= v mod 16 < 16
            /\ 16 * (v / 16) + v mod 16 = v).
  { intros v Hv. split; [|split].
    - split; [apply Z.div_pos; lia | apply Z.div_lt_upper_bound; lia].
    - apply Z.mod_pos_bound. lia.
    - symmetry. apply Z.div_mod. lia. }
  destruct (Hdiv r Hr) as (Hr1 & Hr2 & Hr3).
  destruct (Hdiv g Hg) as (Hg1 & Hg2 & Hg3).
  destruct (Hdiv b Hb) as (Hb1 & Hb2 & Hb3).
  rewrite (ParseBackgroundColor_six_digits _ _ _ _ _ _
             (r / 16) (r mod 16) (g / 16) (g mod 16) (b / 16) (b mod 16))
    by (apply Hdigit; assumption).
  now rewrite Hr3, Hg3, Hb3.
Qed.

Lemma byte_of_channel_scale_255 (c : Z) :
  0 <= c <= 255 -> byte_of_channel (scale_255 c) = c.
Proof.
  intros Hc. apply Z.eqb_eq.
  apply (byte_values_all (fun c => byte_of_channel (scale_255 c) =? c));
    [vm_compute; reflexivity | exact Hc].
Qed.

Lemma scale_255_near (c : Z) :
  0 <= c <= 255 -> near_byte_over_255 c (scale_255 c) = true.
Proof.
  intros Hc.
  apply (byte_values_all (fun c => near_byte_over_255 c (scale_255 c)));
    [vm_compute; reflexivity | exact Hc].
Qed.

(** X22: Each of the 2^24 colours can be given as [#rrggbb], in lower or in
    upper case.  Byte [v] is stored as the [float] product
    [v * (1.0f / 255)], which is not [v / 255] in general but lies between
    it and [v / 255 + 2^-23]; rounding 255 times the stored value gives [v]
    back, so two colours that differ give backgrounds that differ. *)
Theorem ParseBackgroundColor_round_trip (r g b : Z) :
  0 <= r < 256 -> 0 <= g < 256 -> 0 <= b < 256 ->
  ParseBackgroundColor (hex_color hex_digit r g b)
  = ParseTrue (scale_255 r, scale_255 g, scale_255 b)
  /\ ParseBackgroundColor (hex_color hex_digit_upper r g b)
     = ParseTrue (scale_255 r, scale_255 g, scale_255 b)
  /\ (near_byte_over_255 r (scale_255 r) = true
      /\ near_byte_over_255 g (scale_255 g) = true
      /\ near_byte_over_255 b (scale_255 b) = true)
  /\ (byte_of_channel (scale_255 r) = r
      /\ byte_of_channel (scale_255 g) = g
      /\ byte_of_channel (scale_255 b) = b)
  /\ forall r' g' b',
       0 <= r' < 256 -> 0 <= g' < 256 -> 0 <= b' < 256 ->
       (scale_255 r, scale_255 g, scale_255 b)
       = (scale_255 r', scale_255 g', scale_255 b') ->
       r = r' /\ g = g' /\ b = b'.
Proof.
  intros Hr Hg Hb. split; [|split; [|split; [|split]]].
  - apply hex_color_parsed; try assumption.
    intros d Hd. now apply hex_value_hex_digit.
  - apply hex_color_parsed; try assumption.
    intros d Hd. now apply hex_value_hex_digit.
  - repeat split; apply scale_255_near; lia.
  - repeat split; apply byte_of_channel_scale_255; lia.
  - intros r' g' b' Hr' Hg' Hb' H. injection H as H1 H2 H3.
    repeat split;
      match goal with
      | |- ?x = ?y =>
          rewrite <- (byte_of_channel_scale_255 x),
            <- (byte_of_channel_scale_255 y) by lia;
          congruence
      end.
Qed.

(** The blue channel of [#ff0080] is the [float] [0x3f008081], above
    [128 / 255]. *)
Example scale_255_of_128 :
  scale_255 128 = S754_finite false 8421505 (-24)
  /\ Float32.to_Q (scale_255 128) = (8421505 # 16777216)%Q
  /\ (128 # 255 < Float32.to_Q (scale_255 128))%Q.
Proof. repeat split. Qed.

Lemma skip_spaces_length (s : string) :
  (String.length (Stoi.skip_spaces s) <= String.length s)%nat.
Proof.
  induction s as [|c s IH]; [simpl; lia|].
  cbn [Stoi.skip_spaces]. destruct (Stoi.is_space c); simpl in *; lia.
Qed.

(** Six characters cannot overflow [int]: [std::stoi] in base 16 does not
    throw [std::out_of_range] on them. *)
Lemma stoi16_short_in_range (s : string) :
  (String.length s <= 6)%nat -> Stoi.stoi16 s <> Stoi.OutOfRange.
Proof.
  intros Hlen. unfold Stoi.stoi16.
  pose proof (skip_spaces_length s) as Hskip.
  set (s1 := Stoi.skip_spaces s) in *.
  assert (Hsign : exists negative s2,
            match s1 with
            | String "-" r => (true, r)
            | String "+" r => (false, r)
            | _ => (false, s1)
            end = (negative, s2)
            /\ (String.length s2 <= String.length s1)%nat).
  { destruct s1 as [|c r]; [exists false, ""; auto|].
    destruct c as [[] [] [] [] [] [] [] []];
      eexists _, _; (split; [reflexivity | simpl; lia]). }
  destruct Hsign as (negative & s2 & -> & Hs2).
  destruct (Stoi.starts_with_hex (Stoi.strip_0x s2)); [|discriminate].
  pose proof (hex_run_bound (Stoi.strip_0x s2) 0 ltac:(lia)) as Hb.
  pose proof (strip_0x_length s2) as Hs3.
  assert (16 ^ Z.of_nat (String.length (Stoi.strip_0x s2)) <= 16 ^ 6)
    by (apply Z.pow_le_mono_r; lia).
  change (16 ^ 6) with 16777216 in *.
  replace (_ || _) with false; [discriminate|].
  symmetry. apply orb_false_iff. unfold Stoi.INT_MIN, Stoi.INT_MAX.
  change (2 ^ 31) with 2147483648.
  destruct negative; split; apply Z.ltb_ge; lia.
Qed.

(** X23: [ParseBackgroundColor] leaves through an exception exactly on a
    spec of seven characters that starts with [#] and on whose other six
    characters [std::stoi] finds no hexadecimal number; the exception is
    never [std::out_of_range]. *)
Theorem ParseBackgroundColor_throws_iff (background_desc : string) :
  ParseBackgroundColor background_desc = ParseThrows
  <-> String.length background_desc = 7%nat
      /\ first_char_is "#" background_desc = true
      /\ Stoi.stoi16 (string_tail background_desc) = Stoi.InvalidArgument.
Proof.
  split.
  - unfold ParseBackgroundColor.
    destruct (background_desc =? "black")%string; [discriminate|].
    destruct (background_desc =? "white")%string; [discriminate|].
    destruct (String.length background_desc =? 7)%nat eqn:Hlen;
      cbn [negb orb]; [|discriminate].
    destruct (first_char_is "#" background_desc) eqn:Hfirst;
      cbn [negb]; [|discriminate].
    apply Nat.eqb_eq in Hlen.
    assert (Hshort : (String.length (string_tail background_desc) <= 6)%nat)
      by (destruct background_desc; simpl in *; lia).
    pose proof (stoi16_short_in_range _ Hshort) as Hrange.
    destruct (Stoi.stoi16 (string_tail background_desc)); try discriminate;
      auto. congruence.
  - intros (Hlen & Hfirst & Hstoi).
    rewrite ParseBackgroundColor_hash by assumption. now rewrite Hstoi.
Qed.

End BackgroundExtras.

Lemma ParseBackgroundColor_in_unit_cube_witness :
  ParseBackgroundColor "#ff0080"
  = ParseTrue (Float32.one, Float32.zero, S754_finite false 8421505 (-24))
  /\ Float32.leb Float32.zero (S754_finite false 8421505 (-24)) = true
  /\ Float32.leb (S754_finite false 8421505 (-24)) Float32.one = true.
Proof.
  split; [reflexivity|].
  exact (proj2 (proj2 (ParseBackgroundColor_in_unit_cube "#ff0080"
                         Float32.one Float32.zero
                         (S754_finite false 8421505 (-24)) eq_refl))).
Defined.

Lemma ParseBackgroundColor_round_trip_witness :
  ParseBackgroundColor "#ff0080"
  = ParseTrue (scale_255 255, scale_255 0, scale_255 128)
  /\ ParseBackgroundColor "#FF0080"
     = ParseTrue (scale_255 255, scale_255 0, scale_255 128)
  /\ byte_of_channel (scale_255 128) = 128.
Proof.
  destruct (ParseBackgroundColor_round_trip 255 0 128
              ltac:(lia) ltac:(lia) ltac:(lia))
    as (H1 & H2 & _ & (_ & _ & H3) & _).
  split; [exact H1 | split; [exact H2 | exact H3]].
Defined.

(** ** The start of main *)

Section Start.

Variable ReadFile : string -> option bytes.
Variable env : Collaborators.
Variable inv : Invocation.

Local Notation "'banner'" :=
  (if quiet (parsed_args inv) then [] else [StderrBanner]).

Lemma not_decoding (e : StartEvent) (t : list Event) :
  (forall e', e <> Decoding e') -> ~ In e (map Decoding t).
Proof.
  intros He Hin. apply in_map_iff in Hin as (e' & <- & _). now apply (He e').
Qed.

Lemma in_banner (e : StartEvent) : In e banner -> e = StderrBanner.
Proof. destruct (quiet (parsed_args inv)); cbn; intuition. Qed.

Lemma in_banner_tail (e : StartEvent) (tail : list StartEvent) :
  e <> StderrBanner -> In e (banner ++ tail)%list -> In e tail.
Proof.
  intros He Hin. apply in_app_or in Hin as [Hin|Hin]; [|exact Hin].
  apply in_banner in Hin. contradiction.
Qed.

(** The run of [djxl] once the command line is parsed, nothing but
    decoding is asked for, and the input file is named and read. *)
Lemma djxl_decodes (path : string) (compressed : bytes) :
  parse_ok inv = true -> version inv = false ->
  help_flag_passed inv = false -> file_in inv = Some path ->
  -1 <= num_threads inv -> ReadFile path = Some compressed ->
  djxl ReadFile env inv
  = ((banner ++ CallReadFile path
      :: (if quiet (parsed_args inv) then []
          else [VerboseReadBytes (size_of compressed)])
      ++ map Decoding
           (fst (main env (parsed_args inv) (parsed_cmdline inv)
                   compressed)))%list,
     snd (main env (parsed_args inv) (parsed_cmdline inv) compressed)).
Proof.
  intros Hparse Hversion Hhelp Hfile Hthreads Hread.
  unfold djxl, ValidateArgs. rewrite Hparse, Hversion, Hhelp, Hfile, Hread.
  replace (num_threads inv <? -1) with false
    by (symmetry; apply Z.ltb_ge; lia).
  cbn [negb orb].
  now destruct (main env (parsed_args inv) (parsed_cmdline inv) compressed).
Qed.

(** What [djxl] does in the other cases: it reads nothing or fails to
    read, and emits no event of the decoding. *)
Lemma djxl_stops :
  (parse_ok inv = false \/ version inv = true
   \/ help_flag_passed inv = true \/ file_in inv = None
   \/ num_threads inv < -1
   \/ exists path, file_in inv = Some path /\ ReadFile path = None) ->
  snd (djxl ReadFile env inv) <> UndefinedBehaviour
  /\ ~ In StderrMissingInput (fst (djxl ReadFile env inv))
  /\ (forall e, ~ In (Decoding e) (fst (djxl ReadFile env inv)))
  /\ (forall path,
        In (CallReadFile path) (fst (djxl ReadFile env inv)) ->
        parse_ok inv = true /\ version inv = false
        /\ help_flag_passed inv = false /\ file_in inv = Some path
        /\ -1 <= num_threads inv /\ ReadFile path = None).
Proof.
  intros Hcase. unfold djxl, ValidateArgs.
  assert (Hone : forall e e' : StartEvent, e <> e' -> ~ In e [e']).
  { intros e e' Hne [Hin|[]]. congruence. }
  destruct (parse_ok inv); cbn [negb].
  2:{ cbn [fst snd]. split; [discriminate|].
      split; [apply Hone; discriminate|].
      split; [intros e; apply Hone; discriminate|].
      intros path Hin. exfalso. revert Hin. apply Hone. discriminate. }
  destruct (version inv).
  { cbn [fst snd]. split; [discriminate|].
    split; [apply Hone; discriminate|].
    split; [intros e; apply Hone; discriminate|].
    intros path Hin. exfalso. revert Hin. apply Hone. discriminate. }
  assert (Hhelp : forall e, e <> StderrBanner -> e <> PrintHelp ->
            ~ In e (banner ++ [PrintHelp])%list).
  { intros e Hb Hp Hin. apply in_banner_tail in Hin; [|exact Hb].
    destruct Hin as [Hin|[]]. congruence. }
  destruct (file_in inv) as [path|].
  2:{ rewrite orb_true_r. cbn [fst snd].
      split; [discriminate|]. split; [apply Hhelp; discriminate|].
      split; [intros e; apply Hhelp; discriminate|].
      intros path' Hin. exfalso. revert Hin. apply Hhelp; discriminate. }
  rewrite orb_false_r. destruct (help_flag_passed inv).
  { cbn [fst snd].
    split; [discriminate|]. split; [apply Hhelp; discriminate|].
    split; [intros e; apply Hhelp; discriminate|].
    intros path' Hin. exfalso. revert Hin. apply Hhelp; discriminate. }
  destruct (num_threads inv <? -1) eqn:Hthreads; cbn [negb fst snd app].
  { assert (Hx : forall e, e <> StderrBanner ->
              e <> StderrInvalidNumThreads -> e <> StderrUsageHint ->
              ~ In e (banner
                      ++ [StderrInvalidNumThreads; StderrUsageHint])%list).
    { intros e Hb H1 H2 Hin. apply in_banner_tail in Hin; [|exact Hb].
      destruct Hin as [Hin|[Hin|[]]]; congruence. }
    split; [discriminate|]. split; [apply Hx; discriminate|].
    split; [intros e; apply Hx; discriminate|].
    intros path' Hin. exfalso. revert Hin. apply Hx; discriminate. }
  apply Z.ltb_ge in Hthreads.
  destruct Hcase as [H|[H|[H|[H|[H|(path' & Hpath & Hread)]]]]];
    try discriminate; try lia.
  injection Hpath as <-. rewrite Hread. cbn [fst snd].
  assert (Hx : forall e, e <> StderrBanner -> e <> StderrCouldNotLoad path ->
            In e (banner ++ [CallReadFile path; StderrCouldNotLoad path])%list
            -> e = CallReadFile path).
  { intros e Hb Hl Hin. apply in_banner_tail in Hin; [|exact Hb].
    destruct Hin as [Hin|[Hin|[]]]; congruence. }
  split; [discriminate|].
  split; [intros Hin; apply Hx in Hin; discriminate|].
  split; [intros e Hin; apply Hx in Hin; discriminate|].
  intros path' Hin. apply Hx in Hin; try discriminate.
  injection Hin as ->. auto 10.
Qed.

Lemma djxl_cases :
  (parse_ok inv = false \/ version inv = true
   \/ help_flag_passed inv = true \/ file_in inv = None
   \/ num_threads inv < -1
   \/ exists path, file_in inv = Some path /\ ReadFile path = None)
  \/ exists path compressed,
       parse_ok inv = true /\ version inv = false
       /\ help_flag_passed inv = false /\ file_in inv = Some path
       /\ -1 <= num_threads inv /\ ReadFile path = Some compressed.
Proof.
  destruct (parse_ok inv); [|auto].
  destruct (version inv); [auto|].
  destruct (help_flag_passed inv); [auto 6|].
  destruct (file_in inv) as [path|]; [|auto 6].
  destruct (Z.lt_ge_cases (num_threads inv) (-1)); [auto 7|].
  destruct (ReadFile path) as [compressed|] eqn:Hread.
  - right. exists path, compressed. repeat split; auto.
  - left. do 5 right. eauto.
Qed.

(** X11: [main] prints the speed statistics exactly when it returns the
    success status without [--quiet] and has not returned early for
    [--version], for the help or for a missing input file name, the three
    returns of lines 427-439 that succeed without decoding; a run that
    fails prints none. *)
Theorem statistics_iff_success :
  In (Decoding StatsPrint) (fst (djxl ReadFile env inv))
  <-> snd (djxl ReadFile env inv) = EXIT_SUCCESS
      /\ quiet (parsed_args inv) = false
      /\ version inv = false
      /\ help_flag_passed inv = false
      /\ file_in inv <> None.
Proof.
  destruct djxl_cases as [Hstop|(path & compressed & H)].
  - destruct (djxl_stops Hstop) as (_ & _ & Hnone & _). split.
    + intros Hin. now apply Hnone in Hin.
    + intros (Hok & _ & Hv & Hh & Hf). exfalso.
      unfold djxl, ValidateArgs in Hok. rewrite Hv, Hh in Hok.
      destruct (parse_ok inv); [|discriminate Hok].
      destruct (file_in inv) as [p|]; [|congruence].
      cbn [negb orb] in Hok.
      destruct (num_threads inv <? -1) eqn:Ethreads; [discriminate Hok|].
      apply Z.ltb_ge in Ethreads.
      destruct (ReadFile p) as [compressed|] eqn:Eread;
        [|discriminate Hok].
      destruct Hstop as [H|[H|[H|[H|[H|(p' & Hp & H)]]]]];
        congruence || lia.
  - destruct H as (H1 & H2 & H3 & H4 & H5 & H6).
    rewrite (djxl_decodes path compressed H1 H2 H3 H4 H5 H6).
    cbn [fst snd]. split.
    + intros Hin. apply in_banner_tail in Hin; [|discriminate].
      destruct Hin as [Hin|Hin]; [discriminate|].
      apply in_app_or in Hin as [Hin|Hin].
      * exfalso. destruct (quiet (parsed_args inv)); cbn in Hin;
          repeat (destruct Hin as [Hin|Hin]; try discriminate Hin);
          exact Hin.
      * apply in_map_iff in Hin as (e & He & Hin). injection He as ->.
        apply main_statistics_iff in Hin as [Hok Hquiet].
        repeat split; try assumption. congruence.
    + intros (Hok & Hquiet & _).
      apply in_or_app. right. right. apply in_or_app. right.
      apply in_map. apply main_statistics_iff. auto.
Qed.

(** X24: The test of [file_in] in [ValidateArgs] never fires in [main]: a
    missing input file has already sent [main] to the help text.  So the
    message "Missing INPUT filename." is never printed, [ReadFile] is never
    handed a null pointer, and without an input file [main] prints the help
    and ends with the success status. *)
Theorem missing_input_check_is_dead :
  ~ In StderrMissingInput (fst (djxl ReadFile env inv))
  /\ (snd (djxl ReadFile env inv) = UndefinedBehaviour ->
      exists path compressed,
        file_in inv = Some path /\ ReadFile path = Some compressed
        /\ snd (main env (parsed_args inv) (parsed_cmdline inv) compressed)
           = UndefinedBehaviour)
  /\ (parse_ok inv = true -> version inv = false -> file_in inv = None ->
      djxl ReadFile env inv = ((banner ++ [PrintHelp])%list, EXIT_SUCCESS)).
Proof.
  split; [|split].
  - destruct djxl_cases as [Hstop|(path & compressed & H)].
    + now destruct (djxl_stops Hstop) as (_ & H & _).
    + destruct H as (H1 & H2 & H3 & H4 & H5 & H6).
      rewrite (djxl_decodes path compressed H1 H2 H3 H4 H5 H6). cbn [fst].
      intros Hin. apply in_banner_tail in Hin; [|discriminate].
      destruct Hin as [Hin|Hin]; [discriminate|].
      apply in_app_or in Hin as [Hin|Hin].
      * destruct (quiet (parsed_args inv)); cbn in Hin;
          repeat (destruct Hin as [Hin|Hin]; try discriminate Hin);
          exact Hin.
      * revert Hin. apply not_decoding. discriminate.
  - destruct djxl_cases as [Hstop|(path & compressed & H)].
    + destruct (djxl_stops Hstop) as (H & _). contradiction.
    + destruct H as (H1 & H2 & H3 & H4 & H5 & H6).
      rewrite (djxl_decodes path compressed H1 H2 H3 H4 H5 H6). cbn [snd].
      eauto.
  - intros Hparse Hversion Hfile. unfold djxl.
    rewrite Hparse, Hversion, Hfile, orb_true_r. reflexivity.
Qed.

(** X25: The input file is read exactly when the command line parses,
    neither [--version] nor the help is asked for, an input file is named
    and [--num_threads] is at least -1; and the decoding of lines 458-640
    runs exactly when, moreover, the read succeeds: its events and its
    status are then those of [djxl]. *)
Theorem decoding_needs_valid_start :
  (forall path,
     In (CallReadFile path) (fst (djxl ReadFile env inv))
     <-> parse_ok inv = true /\ version inv = false
         /\ help_flag_passed inv = false /\ file_in inv = Some path
         /\ -1 <= num_threads inv)
  /\ (forall e,
        In (Decoding e) (fst (djxl ReadFile env inv))
        <-> exists path compressed,
              parse_ok inv = true /\ version inv = false
              /\ help_flag_passed inv = false /\ file_in inv = Some path
              /\ -1 <= num_threads inv /\ ReadFile path = Some compressed
              /\ In e (fst (main env (parsed_args inv) (parsed_cmdline inv)
                              compressed))
              /\ snd (djxl ReadFile env inv)
                 = snd (main env (parsed_args inv) (parsed_cmdline inv)
                          compressed)).
Proof.
  split.
  - intros path. split.
    + intros Hin. destruct djxl_cases as [Hstop|(path' & compressed & H)].
      * destruct (djxl_stops Hstop) as (_ & _ & _ & Hread).
        destruct (Hread path Hin) as (H1 & H2 & H3 & H4 & H5 & _). auto.
      * destruct H as (H1 & H2 & H3 & H4 & H5 & H6).
        rewrite (djxl_decodes path' compressed H1 H2 H3 H4 H5 H6) in Hin.
        cbn [fst] in Hin. apply in_banner_tail in Hin; [|discriminate].
        destruct Hin as [Hin|Hin]; [injection Hin as ->; auto|].
        exfalso. apply in_app_or in Hin as [Hin|Hin].
        -- destruct (quiet (parsed_args inv)); cbn in Hin;
             repeat (destruct Hin as [Hin|Hin]; try discriminate Hin);
             exact Hin.
        -- revert Hin. apply not_decoding. discriminate.
    + intros (H1 & H2 & H3 & H4 & H5).
      unfold djxl, ValidateArgs. rewrite H1, H2, H3, H4.
      replace (num_threads inv <? -1) with false
        by (symmetry; apply Z.ltb_ge; lia).
      cbn [negb orb].
      destruct (ReadFile path) as [compressed|].
      * destruct (main env (parsed_args inv) (parsed_cmdline inv) compressed)
          as [t o].
        cbn [fst]. apply in_or_app. right. now left.
      * cbn [fst]. apply in_or_app. right. now left.
  - intros e. split.
    + intros Hin. destruct djxl_cases as [Hstop|(path & compressed & H)].
      * destruct (djxl_stops Hstop) as (_ & _ & Hnone & _).
        now apply Hnone in Hin.
      * destruct H as (H1 & H2 & H3 & H4 & H5 & H6).
        exists path, compressed.
        rewrite (djxl_decodes path compressed H1 H2 H3 H4 H5 H6) in Hin |- *.
        cbn [fst snd] in *. repeat split; try assumption.
        apply in_banner_tail in Hin; [|discriminate].
        destruct Hin as [Hin|Hin]; [discriminate|].
        apply in_app_or in Hin as [Hin|Hin].
        -- exfalso. destruct (quiet (parsed_args inv)); cbn in Hin;
             repeat (destruct Hin as [Hin|Hin]; try discriminate Hin);
             exact Hin.
        -- apply in_map_iff in Hin as (e' & He' & Hin).
           now injection He' as ->.
    + intros (path & compressed & H1 & H2 & H3 & H4 & H5 & H6 & Hin & _).
      rewrite (djxl_decodes path compressed H1 H2 H3 H4 H5 H6). cbn [fst].
      apply in_or_app. right. right. apply in_or_app. right.
      now apply in_map.
Qed.

End Start.

(** ** The order of the frame files *)

Section FrameOrder.

Lemma ascii_compare_refl (c : ascii) : (c ?= c)%char = Eq.
Proof. unfold Ascii.compare. apply N.compare_refl. Qed.

Lemma compare_app_prefix (p a b : string) :
  String.compare (p ++ a) (p ++ b) = String.compare a b.
Proof.
  induction p as [|c p IH]; [reflexivity|].
  cbn [String.append String.compare]. now rewrite ascii_compare_refl.
Qed.

Lemma compare_same_length_app (a a' r r' : string) :
  String.length a = String.length a' ->
  String.compare a a' = Lt ->
  String.compare (a ++ r) (a' ++ r') = Lt.
Proof.
  revert a'. induction a as [|c a IH]; intros [|c' a'] Hlen Hlt;
    try discriminate.
  cbn [String.append String.compare] in *.
  destruct (c ?= c')%char; [|reflexivity | discriminate].
  apply IH; [simpl in Hlen; lia | exact Hlt].
Qed.

Lemma digit_char_compare (a b : Z) :
  0 <= a < b -> b < 10 ->
  (CStd.digit_char a ?= CStd.digit_char b)%char = Lt.
Proof.
  intros Ha Hb. unfold Ascii.compare. apply N.compare_lt_iff.
  assert (Hnat : forall d, 0 <= d < 10 ->
            N.to_nat (N_of_ascii (CStd.digit_char d))
            = (48 + Z.to_nat d)%nat).
  { intros d Hd. unfold CStd.digit_char.
    apply (nat_ascii_embedding (48 + Z.to_nat d)). lia. }
  pose proof (Hnat a ltac:(lia)). pose proof (Hnat b ltac:(lia)). lia.
Qed.

Lemma fixed_digits_lt (w : nat) :
  forall v v', 0 <= v < v' -> v' < 10 ^ Z.of_nat w ->
  String.compare (CStd.fixed_digits w v) (CStd.fixed_digits w v') = Lt.
Proof.
  induction w as [|w IH]; intros v v' Hv Hv'.
  - simpl in Hv'. lia.
  - cbn [CStd.fixed_digits].
    rewrite Nat2Z.inj_succ, Z.pow_succ_r in Hv' by lia.
    pose proof (Z.mod_pos_bound v 10 ltac:(lia)).
    pose proof (Z.mod_pos_bound v' 10 ltac:(lia)).
    pose proof (Z.div_mod v 10 ltac:(lia)).
    pose proof (Z.div_mod v' 10 ltac:(lia)).
    destruct (Z.eq_dec (v / 10) (v' / 10)) as [Heq|Hne].
    + rewrite Heq, compare_app_prefix.
      cbn [String.compare].
      rewrite digit_char_compare by lia. reflexivity.
    + apply compare_same_length_app.
      * now rewrite !length_fixed_digits.
      * apply IH; lia.
Qed.

(** X26: Inside the grid and off standard output, the files of one layer
    sort in frame order: the name of an earlier frame comes before the name
    of a later one in the lexicographic order of strings.  This is what the
    zero padding of the frame index achieves. *)
Theorem Filename_sorts_by_frame (filename extension : string)
    (li fi fi' nl nf : Z) :
  filename <> "-" -> 0 <= li < nl -> 0 <= fi < fi' -> fi' < nf ->
  String.compare (Filename filename extension li fi nl nf)
                 (Filename filename extension li fi' nl nf) = Lt.
Proof.
  intros Hname Hli Hfi Hfi'.
  rewrite !Filename_grid by (assumption || lia).
  unfold Filename_spec, frame_suffix.
  replace (1 <? nf) with true by (symmetry; apply Z.ltb_lt; lia).
  rewrite compare_app_prefix.
  destruct (digits_spec nf ltac:(lia)) as [Hd Hpow].
  rewrite !zero_pad_fixed by (try lia; apply dec_len_le_digits; lia).
  rewrite !app_assoc_s. cbn [String.append String.compare].
  rewrite ascii_compare_refl.
  apply compare_same_length_app.
  - now rewrite !length_fixed_digits.
  - apply fixed_digits_lt; [lia|]. rewrite Z2Nat.id by lia. lia.
Qed.

End FrameOrder.

Lemma Filename_sorts_by_frame_witness :
  String.compare (Filename "anim.png" ".png" 0 9 1 12)
                 (Filename "anim.png" ".png" 0 10 1 12) = Lt
  /\ Filename "anim.png" ".png" 0 9 1 12 = "anim.png-09.png".
Proof.
  split; [|reflexivity].
  apply (Filename_sorts_by_frame "anim.png" ".png" 0 9 10 1 12);
    [discriminate | lia | lia | lia].
Defined.

(** ** The messages that precede decoding *)

Section Preamble.

Variable env : Collaborators.
Variable args : DecompressArgs.
Variable cmdline : CommandLineParser.
Variable compressed : bytes.

Local Notation "'run'" := (main env args cmdline compressed).

Lemma bookkeeping_not_in_paths (e : Event) :
  bookkeeping_event e = true ->
  ~ In e (fst (decode_paths env args cmdline compressed)).
Proof.
  intros He.
  assert (Hpixel : pixel_event e = false)
    by (destruct e; try discriminate He;
        try match goal with m : Message |- _ => destruct m end;
        try discriminate He; reflexivity).
  assert (Hreconstruct : reconstruct_event e = false)
    by (destruct e; try discriminate He;
        try match goal with m : Message |- _ => destruct m end;
        try discriminate He; reflexivity).
  assert (Henter : forall p, e <> Enter p)
    by (intros p ->; discriminate He).
  unfold decode_paths.
  destruct (output_target env args) as [[filename_out extension] codec].
  rewrite fst_bind. intros Hin. apply in_app_or in Hin as [Hin|Hin].
  - destruct (initial_decode_to_pixels args cmdline codec); cbn [negb] in Hin;
      [exact Hin|].
    destruct (reconstruct_block_events env args compressed filename_out)
      as (t & Ht & Hall).
    rewrite Ht in Hin. destruct Hin as [Hin|Hin];
      [symmetry in Hin; now apply Henter in Hin|].
    rewrite forallb_forall in Hall. specialize (Hall _ Hin). congruence.
  - destruct (snd _) as [[|]|o]; try exact Hin.
    destruct (pixel_block_events env args compressed
                (effective_color_space args codec)
                (effective_bits_per_sample args cmdline codec extension)
                filename_out extension) as (t & Ht & Hall).
    rewrite Ht in Hin. destruct Hin as [Hin|Hin];
      [symmetry in Hin; now apply Henter in Hin|].
    rewrite forallb_forall in Hall. specialize (Hall _ Hin). congruence.
Qed.

(** X27: The two messages of lines 464-484 and when each is printed.  The
    notice that the result is discarded needs an output file together with
    [--disable_output] and is silenced by [--quiet]; the warning that the
    colour space is ignored is printed for an EXR output whenever
    [--color_space] names another colour space than the forced one, also
    with [--quiet]. *)
Theorem preamble_messages_iff :
  (In (Stderr MsgResultDiscarded) (fst run)
   <-> file_out args <> None /\ disable_output args = true
       /\ quiet args = false)
  /\ (In (Stderr MsgColorspaceIgnored) (fst run)
      <-> snd (output_target env args) = kEXR
          /\ color_space args <> ""
          /\ color_space args <> "RGB_D65_SRG_Rel_Lin").
Proof.
  assert (Hcases : (file_out args = None /\ disable_output args = false)
                   \/ (file_out args <> None \/ disable_output args = true)).
  { destruct (file_out args); [right; left; discriminate|].
    destruct (disable_output args); auto. }
  assert (Hempty : forall s, string_empty s = true <-> s = "").
  { intros [|c s]; cbn; split; congruence. }
  destruct Hcases as [[Hfile Hdisable]|Hvalid].
  { rewrite main_without_target by assumption.
    unfold output_target. rewrite Hfile. cbn [snd In]. split; split.
    - intros [H|[]]. discriminate.
    - intros (H & _). congruence.
    - intros [H|[]]. discriminate.
    - intros (H & _). discriminate. }
  rewrite main_run by assumption. cbn [fst].
  assert (Hrest : forall e, bookkeeping_event e = true -> e <> StatsPrint ->
            (In e (fst (preamble env args)
                   ++ fst (decode_paths env args cmdline compressed)
                   ++ match snd (decode_paths env args cmdline compressed)
                      with
                      | inl _ => if quiet args then [] else [StatsPrint]
                      | inr _ => []
                      end)
             <-> In e (fst (preamble env args)))).
  { intros e He Hstats. rewrite !in_app_iff. split; [|auto].
    intros [H|[H|H]]; [exact H | |].
    - now apply bookkeeping_not_in_paths in H.
    - destruct (snd _); [destruct (quiet args)|]; cbn in H;
        repeat (destruct H as [H|H]; try congruence); contradiction. }
  rewrite !Hrest by (reflexivity || discriminate). clear Hrest.
  unfold preamble.
  destruct (output_target env args) as [[filename_out extension] codec].
  cbn [snd].
  set (discarded := match file_out args with Some _ => true | None => false
                    end && disable_output args && negb (quiet args)).
  set (ignored := codec_eqb codec kEXR
                  && negb (string_empty (color_space args))
                  && negb (color_space args =? force_colorspace)%string).
  assert (Hdiscarded : discarded = true
                       <-> file_out args <> None
                           /\ disable_output args = true
                           /\ quiet args = false).
  { subst discarded.
    destruct (file_out args) as [path|], (disable_output args),
      (quiet args); cbn; split; intros H; try discriminate H;
      try (destruct H as (H1 & H2 & H3); congruence);
      repeat split; congruence. }
  assert (Hignored : ignored = true
                     <-> codec = kEXR /\ color_space args <> ""
                         /\ color_space args <> "RGB_D65_SRG_Rel_Lin").
  { subst ignored. destruct (Hempty (color_space args)) as [He1 He2].
    destruct (String.eqb_spec (color_space args) force_colorspace)
      as [Hf|Hf];
      destruct (string_empty (color_space args)) eqn:Hs;
      destruct codec; cbn; split; intros H; try discriminate H;
      try (destruct H as (H1 & H2 & H3);
           first [ discriminate H1
                 | exfalso; apply H2, He1; reflexivity
                 | exfalso; apply H3; exact Hf ]).
    - split; [reflexivity|]. split; [|exact Hf].
      intros Heq. apply He2 in Heq. discriminate.
    - reflexivity. }
  rewrite <- Hdiscarded, <- Hignored.
  destruct discarded, ignored; cbn; split; split; intros H;
    try discriminate H;
    repeat (destruct H as [H|H]; try discriminate H); auto;
    try contradiction.
Qed.

End Preamble.

(** ** Runs without alpha blending, and runs without repetitions *)

Section Edges.

Variable env : Collaborators.
Variable args : DecompressArgs.
Variable cmdline : CommandLineParser.
Variable compressed : bytes.

Local Notation "'run'" := (main env args cmdline compressed).

(** X28: Without [--alpha_blend] the background is never looked at: [main]
    neither blends nor complains about the background, and a background on
    which [std::stoi] would throw does no harm. *)
Theorem background_ignored_without_alpha_blend (e : Event) :
  alpha_blend args = false ->
  snd run <> UncaughtException
  /\ (In e (fst run) ->
      is_blend_call e = false /\ is_background_warning e = false).
Proof.
  intros Hblend. split.
  - intros Hout.
    destruct (main_outcome env args cmdline compressed)
      as [[Hok _]|[[H|[[_ [H _]]|[H _]]] _]]; congruence.
  - intros Hin.
    pose proof (main_run_events env args cmdline compressed) as Hall.
    rewrite Forall_forall in Hall.
    destruct (Hall e Hin) as (_ & _ & Hb & _).
    destruct (is_blend_call e) eqn:E1;
      [specialize (Hb (or_introl eq_refl)); congruence|].
    destruct (is_background_warning e) eqn:E2;
      [specialize (Hb (or_intror eq_refl)); congruence|].
    auto.
Qed.

(** X29: With [--num_reps=0] on the pixel path, [main] makes no decode call
    and still goes on: with an encoder and without alpha blending it hands
    the encoder the image that no call has filled. *)
Theorem zero_repetitions_encode_undecoded_image (encoder : Encoder) :
  let filename_out := fst (fst (output_target env args)) in
  let extension := snd (fst (output_target env args)) in
  num_reps args = 0%nat ->
  initial_decode_to_pixels args cmdline (snd (output_target env args))
  = true ->
  string_empty filename_out = false ->
  Encoder_FromExtension env extension = Some encoder ->
  alpha_blend args = false ->
  count is_decode_call (fst run) = 0%nat
  /\ count is_encode_call (fst run) = 1%nat
  /\ In (CallEncode empty_ppf) (fst run).
Proof.
  cbn zeta. intros Hreps Hpath Hname Henc Hblend.
  pose proof (output_needs_file env args Hname) as Hvalid.
  destruct (main_on_pixel_path env args cmdline compressed Hvalid Hpath)
    as (pre & post & -> & Hpre & Hpost & _).
  unfold main_pixel_block.
  destruct (output_target env args) as [[filename_out extension] codec].
  cbn [fst snd] in *.
  rewrite (pixel_block_decoded env args compressed _ _ filename_out
             extension encoder [] empty_ppf 0 Hname Henc)
    by (rewrite Hreps; reflexivity).
  cbn [fst].
  assert (Hb : blend_stage env args empty_ppf = ([], inl empty_ppf))
    by (unfold blend_stage; rewrite Hblend; reflexivity).
  rewrite (finish_pixels_blended env args filename_out extension encoder
             empty_ppf empty_ppf 0 [] Hb).
  cbn [fst app].
  destruct (encode_stage_counts env args filename_out extension encoder
              empty_ppf) as (Hencode & Hin & Hdecode & _).
  cbn zeta in *.
  destruct (decoded_messages_counts args 0) as (Hm1 & _ & Hm2 & _).
  repeat first [rewrite count_app | rewrite count_cons].
  rewrite Hencode, Hdecode, Hm1, Hm2.
  rewrite (count_excluded is_decode_call _ _ Hpre bookkeeping_no_decode),
    (count_excluded is_decode_call _ _ Hpost bookkeeping_no_decode),
    (count_excluded is_encode_call bookkeeping_event pre Hpre
       ltac:(event_cases)),
    (count_excluded is_encode_call bookkeeping_event post Hpost
       ltac:(event_cases)).
  cbn [is_decode_call is_encode_call].
  split; [reflexivity|]. split; [reflexivity|].
  apply in_or_app. right. right. right. apply in_or_app. left.
  apply in_or_app. right. exact Hin.
Qed.

End Edges.

Lemma background_ignored_without_alpha_blend_witness :
  let env := sample_env kPNG ".png" never_reconstructs true in
  let args := sample_args (Some "out.png") 1 false false false "#zzzzzz" in
  ParseBackgroundColor (background_spec args) = ParseThrows
  /\ snd (main env args sample_cmdline []) <> UncaughtException.
Proof.
  cbv zeta. split; [reflexivity|].
  exact (proj1 (background_ignored_without_alpha_blend
                  (sample_env kPNG ".png" never_reconstructs true)
                  (sample_args (Some "out.png") 1 false false false
                     "#zzzzzz")
                  sample_cmdline [] StatsPrint eq_refl)).
Defined.

Lemma zero_repetitions_encode_undecoded_image_witness :
  let env := sample_env kPNG ".png" never_reconstructs true in
  let args := sample_args (Some "out.png") 0 false false false "white" in
  count is_decode_call (fst (main env args sample_cmdline [])) = 0%nat
  /\ In (CallEncode empty_ppf) (fst (main env args sample_cmdline [])).
Proof.
  cbv zeta.
  destruct (zero_repetitions_encode_undecoded_image
              (sample_env kPNG ".png" never_reconstructs true)
              (sample_args (Some "out.png") 0 false false false "white")
              sample_cmdline [] sample_encoder
              eq_refl eq_refl eq_refl eq_refl eq_refl) as (H1 & _ & H2).
  split; [exact H1 | exact H2].
Defined.

(** ** The number of worker threads *)

Section WorkerThreads.

Variable ReadFile : string -> option bytes.
Variable env : Collaborators.
Variable inv : Invocation.

(** X30: In a run that gets as far as reading the input, the number handed
    to the thread runner is never negative: [ValidateArgs] has rejected
    every [--num_threads] below -1, -1 selects the default of the runner,
    and any other value is taken as it is. *)
Theorem worker_threads_not_negative (default : Z) (path : string) :
  0 <= default ->
  In (CallReadFile path) (fst (djxl ReadFile env inv)) ->
  0 <= num_worker_threads default inv
  /\ num_worker_threads default inv
     = if num_threads inv =? -1 then default else num_threads inv.
Proof.
  intros Hdefault Hin.
  assert (Hthreads : -1 <= num_threads inv).
  { destruct (djxl_cases ReadFile inv) as [Hstop|(p & c & H)].
    - destruct (djxl_stops ReadFile env inv Hstop) as (_ & _ & _ & Hread).
      now destruct (Hread path Hin) as (_ & _ & _ & _ & H & _).
    - now destruct H as (_ & _ & _ & _ & H & _). }
  unfold num_worker_threads.
  destruct (Z.eqb_spec (num_threads inv) (-1)) as [->|Hne].
  - cbn. auto.
  - replace (-1 <? num_threads inv) with true
      by (symmetry; apply Z.ltb_lt; lia).
    split; [lia | reflexivity].
Qed.

End WorkerThreads.

Example djxl_rejects_num_threads :
  djxl (fun _ => Some []) (sample_env kPNG ".png" never_reconstructs true)
       (sample_invocation (Some "in.jxl") (-2))
  = ([StderrInvalidNumThreads; StderrUsageHint], EXIT_FAILURE).
Proof. reflexivity. Qed.

Lemma worker_threads_not_negative_witness :
  let inv := sample_invocation (Some "in.jxl") 4 in
  num_worker_threads 8 inv = 4
  /\ num_worker_threads 8 (sample_invocation (Some "in.jxl") (-1)) = 8.
Proof.
  cbv zeta. split; [|reflexivity].
  destruct (worker_threads_not_negative (fun _ => Some [])
              (sample_env kPNG ".png" never_reconstructs true)
              (sample_invocation (Some "in.jxl") 4) 8 "in.jxl"
              ltac:(lia)) as [_ H].
  - vm_compute. tauto.
  - exact H.
Defined.

(** * The two paths, from the answers of the collaborators *)

(** ** The choice of the path and the blocks that run *)

Section PathSelection.

Variable env : Collaborators.
Variable args : DecompressArgs.
Variable cmdline : CommandLineParser.
Variable compressed : bytes.

Local Notation "'bytes_before'" := (jpeg_bytes_before env args compressed).
Local Notation "'succeeds'" := (reconstruct_succeeds env args compressed).

Lemma reconstruct_block_all_succeed (filename_out : string) :
  (forall j, (j < num_reps args)%nat -> succeeds j = true) ->
  snd (reconstruct_block env args compressed filename_out) <> inl true.
Proof.
  intros Hall.
  pose proof (reconstruct_loop_all_succeed env args compressed
                (num_reps args) 0%nat (fun j Hj => Hall j ltac:(lia)))
    as Hloop.
  cbn zeta in Hloop.
  change (jpeg_bytes_before env args compressed 0) with (@nil Byte.byte)
    in Hloop.
  destruct Hloop as (Hout & _).
  unfold reconstruct_block. rewrite snd_bind. cbn [emit fst snd].
  destruct (reconstruct_loop env args compressed (num_reps args) 0 [])
    as [tl rl]. cbn [snd] in Hout. subst rl.
  cbn [bind fst snd].
  destruct (bytes_empty _), (quiet args), (string_empty filename_out);
    cbn; try discriminate;
    destruct (WriteFile env filename_out _); cbn; discriminate.
Qed.


End PathSelection.



(** ** The pixel path with an encoder, from the answers of the decoder *)

Section PixelPathRuns.

Variable env : Collaborators.
Variable args : DecompressArgs.
Variable cmdline : CommandLineParser.
Variable compressed : bytes.

Section Loop.

Variable color_space' : string.
Variable bits_per_sample' : Z.
Variable formats : list JxlPixelFormat.
Variable accepts_cmyk : bool.

Local Notation "'dparams'" :=
  (pixel_dparams args color_space' bits_per_sample' formats accepts_cmyk).
Local Notation "'state_before'" :=
  (decode_state_before env dparams compressed).
Local Notation "'succeeds'" := (decode_succeeds env dparams compressed).

Lemma pixel_loop_all_succeed (n : nat) :
  forall i,
  (forall j, (i <= j < i + n)%nat -> succeeds j = true) ->
  let r := pixel_loop env args color_space' bits_per_sample' compressed
             formats accepts_cmyk n i (fst (state_before i))
             (snd (state_before i)) in
  snd r = inl (state_before (i + n)%nat)
  /\ count is_decode_call (fst r) = n
  /\ count is_elapsed_sample (fst r) = n.
Proof.
  induction n as [|n IH]; intros i Hall; cbn zeta.
  - cbn [pixel_loop ret fst snd]. rewrite Nat.add_0_r.
    destruct (state_before i). repeat split.
  - cbn [pixel_loop].
    rewrite (bind_value _ _ _ _
               (decode_call_run env args compressed color_space'
                  bits_per_sample' formats accepts_cmyk i)).
    rewrite (Hall i) by lia. cbn [negb fst snd].
    specialize (IH (S i) (fun j Hj => Hall j ltac:(lia))).
    cbn zeta in IH. destruct IH as (Hout & Hcalls & Hsamples).
    replace (i + S n)%nat with (S i + n)%nat by lia.
    split; [exact Hout|].
    rewrite !count_app, !count_cons, Hcalls, Hsamples.
    cbn [is_decode_call is_elapsed_sample count filter List.length].
    split; lia.
Qed.

End Loop.

Local Notation "'run'" := (main env args cmdline compressed).
Local Notation "'filename_out'" := (fst (fst (output_target env args))).
Local Notation "'extension'" := (snd (fst (output_target env args))).
Local Notation "'dparams'" := (run_dparams env args cmdline).
Local Notation "'succeeds'" := (decode_succeeds env dparams compressed).
Local Notation "'decoded'" :=
  (decode_state_before env dparams compressed (num_reps args)).

Lemma run_dparams_with_encoder (encoder : Encoder) :
  string_empty filename_out = false ->
  Encoder_FromExtension env extension = Some encoder ->
  dparams
  = pixel_dparams args
      (effective_color_space args (snd (output_target env args)))
      (effective_bits_per_sample args cmdline (snd (output_target env args))
         extension)
      (if alpha_blend args
       then AddFormatsWithAlphaChannel (AcceptedFormats encoder)
       else AcceptedFormats encoder)
      (AcceptsCmyk encoder).
Proof.
  unfold run_dparams.
  destruct (output_target env args) as [[fo ext] codec]. cbn [fst snd].
  intros Hname Henc.
  now rewrite (negotiate_with_encoder env args _ _ _ Hname Henc).
Qed.

(** The run when every decode call succeeds: the decode loop and what
    follows it, between bookkeeping events. *)
Lemma pixel_path_decoded (encoder : Encoder) :
  initial_decode_to_pixels args cmdline (snd (output_target env args))
  = true ->
  string_empty filename_out = false ->
  Encoder_FromExtension env extension = Some encoder ->
  (forall j, (j < num_reps args)%nat -> succeeds j = true) ->
  exists pre tl post,
    fst run
    = (pre
       ++ (Enter PixelPath :: CallFromExtension extension
             :: tl ++ fst (finish_pixels env args filename_out extension
                             (Some encoder) (fst decoded) (snd decoded)))
       ++ post)%list
    /\ snd run
       = outcome_of (snd (finish_pixels env args filename_out extension
                            (Some encoder) (fst decoded) (snd decoded)))
    /\ forallb bookkeeping_event pre = true
    /\ forallb bookkeeping_event post = true
    /\ forallb decode_loop_event tl = true
    /\ count is_decode_call tl = num_reps args
    /\ count is_elapsed_sample tl = num_reps args
    /\ snd (pixel_loop env args
              (effective_color_space args (snd (output_target env args)))
              (effective_bits_per_sample args cmdline
                 (snd (output_target env args)) extension)
              compressed
              (if alpha_blend args
               then AddFormatsWithAlphaChannel (AcceptedFormats encoder)
               else AcceptedFormats encoder)
              (AcceptsCmyk encoder) (num_reps args) 0 empty_ppf 0)
       = inl decoded.
Proof.
  intros Hpix Hname Henc Hall.
  pose proof (output_needs_file env args Hname) as Hvalid.
  destruct (main_on_pixel_path env args cmdline compressed Hvalid Hpix)
    as (pre & post & Hrun & Hpre & Hpost & Hsnd).
  rewrite Hrun, Hsnd. clear Hrun Hsnd.
  rewrite (run_dparams_with_encoder encoder Hname Henc) in *.
  unfold main_pixel_block.
  destruct (output_target env args) as [[fo ext] codec].
  cbn [fst snd] in *.
  set (cs := effective_color_space args codec) in *.
  set (bps := effective_bits_per_sample args cmdline codec ext) in *.
  set (formats := if alpha_blend args
                  then AddFormatsWithAlphaChannel (AcceptedFormats encoder)
                  else AcceptedFormats encoder) in *.
  pose proof (pixel_loop_all_succeed cs bps formats (AcceptsCmyk encoder)
                (num_reps args) 0%nat (fun j Hj => Hall j ltac:(lia)))
    as Hloop.
  cbn zeta in Hloop. cbn [decode_state_before fst snd] in Hloop.
  replace (0 + num_reps args)%nat with (num_reps args) in Hloop by lia.
  destruct Hloop as (Hout & Hcalls & Hsamples).
  pose proof (pixel_loop_events env args compressed cs bps formats
                (AcceptsCmyk encoder) (num_reps args) 0%nat empty_ppf 0)
    as Hloopev.
  destruct (pixel_loop env args cs bps compressed formats
              (AcceptsCmyk encoder) (num_reps args) 0 empty_ppf 0)
    as [tl rl] eqn:Hloop.
  cbn [fst snd] in *. subst rl.
  destruct (decode_state_before env _ compressed (num_reps args))
    as [ppf decoded_bytes] eqn:Hstate.
  rewrite (pixel_block_decoded env args compressed cs bps fo ext encoder tl
             ppf decoded_bytes Hname Henc Hloop).
  cbn [fst snd]. exists pre, tl, post. repeat split; assumption.
Qed.

Lemma blend_stage_off (ppf : PackedPixelFile) :
  alpha_blend args = false -> blend_stage env args ppf = ([], inl ppf).
Proof. intros H. unfold blend_stage. now rewrite H. Qed.

Lemma blend_stage_throws (ppf : PackedPixelFile) :
  alpha_blend args = true ->
  ParseBackgroundColor (background_spec args) = ParseThrows ->
  blend_stage env args ppf = ([], inr UncaughtException).
Proof. intros H Hparse. unfold blend_stage. now rewrite H, Hparse. Qed.

(** The blend stage when [ParseBackgroundColor] returns: the warning if it
    returned [false], the call of [AlphaBlend], and its answer. *)
Lemma blend_stage_answer (ppf : PackedPixelFile)
    (background : BackgroundArg) :
  alpha_blend args = true ->
  blend_background (ParseBackgroundColor (background_spec args))
  = Some background ->
  exists warning,
    warning
    = match ParseBackgroundColor (background_spec args) with
      | ParseFalse => [Stderr (MsgInvalidBackground (background_spec args))]
      | _ => []
      end
    /\ blend_stage env args ppf
       = if fst (AlphaBlend env ppf background)
         then ((warning ++ [CallAlphaBlend background])%list,
               inl (snd (AlphaBlend env ppf background)))
         else ((warning ++ [CallAlphaBlend background;
                            Stderr MsgAlphaBlendFailed])%list,
               inr EXIT_FAILURE).
Proof.
  intros H Hparse. eexists. split; [reflexivity|].
  unfold blend_stage. rewrite H.
  destruct (ParseBackgroundColor (background_spec args)) as [b| |];
    cbn [blend_background] in Hparse; try discriminate;
    injection Hparse as <-; cbn [bind emit ret leave app fst snd];
    destruct (AlphaBlend env ppf _) as [ok ppf']; destruct ok; reflexivity.
Qed.

Lemma decoded_messages_no_write (decoded_bytes : Z) :
  filter is_write (decoded_messages args decoded_bytes) = [].
Proof.
  unfold decoded_messages.
  destruct (quiet args), (print_read_bytes args); reflexivity.
Qed.

(** The run when every decode call succeeds and the blend stage hands an
    image to the encoder. *)
Lemma pixel_path_blended (encoder : Encoder) (tb : list Event)
    (ppf' : PackedPixelFile) :
  initial_decode_to_pixels args cmdline (snd (output_target env args))
  = true ->
  string_empty filename_out = false ->
  Encoder_FromExtension env extension = Some encoder ->
  (forall j, (j < num_reps args)%nat -> succeeds j = true) ->
  blend_stage env args (fst decoded) = (tb, inl ppf') ->
  let te := fst (encode_stage env args filename_out extension encoder ppf') in
  count is_decode_call (fst run) = num_reps args
  /\ count is_elapsed_sample (fst run) = num_reps args
  /\ count is_encode_call (fst run) = 1%nat
  /\ In (CallEncode ppf') (fst run)
  /\ count is_main_write (fst run) = count is_main_write te
  /\ count is_blend_call (fst run) = count is_blend_call tb
  /\ count is_background_warning (fst run) = count is_background_warning tb
  /\ (forall e, In e tb \/ In e te -> In e (fst run))
  /\ snd run
     = outcome_of (snd (encode_stage env args filename_out extension encoder
                          ppf')).
Proof.
  intros Hpix Hname Henc Hall Hstage.
  destruct (pixel_path_decoded encoder Hpix Hname Henc Hall)
    as (pre & tl & post & -> & -> & Hpre & Hpost & Hloopev & Hcalls
        & Hsamples & _).
  pose proof (blend_stage_events env args (fst decoded)) as Hblendev.
  rewrite Hstage in Hblendev. cbn [fst] in Hblendev.
  rewrite (finish_pixels_blended env args _ _ encoder _ ppf' _ tb Hstage).
  cbn [fst snd].
  destruct (decoded_messages_counts args (snd decoded))
    as (Hm1 & Hm2 & Hm3 & Hm4 & Hm5 & Hm6).
  destruct (encode_stage_counts env args filename_out extension encoder ppf')
    as (He1 & Hin & He2 & He3 & He5 & He6).
  cbn zeta in *.
  set (te := fst (encode_stage env args filename_out extension encoder ppf'))
    in *.
  repeat split.
  - repeat first [rewrite count_app | rewrite count_cons].
    rewrite Hcalls, Hm1, He2. cbn [is_decode_call].
    repeat count_zero. lia.
  - repeat first [rewrite count_app | rewrite count_cons].
    rewrite Hsamples, Hm2, He3. cbn [is_elapsed_sample].
    repeat count_zero. lia.
  - repeat first [rewrite count_app | rewrite count_cons].
    rewrite Hm3, He1. cbn [is_encode_call].
    repeat count_zero. lia.
  - rewrite !in_app_iff. cbn [In]. rewrite !in_app_iff. tauto.
  - repeat first [rewrite count_app | rewrite count_cons].
    rewrite Hm4. cbn [is_main_write].
    repeat count_zero. lia.
  - repeat first [rewrite count_app | rewrite count_cons].
    rewrite Hm5, He5. cbn [is_blend_call].
    repeat count_zero. lia.
  - repeat first [rewrite count_app | rewrite count_cons].
    rewrite Hm6, He6. cbn [is_background_warning].
    repeat count_zero. lia.
  - intros e He. rewrite !in_app_iff. cbn [In]. rewrite !in_app_iff. tauto.
Qed.

(** The run when every decode call succeeds and the blend stage ends it. *)
Lemma pixel_path_blend_failed (encoder : Encoder) (tb : list Event)
    (o : Outcome) :
  initial_decode_to_pixels args cmdline (snd (output_target env args))
  = true ->
  string_empty filename_out = false ->
  Encoder_FromExtension env extension = Some encoder ->
  (forall j, (j < num_reps args)%nat -> succeeds j = true) ->
  blend_stage env args (fst decoded) = (tb, inr o) ->
  count is_decode_call (fst run) = num_reps args
  /\ count is_elapsed_sample (fst run) = num_reps args
  /\ count is_encode_call (fst run) = 0%nat
  /\ count is_main_write (fst run) = 0%nat
  /\ filter is_write (fst run) = []
  /\ count is_blend_call (fst run) = count is_blend_call tb
  /\ count is_background_warning (fst run) = count is_background_warning tb
  /\ (forall e, In e tb -> In e (fst run))
  /\ snd run = o.
Proof.
  intros Hpix Hname Henc Hall Hstage.
  destruct (pixel_path_decoded encoder Hpix Hname Henc Hall)
    as (pre & tl & post & -> & -> & Hpre & Hpost & Hloopev & Hcalls
        & Hsamples & _).
  pose proof (blend_stage_events env args (fst decoded)) as Hblendev.
  rewrite Hstage in Hblendev. cbn [fst] in Hblendev.
  rewrite (finish_pixels_blend_failed env args _ _ encoder _ _ tb o Hstage).
  cbn [fst snd outcome_of].
  destruct (decoded_messages_counts args (snd decoded))
    as (Hm1 & Hm2 & Hm3 & Hm4 & Hm5 & Hm6).
  repeat split.
  - repeat first [rewrite count_app | rewrite count_cons].
    rewrite Hcalls, Hm1. cbn [is_decode_call].
    repeat count_zero. lia.
  - repeat first [rewrite count_app | rewrite count_cons].
    rewrite Hsamples, Hm2. cbn [is_elapsed_sample].
    repeat count_zero. lia.
  - repeat first [rewrite count_app | rewrite count_cons].
    rewrite Hm3. cbn [is_encode_call].
    repeat count_zero. lia.
  - repeat first [rewrite count_app | rewrite count_cons].
    rewrite Hm4. cbn [is_main_write].
    repeat count_zero. lia.
  - repeat first [rewrite filter_app | progress cbn [filter is_write]].
    rewrite decoded_messages_no_write.
    rewrite (filter_excluded is_write _ _ Hpre bookkeeping_no_write).
    rewrite (filter_excluded is_write _ _ Hpost bookkeeping_no_write).
    rewrite (filter_excluded is_write decode_loop_event tl Hloopev)
      by event_cases.
    rewrite (filter_excluded is_write blend_event tb Hblendev)
      by event_cases.
    reflexivity.
  - repeat first [rewrite count_app | rewrite count_cons].
    rewrite Hm5. cbn [is_blend_call].
    repeat count_zero. lia.
  - repeat first [rewrite count_app | rewrite count_cons].
    rewrite Hm6. cbn [is_background_warning].
    repeat count_zero. lia.
  - intros e He. rewrite !in_app_iff. cbn [In]. rewrite !in_app_iff. tauto.
Qed.

End PixelPathRuns.

Section PixelPathClaims.

Variable env : Collaborators.
Variable args : DecompressArgs.
Variable cmdline : CommandLineParser.
Variable compressed : bytes.

(** The run with an encoder when decode call [k] is the first to fail. *)
Lemma pixel_path_first_failure (encoder : Encoder) (k : nat) :
  let filename_out := fst (fst (output_target env args)) in
  let extension := snd (fst (output_target env args)) in
  let dparams := run_dparams env args cmdline in
  let run := main env args cmdline compressed in
  initial_decode_to_pixels args cmdline (snd (output_target env args))
  = true ->
  string_empty filename_out = false ->
  Encoder_FromExtension env extension = Some encoder ->
  (k < num_reps args)%nat ->
  (forall j, (j < k)%nat -> decode_succeeds env dparams compressed j = true) ->
  decode_succeeds env dparams compressed k = false ->
  count is_decode_call (fst run) = S k
  /\ count is_elapsed_sample (fst run) = k
  /\ count is_encode_call (fst run) = 0%nat
  /\ count is_main_write (fst run) = 0%nat
  /\ snd run = EXIT_FAILURE.
Proof.
  cbn zeta. intros Hpath Hname Henc Hk Hbefore Hfail.
  pose proof (output_needs_file env args Hname) as Hvalid.
  destruct (main_on_pixel_path env args cmdline compressed Hvalid Hpath)
    as (pre & post & -> & Hpre & Hpost & ->).
  rewrite (run_dparams_with_encoder env args cmdline encoder Hname Henc) in *.
  unfold main_pixel_block.
  destruct (output_target env args) as [[filename_out extension] codec].
  cbn [fst snd] in *.
  set (formats := if alpha_blend args
                  then AddFormatsWithAlphaChannel (AcceptedFormats encoder)
                  else AcceptedFormats encoder) in *.
  pose proof (pixel_loop_first_failure env args compressed _ _ formats
                (AcceptsCmyk encoder) k (num_reps args) 0%nat ltac:(lia)
                (fun j Hj => Hbefore j ltac:(lia)) Hfail) as Hloop.
  cbn zeta in Hloop. cbn [decode_state_before fst snd] in Hloop.
  destruct Hloop as (Hout & Hcalls & Hsamples & _).
  pose proof (pixel_loop_events env args compressed
                (effective_color_space args codec)
                (effective_bits_per_sample args cmdline codec extension)
                formats (AcceptsCmyk encoder) (num_reps args) 0%nat
                empty_ppf 0) as Hevents.
  unfold pixel_block.
  rewrite (bind_value _ _ _ _
             (negotiate_with_encoder env args _ _ _ Hname Henc)).
  fold formats. cbn [fst snd].
  destruct (pixel_loop env args _ _ compressed formats (AcceptsCmyk encoder)
              (num_reps args) 0 empty_ppf 0) as [tl rl].
  cbn [fst snd] in *. subst rl.
  cbn [bind emit fst snd app outcome_of]. rewrite ?app_nil_r.
  repeat split;
    repeat first [rewrite count_app | rewrite count_cons];
    rewrite ?Hcalls, ?Hsamples;
    cbn [is_decode_call is_elapsed_sample is_encode_call is_main_write];
    repeat count_zero; lia.
Qed.



End PixelPathClaims.




